(** * The ACL2 encoding tools: scan-non-ascii.py, fix-comment-encoding.py,
      verify-encoding.py

    A shallow embedding of the three scripts under [scripts/acl2-encoding/]
    and the properties of their byte-level behaviour.

    A [bytes] object is a list of integers (each in 0..255), a [str] is the
    list of its code points.  A file is its byte content; a script that
    rewrites a file returns the content the file holds afterwards. *)

From Stdlib Require Import String Ascii ZArith List Bool Lia.
From Stdlib Require Import OrdersEx Sorted Permutation.
Import ListNotations.
Local Open Scope Z_scope.

(* ================================================================== *)
(** * Python built-ins the scripts call *)
(* ================================================================== *)

Module Py.

Definition bytes := list Z.
Definition str := list Z.

(** Every element of a real [bytes] object is in [range(256)]. *)
Definition bytes_ok (d : bytes) : Prop := Forall (fun b => 0 <= b < 256) d.

Definition in_range (lo hi x : Z) : bool := (lo <=? x) && (x <=? hi).

(** [enumerate(l, start)] *)
Fixpoint enumerate {A : Type} (start : Z) (l : list A) : list (Z * A) :=
  match l with
  | [] => []
  | x :: r => (start, x) :: enumerate (start + 1) r
  end.

(** [data.split(sep)] for a one-byte separator: always at least one piece. *)
Fixpoint split (sep : Z) (data : bytes) : list bytes :=
  match data with
  | [] => [[]]
  | b :: r =>
      if b =? sep then [] :: split sep r
      else match split sep r with
           | l :: ls => (b :: l) :: ls
           | [] => [[b]]
           end
  end.

(** [sep.join(pieces)] for a one-byte separator. *)
Fixpoint join (sep : Z) (pieces : list bytes) : bytes :=
  match pieces with
  | [] => []
  | [l] => l
  | l :: ls => l ++ sep :: join sep ls
  end.

(** [d.count(x)] for a one-byte [x]. *)
Fixpoint count (x : Z) (d : bytes) : Z :=
  match d with
  | [] => 0
  | b :: r => (if b =? x then 1 else 0) + count x r
  end.

(** [d.rfind(x)]: the highest index holding [x], or -1. *)
Fixpoint rfind (x : Z) (d : bytes) : Z :=
  match d with
  | [] => -1
  | b :: r =>
      let k := rfind x r in
      if 0 <=? k then k + 1 else if b =? x then 0 else -1
  end.

(** [d.find(x, i)]: the lowest index [>= i] holding [x], or -1; [pos] is the
    index of the head of the list being walked. *)
Fixpoint find_at (x : Z) (d : bytes) (i pos : Z) : Z :=
  match d with
  | [] => -1
  | b :: r => if (i <=? pos) && (b =? x) then pos else find_at x r i (pos + 1)
  end.

Definition find (x : Z) (d : bytes) (i : Z) : Z := find_at x d i 0.

(** [d[a:b]] for [0 <= a] and [0 <= b] (the only slices the scripts take). *)
Definition slice {A : Type} (d : list A) (a b : Z) : list A :=
  firstn (Z.to_nat (b - a)) (skipn (Z.to_nat a) d).

Definition len {A : Type} (l : list A) : Z := Z.of_nat (length l).

(** [chr(b)]: the one-character string of code point [b]. *)
Definition chr (b : Z) : str := [b].

(** [d.decode('iso-8859-1')]: each byte is the code point of its character. *)
Definition decode_latin1 (d : bytes) : str := map (fun b => b) d.

(** [s.encode('iso-8859-1')]: fails on a code point above 0xFF. *)
Fixpoint encode_latin1 (s : str) : option bytes :=
  match s with
  | [] => Some []
  | c :: r =>
      if in_range 0 255 c
      then option_map (cons c) (encode_latin1 r)
      else None
  end.

(** [str.isspace] on one code point (the Unicode white-space characters of
    CPython's [_PyUnicode_IsWhitespace]). *)
Definition isspace (c : Z) : bool :=
  in_range 0x09 0x0D c || in_range 0x1C 0x1F c || (c =? 0x20)
  || (c =? 0x85) || (c =? 0xA0) || (c =? 0x1680)
  || in_range 0x2000 0x200A c || (c =? 0x2028) || (c =? 0x2029)
  || (c =? 0x202F) || (c =? 0x205F) || (c =? 0x3000).

Fixpoint lstrip (s : str) : str :=
  match s with
  | [] => []
  | c :: r => if isspace c then lstrip r else s
  end.

Definition rstrip (s : str) : str := rev (lstrip (rev s)).

(** [s.strip()] *)
Definition strip (s : str) : str := rstrip (lstrip s).

(** One lower-case hexadecimal digit. *)
Definition hex_digit (n : Z) : ascii :=
  if n <? 10 then ascii_of_N (Z.to_N (48 + n))
  else ascii_of_N (Z.to_N (87 + n)).

(** [f'0x{b:02x}'] for a byte [b] (two digits suffice below 256). *)
Definition hex02 (b : Z) : string :=
  String "0" (String "x"
    (String (hex_digit (b / 16)) (String (hex_digit (b mod 16)) EmptyString))).

(** ** UTF-8 *)

(** [chr(c).encode('utf-8')] for one code point (no surrogate arises from
    [chr] of a byte). *)
Definition encode_utf8_cp (c : Z) : bytes :=
  if c <? 0x80 then [c]
  else if c <? 0x800 then
    [Z.lor 0xC0 (Z.shiftr c 6); Z.lor 0x80 (Z.land c 0x3F)]
  else if c <? 0x10000 then
    [Z.lor 0xE0 (Z.shiftr c 12);
     Z.lor 0x80 (Z.land (Z.shiftr c 6) 0x3F);
     Z.lor 0x80 (Z.land c 0x3F)]
  else
    [Z.lor 0xF0 (Z.shiftr c 18);
     Z.lor 0x80 (Z.land (Z.shiftr c 12) 0x3F);
     Z.lor 0x80 (Z.land (Z.shiftr c 6) 0x3F);
     Z.lor 0x80 (Z.land c 0x3F)].

(** [s.encode('utf-8')] *)
Definition encode_utf8 (s : str) : bytes := flat_map encode_utf8_cp s.

Definition is_cont (b : Z) : bool := in_range 0x80 0xBF b.

Definition low6 (b : Z) : Z := Z.land b 0x3F.

(** [d.decode('utf-8')], strict: the well-formed byte sequences of the
    Unicode standard (no overlong form, no surrogate, nothing above
    U+10FFFF); [None] stands for [UnicodeDecodeError]. *)
Fixpoint decode_utf8 (d : bytes) : option str :=
  match d with
  | [] => Some []
  | b0 :: r0 =>
      if b0 <=? 0x7F then option_map (cons b0) (decode_utf8 r0)
      else if in_range 0xC2 0xDF b0 then
        match r0 with
        | b1 :: r1 =>
            if is_cont b1
            then option_map
                   (cons (Z.lor (Z.shiftl (Z.land b0 0x1F) 6) (low6 b1)))
                   (decode_utf8 r1)
            else None
        | _ => None
        end
      else if in_range 0xE0 0xEF b0 then
        match r0 with
        | b1 :: b2 :: r2 =>
            if in_range (if b0 =? 0xE0 then 0xA0 else 0x80)
                        (if b0 =? 0xED then 0x9F else 0xBF) b1
               && is_cont b2
            then option_map
                   (cons (Z.lor (Z.shiftl (Z.land b0 0x0F) 12)
                            (Z.lor (Z.shiftl (low6 b1) 6) (low6 b2))))
                   (decode_utf8 r2)
            else None
        | _ => None
        end
      else if in_range 0xF0 0xF4 b0 then
        match r0 with
        | b1 :: b2 :: b3 :: r3 =>
            if in_range (if b0 =? 0xF0 then 0x90 else 0x80)
                        (if b0 =? 0xF4 then 0x8F else 0xBF) b1
               && is_cont b2 && is_cont b3
            then option_map
                   (cons (Z.lor (Z.shiftl (Z.land b0 0x07) 18)
                            (Z.lor (Z.shiftl (low6 b1) 12)
                               (Z.lor (Z.shiftl (low6 b2) 6) (low6 b3)))))
                   (decode_utf8 r3)
            else None
        | _ => None
        end
      else None
  end.

End Py.

Import Py.

(* ================================================================== *)
(** * fix-comment-encoding.py: the Converter *)
(* ================================================================== *)

Module Fix.

(** The bytes the classifier looks at. *)
Definition ord_bar : Z := 124.        (* ord('|') *)
Definition ord_hash : Z := 35.        (* ord('#') *)
Definition ord_backslash : Z := 92.   (* ord('\\') *)
Definition ord_dquote : Z := 34.      (* ord of the double quote *)
Definition ord_semicolon : Z := 59.   (* ord(';') *)
Definition newline : Z := 10.         (* b'\n' *)

(** [is_valid_utf8(data)]: does [data.decode('utf-8')] succeed. *)
Definition is_valid_utf8 (data : bytes) : bool :=
  match decode_utf8 data with
  | Some _ => true
  | None => false
  end.

(** An entry of [changes]. *)
Record change := mk_change {
  chg_line : Z;
  chg_col : Z;
  chg_byte : string;
  chg_char : str
}.

(** An entry of [warnings]. *)
Record warning := mk_warning {
  warn_line : Z;
  warn_col : Z;
  warn_byte : string;
  warn_char : str;
  warn_context : str;
  warn_reason : string
}.

(** The flags of the line walk; [in_block_comment] is the one assigned
    outside the per-line loop. *)
Record cstate := mk_cstate {
  in_block_comment : bool;
  in_line_comment : bool;
  in_string : bool;
  escape_next : bool;
  prev_byte : Z
}.

(** What the walk builds. *)
Record output := mk_output {
  new_lines : list bytes;
  new_line : bytes;
  changes : list change;
  warnings : list warning
}.

Definition set_in_block_comment (v : bool) (s : cstate) : cstate :=
  mk_cstate v (in_line_comment s) (in_string s) (escape_next s) (prev_byte s).
Definition set_in_line_comment (v : bool) (s : cstate) : cstate :=
  mk_cstate (in_block_comment s) v (in_string s) (escape_next s) (prev_byte s).
Definition set_in_string (v : bool) (s : cstate) : cstate :=
  mk_cstate (in_block_comment s) (in_line_comment s) v (escape_next s)
            (prev_byte s).
Definition set_escape_next (v : bool) (s : cstate) : cstate :=
  mk_cstate (in_block_comment s) (in_line_comment s) (in_string s) v
            (prev_byte s).
Definition set_prev_byte (v : Z) (s : cstate) : cstate :=
  mk_cstate (in_block_comment s) (in_line_comment s) (in_string s)
            (escape_next s) v.

Definition reason_in_code : string := "non-ASCII in code (not in comment)".
Definition ellipsis : str := [46; 46; 46].   (* '...' *)

(** The body of [for col, b in enumerate(line)]. *)
Definition byte_body (line_no : Z) (line : bytes)
    (st : cstate * output) (cb : Z * Z) : cstate * output :=
  let '(s, o) := st in
  let '(col, b) := cb in
  if b <=? 127 then
    let s' :=
      if escape_next s then set_escape_next false s
      else if in_block_comment s then
        if (prev_byte s =? ord_bar) && (b =? ord_hash)
        then set_in_block_comment false s
        else s
      else if in_line_comment s then s
      else if (b =? ord_backslash) && in_string s then set_escape_next true s
      else if (b =? ord_dquote) && negb (in_line_comment s)
        then set_in_string (negb (in_string s)) s
      else if (b =? ord_semicolon) && negb (in_string s)
        then set_in_line_comment true s
      else if (prev_byte s =? ord_hash) && (b =? ord_bar)
              && negb (in_string s)
        then set_in_block_comment true s
      else s in
    (set_prev_byte b s',
     mk_output (new_lines o) (new_line o ++ [b]) (changes o) (warnings o))
  else
    let iso_char := chr b in
    if in_line_comment s || in_block_comment s then
      let utf8_bytes := encode_utf8 iso_char in
      (set_prev_byte b s,
       mk_output (new_lines o) (new_line o ++ utf8_bytes)
         (changes o ++ [mk_change line_no (col + 1) (hex02 b) iso_char])
         (warnings o))
    else
      let context_str := strip (decode_latin1 line) in
      let context_str :=
        if 80 <? len context_str
        then slice context_str 0 80 ++ ellipsis
        else context_str in
      (set_prev_byte b s,
       mk_output (new_lines o) (new_line o ++ [b]) (changes o)
         (warnings o ++
            [mk_warning line_no (col + 1) (hex02 b) iso_char context_str
               reason_in_code])).

(** The assignments that open the body of the loop over lines: every flag but
    [in_block_comment] is given its initial value, and [new_line] is fresh. *)
Definition line_entry (s : cstate) : cstate :=
  set_prev_byte 0
    (set_escape_next false (set_in_string false (set_in_line_comment false s))).

(** The body of [for line_no, line in enumerate(lines, 1)]. *)
Definition line_body (st : cstate * output) (nl : Z * bytes)
    : cstate * output :=
  let '(s, o) := st in
  let '(line_no, line) := nl in
  let o0 := mk_output (new_lines o) [] (changes o) (warnings o) in
  let '(s1, o1) :=
    fold_left (byte_body line_no line) (enumerate 0 line) (line_entry s, o0) in
  (s1, mk_output (new_lines o1 ++ [new_line o1]) (new_line o1) (changes o1)
         (warnings o1)).

(** The state before the first line: [in_block_comment = False], empty
    lists; the other flags are not yet bound and [line_entry] binds them. *)
Definition initial : cstate * output :=
  (mk_cstate false false false false 0, mk_output [] [] [] []).

(** The walk over all the lines of [data]. *)
Definition walk (data : bytes) : cstate * output :=
  fold_left line_body (enumerate 1 (split newline data)) initial.

(** The dictionary [process_file] returns. *)
Record result := mk_result {
  res_changes : list change;
  res_warnings : list warning;
  res_modified : bool;
  res_skipped : option string
}.

Definition skipped_clean : string := "no non-ASCII bytes".
Definition skipped_utf8 : string := "already valid UTF-8".

(** [process_file(fpath, dry_run)] on a file holding [data]: the dictionary it
    returns and the content of the file afterwards. *)
Definition process_file (data : bytes) (dry_run : bool) : result * bytes :=
  let has_non_ascii := existsb (fun b => 127 <? b) data in
  if negb has_non_ascii then
    (mk_result [] [] false (Some skipped_clean), data)
  else if is_valid_utf8 data then
    (mk_result [] [] false (Some skipped_utf8), data)
  else
    let o := snd (walk data) in
    let modified := 0 <? len (changes o) in
    (mk_result (changes o) (warnings o) modified None,
     if modified && negb dry_run then join newline (new_lines o) else data).

End Fix.

(* ================================================================== *)
(** * scan-non-ascii.py: the Scanner *)
(* ================================================================== *)

Module Scan.

(** An entry of [hits]. *)
Record hit := mk_hit {
  hit_line : Z;
  hit_col : Z;
  hit_byte : Z;
  hit_hex : string;
  hit_char : str;
  hit_context : str
}.

(** The body of [for i, b in enumerate(data)]: the entries it appends. *)
Definition hits_at (data : bytes) (ib : Z * Z) : list hit :=
  let '(i, b) := ib in
  if 127 <? b then
    let line := count 10 (slice data 0 i) + 1 in
    let col := i - rfind 10 (slice data 0 i) - 1 in
    let line_start := rfind 10 (slice data 0 i) + 1 in
    let line_end := find 10 data i in
    let line_end := if line_end =? -1 then len data else line_end in
    let context := decode_latin1 (slice data line_start line_end) in
    let char := decode_latin1 [b] in
    [mk_hit line col b (hex02 b) char (strip context)]
  else [].

(** [scan_file(fpath)] on a file holding [data]. *)
Definition scan_file (data : bytes) : list hit :=
  flat_map (hits_at data) (enumerate 0 data).

End Scan.

(* ================================================================== *)
(** * verify-encoding.py: the Verifier *)
(* ================================================================== *)

Module Verify.

(** An entry of [problems]. *)
Record problem := mk_problem {
  prob_line : Z;
  prob_col : Z;
  prob_byte : string;
  prob_char_iso : str;
  prob_context : str
}.

(** [(b & 0xC0) == 0x80] *)
Definition cont_pattern (b : Z) : bool := Z.land b 0xC0 =? 0x80.

(** [while start > 0 and (data[start] & 0xC0) == 0x80: start -= 1]; the
    index stays inside [data], so the default of [nth] is never read. *)
Fixpoint back_up (data : bytes) (start : nat) : nat :=
  match start with
  | O => O
  | S p => if cont_pattern (nth start data 0) then back_up data p else start
  end.

(** [while end < len(data) and (data[end] & 0xC0) == 0x80: end += 1], walking
    the bytes from index [end] on. *)
Fixpoint run_end (rest : bytes) (e : Z) : Z :=
  match rest with
  | [] => e
  | b :: r => if cont_pattern b then run_end r (e + 1) else e
  end.

(** The body of [for i, b in enumerate(data)] in the [except] branch. *)
Definition problems_at (data : bytes) (ib : Z * Z) : list problem :=
  let '(i, b) := ib in
  if 127 <? b then
    let start := Z.of_nat (back_up data (Z.to_nat i)) in
    let e := run_end (skipn (Z.to_nat (start + 1)) data) (start + 1) in
    match decode_utf8 (slice data start e) with
    | Some _ => []
    | None =>
        if i =? start then
          let line := count 10 (slice data 0 i) + 1 in
          let col := i - rfind 10 (slice data 0 i) - 1 in
          let line_start := rfind 10 (slice data 0 i) + 1 in
          let line_end := find 10 data i in
          let line_end := if line_end =? -1 then len data else line_end in
          let context :=
            strip (decode_latin1 (slice data line_start line_end)) in
          [mk_problem line col (hex02 b) (decode_latin1 [b]) context]
        else []
    end
  else [].

(** [verify_file(fpath)] on a file holding [data]. *)
Definition verify_file (data : bytes) : list problem :=
  match decode_utf8 data with
  | Some _ => []
  | None => flat_map (problems_at data) (enumerate 0 data)
  end.

(** The body of [for fpath in files] in [main], on a file of the tree given
    by its relative path and its content: it updates [ok_count] and
    [problem_files]. *)
Definition main_body (st : Z * list (string * list problem))
    (file : string * bytes) : Z * list (string * list problem) :=
  let '(ok_count, problem_files) := st in
  let '(relpath, data) := file in
  match verify_file data with
  | [] => (ok_count + 1, problem_files)
  | problems => (ok_count, problem_files ++ [(relpath, problems)])
  end.

(** The argument of [sys.exit] in [main]: [0 if not problem_files else 1]. *)
Definition main (files : list (string * bytes)) : Z :=
  match snd (fold_left main_body files (0, [])) with
  | [] => 0
  | _ => 1
  end.

End Verify.

(* ================================================================== *)
(** * The tree of files and the [main] functions *)
(* ================================================================== *)

Module Tree.

(** The files under the ACL2 directory.  A file is named by its path
    relative to the directory: [os.path.join(acl2_dir, .)] and
    [os.path.relpath(., acl2_dir)] go back and forth between this name and
    the full path.  [contents] gives the files that can be read, each with
    its content; [read_only] names the files that cannot be opened for
    writing. *)
Record fs := mk_fs {
  contents : list (string * bytes);
  read_only : list string
}.

Fixpoint lookup (l : list (string * bytes)) (path : string)
    : option bytes :=
  match l with
  | [] => None
  | (p, d) :: r => if String.eqb p path then Some d else lookup r path
  end.

(** [open(path, 'rb').read()]; [None] stands for the [OSError] of a file
    that is missing or cannot be read. *)
Definition read (t : fs) (path : string) : option bytes :=
  lookup (contents t) path.

Fixpoint store (l : list (string * bytes)) (path : string) (data : bytes)
    : list (string * bytes) :=
  match l with
  | [] => [(path, data)]
  | (p, d) :: r =>
      if String.eqb p path then (p, data) :: r
      else (p, d) :: store r path data
  end.

(** Does [open(path, 'wb')] succeed. *)
Definition writable (t : fs) (path : string) : bool :=
  negb (existsb (String.eqb path) (read_only t)).

(** [open(path, 'wb').write(data)]; [None] stands for the [OSError] (a
    [PermissionError]) of a file that cannot be opened for writing, which
    leaves the file as it was. *)
Definition write (t : fs) (path : string) (data : bytes) : option fs :=
  if writable t path
  then Some (mk_fs (store (contents t) path data) (read_only t))
  else None.

(** [a <= b] on [str]: the order of the code points. *)
Definition path_leb (a b : string) : bool :=
  match String_as_OT.compare a b with
  | Gt => false
  | _ => true
  end.

Fixpoint insert_path (x : string) (l : list string) : list string :=
  match l with
  | [] => [x]
  | y :: r => if path_leb x y then x :: l else y :: insert_path x r
  end.

(** [sorted(paths)] *)
Fixpoint sorted (paths : list string) : list string :=
  match paths with
  | [] => []
  | x :: r => insert_path x (sorted r)
  end.

(** [d[key] = value] on a dictionary, which keeps its keys in the order of
    their first assignment. *)
Fixpoint dict_set {V : Type} (d : list (string * V)) (key : string)
    (value : V) : list (string * V) :=
  match d with
  | [] => [(key, value)]
  | (k, v) :: r =>
      if String.eqb k key then (k, value) :: r
      else (k, v) :: dict_set r key value
  end.

(** [sum(len(v) for v in d.values())] *)
Definition total_len {V A : Type} (d : list (V * list A)) : Z :=
  fold_right (fun kv acc => len (snd kv) + acc) 0 d.

End Tree.

(** ** [main] of fix-comment-encoding.py *)

Module FixMain.

Import Tree.

Definition EXCLUDE_DIRS : list string := ["books/quicklisp/"%string].

(** The parsed command line; [report] holds the keys of
    [report['results']] of the JSON file given with [--report], each the
    name of a file as the Scanner writes it: the [os.path.relpath] of a
    path [glob] found.  (A key of another form, as [./a.lisp] or an
    absolute path, would have to be taken through [os.path.join] and
    [os.path.relpath] first.) *)
Record args := mk_args {
  dry_run : bool;
  report : option (list string);
  include_excluded : bool
}.

(** [any(relpath.startswith(ex) for ex in EXCLUDE_DIRS)] *)
Definition is_excluded (relpath : string) : bool :=
  existsb (fun ex => String.prefix ex relpath) EXCLUDE_DIRS.

(** The body of the loop that applies the exclusions, on [excluded_count]
    and [filtered]. *)
Definition exclude_body (st : Z * list string) (fpath : string)
    : Z * list string :=
  let '(excluded_count, filtered) := st in
  if is_excluded fpath then (excluded_count + 1, filtered)
  else (excluded_count, filtered ++ [fpath]).

(** The list of files [main] walks: from the report or from the paths the
    four [glob] calls found ([globbed], the set [file_set]), then without
    the excluded ones. *)
Definition file_list (a : args) (globbed : list string) : list string :=
  let file_list :=
    match report a with
    | Some keys => keys
    | None => sorted globbed
    end in
  if negb (include_excluded a)
  then snd (fold_left exclude_body file_list (0, []))
  else file_list.

(** What the loop over the files builds. *)
Record tally := mk_tally {
  all_changes : list (string * list Fix.change);
  all_warnings : list (string * list Fix.warning);
  skipped_utf8 : Z;
  skipped_clean : Z
}.

Definition skipped_is (r : Fix.result) (why : string) : bool :=
  match Fix.res_skipped r with
  | Some s => String.eqb s why
  | None => false
  end.

(** [process_file(fpath, dry_run)] on the tree: the file is read, and
    written back when it was modified and the run is not a dry run; [None]
    when [open] raises, for the reading or for the writing. *)
Definition process_path (t : fs) (fpath : string) (dry_run : bool)
    : option (Fix.result * fs) :=
  match read t fpath with
  | None => None
  | Some data =>
      let '(result, content) := Fix.process_file data dry_run in
      if Fix.res_modified result && negb dry_run
      then match write t fpath content with
           | Some t' => Some (result, t')
           | None => None
           end
      else Some (result, t)
  end.

(** The body of [for fpath in sorted(file_list)]; [None] when
    [process_file] raises. *)
Definition file_body (dry_run : bool) (t : fs) (acc : tally)
    (fpath : string) : option (fs * tally) :=
  match process_path t fpath dry_run with
  | None => None
  | Some (result, t') =>
      if skipped_is result Fix.skipped_utf8 then
        Some (t', mk_tally (all_changes acc) (all_warnings acc)
                    (skipped_utf8 acc + 1) (skipped_clean acc))
      else if skipped_is result Fix.skipped_clean then
        Some (t', mk_tally (all_changes acc) (all_warnings acc)
                    (skipped_utf8 acc) (skipped_clean acc + 1))
      else
        let all_changes :=
          match Fix.res_changes result with
          | [] => all_changes acc
          | changes => dict_set (all_changes acc) fpath changes
          end in
        let all_warnings :=
          match Fix.res_warnings result with
          | [] => all_warnings acc
          | warnings => dict_set (all_warnings acc) fpath warnings
          end in
        Some (t', mk_tally all_changes all_warnings (skipped_utf8 acc)
                    (skipped_clean acc))
  end.

(** The loop over the files: the tree it leaves, and what it built unless an
    exception ended it. *)
Fixpoint run (dry_run : bool) (files : list string) (t : fs) (acc : tally)
    : fs * option tally :=
  match files with
  | [] => (t, Some acc)
  | fpath :: rest =>
      match file_body dry_run t acc fpath with
      | None => (t, None)
      | Some (t', acc') => run dry_run rest t' acc'
      end
  end.

(** [report_out] *)
Record report_out := mk_report_out {
  out_dry_run : bool;
  files_processed : Z;
  out_skipped_utf8 : Z;
  out_skipped_clean : Z;
  files_changed : Z;
  total_replacements : Z;
  total_warnings : Z;
  out_changes : list (string * list Fix.change);
  out_warnings : list (string * list Fix.warning)
}.

Definition summary (a : args) (files : list string) (acc : tally)
    : report_out :=
  mk_report_out (dry_run a) (len files) (skipped_utf8 acc)
    (skipped_clean acc) (len (all_changes acc))
    (total_len (all_changes acc)) (total_len (all_warnings acc))
    (all_changes acc) (all_warnings acc).

(** [main()]: the tree it leaves and the report it prints, if it gets
    there. *)
Definition main (a : args) (globbed : list string) (t : fs)
    : fs * option report_out :=
  let files := file_list a globbed in
  let '(t', acc) :=
    run (dry_run a) (sorted files) t (mk_tally [] [] 0 0) in
  (t', option_map (summary a files) acc).

End FixMain.

(** ** [main] of scan-non-ascii.py *)

Module ScanMain.

Import Tree.

(** The body of [for fpath in files], on [results] and [total_hits]: a file
    that cannot be read is reported and passed over. *)
Definition file_body (t : fs) (st : list (string * list Scan.hit) * Z)
    (fpath : string) : list (string * list Scan.hit) * Z :=
  let '(results, total_hits) := st in
  match read t fpath with
  | None => st
  | Some data =>
      match Scan.scan_file data with
      | [] => st
      | hits => (dict_set results fpath hits, total_hits + len hits)
      end
  end.

(** [report] *)
Record report := mk_report {
  files_scanned : Z;
  files_with_non_ascii : Z;
  total_non_ascii_bytes : Z;
  results : list (string * list Scan.hit)
}.

(** [main()] on an existing directory: [files] is
    [find_source_files(acl2_dir)], the sorted set of the paths the four
    [glob] calls found. *)
Definition main (globbed : list string) (t : fs) : report :=
  let files := sorted globbed in
  let '(results, total_hits) := fold_left (file_body t) files ([], 0) in
  mk_report (len files) (len results) total_hits results.

End ScanMain.

(** ** [main] of verify-encoding.py on the tree *)

(** The files [main] of the Verifier walks, read in turn; [None] when one
    cannot be read ([verify_file] does not catch the error). *)
Fixpoint read_all (t : Tree.fs) (paths : list string)
    : option (list (string * bytes)) :=
  match paths with
  | [] => Some []
  | p :: rest =>
      match Tree.read t p, read_all t rest with
      | Some d, Some l => Some ((p, d) :: l)
      | _, _ => None
      end
  end.

(** The exit code of the Verifier on the tree. *)
Definition verify_tree (globbed : list string) (t : Tree.fs) : option Z :=
  option_map Verify.main (read_all t (Tree.sorted globbed)).

(* ================================================================== *)
(** * The classifier read off the Converter's loop *)
(* ================================================================== *)

Import Fix.

(** The flags after one byte: the first component of the loop body (it does
    not depend on the line number, the column or what was built so far). *)
Definition classify_byte (s : cstate) (b : Z) : cstate :=
  fst (byte_body 0 [] (s, mk_output [] [] [] []) (0, b)).

(** The flags after a run of bytes. *)
Definition run_bytes (s : cstate) (bs : bytes) : cstate :=
  fold_left classify_byte bs s.

(** The test of the non-ASCII branch: is the byte met inside a comment. *)
Definition in_comment (s : cstate) : bool :=
  in_line_comment s || in_block_comment s.

(** The four contexts of the classifier, in the order the [elif] chain of the
    loop body consults the flags. *)
Inductive context := Code | InString | InLineComment | InBlockComment.

Definition context_of (s : cstate) : context :=
  if in_block_comment s then InBlockComment
  else if in_line_comment s then InLineComment
  else if in_string s then InString
  else Code.

(** At most one of the three context flags is set, and an escape is pending
    only inside a string. *)
Definition flags_ok (s : cstate) : bool :=
  negb (in_block_comment s && in_line_comment s)
  && negb (in_block_comment s && in_string s)
  && negb (in_line_comment s && in_string s)
  && implb (escape_next s) (in_string s).

(** Each byte of a line with the verdict it is met under. *)
Fixpoint classify_bytes (s : cstate) (bs : bytes) : list (Z * bool) :=
  match bs with
  | [] => []
  | b :: r => (b, in_comment s) :: classify_bytes (classify_byte s b) r
  end.

(** The same for the lines of a file, [s] being the flags left by the line
    before. *)
Fixpoint classify_lines (s : cstate) (lines : list bytes)
    : list (list (Z * bool)) :=
  match lines with
  | [] => []
  | l :: r =>
      classify_bytes (line_entry s) l
      :: classify_lines (run_bytes (line_entry s) l) r
  end.

Definition classify_file (data : bytes) : list (list (Z * bool)) :=
  classify_lines (fst initial) (split newline data).

(** The flags at the end of the last of [lines]. *)
Fixpoint run_lines (s : cstate) (lines : list bytes) : cstate :=
  match lines with
  | [] => s
  | l :: r => run_lines (run_bytes (line_entry s) l) r
  end.

(** What is written for one classified byte. *)
Definition rewrite_byte (bc : Z * bool) : bytes :=
  let '(b, c) := bc in
  if (127 <? b) && c then encode_utf8 (chr b) else [b].

(** The change record of a classified byte, if it has one. *)
Definition change_at (line_no : Z) (cbc : Z * (Z * bool)) : list change :=
  let '(col, (b, c)) := cbc in
  if (127 <? b) && c
  then [mk_change line_no (col + 1) (hex02 b) (chr b)]
  else [].

(** The context string of a warning on [line]. *)
Definition warning_context (line : bytes) : str :=
  let context_str := strip (decode_latin1 line) in
  if 80 <? len context_str
  then slice context_str 0 80 ++ ellipsis
  else context_str.

(** The warning record of a classified byte, if it has one. *)
Definition warning_at (line_no : Z) (line : bytes) (cbc : Z * (Z * bool))
    : list warning :=
  let '(col, (b, c)) := cbc in
  if (127 <? b) && negb c
  then [mk_warning line_no (col + 1) (hex02 b) (chr b)
          (warning_context line) reason_in_code]
  else [].

Definition line_changes (line_no col : Z) (cl : list (Z * bool))
    : list change :=
  flat_map (change_at line_no) (enumerate col cl).

Definition line_warnings (line_no : Z) (line : bytes) (col : Z)
    (cl : list (Z * bool)) : list warning :=
  flat_map (warning_at line_no line) (enumerate col cl).

Definition file_changes (first : Z) (cls : list (list (Z * bool)))
    : list change :=
  flat_map (fun ncl => line_changes (fst ncl) 0 (snd ncl)) (enumerate first cls).

Definition file_warnings (first : Z) (cls : list (list (Z * bool)))
    : list warning :=
  flat_map
    (fun ncl => line_warnings (fst ncl) (map fst (snd ncl)) 0 (snd ncl))
    (enumerate first cls).

(** Does the line hold the two bytes [|#] next to each other. *)
Fixpoint has_bar_hash (l : bytes) : bool :=
  match l with
  | a :: (b :: _) as r => ((a =? ord_bar) && (b =? ord_hash)) || has_bar_hash r
  | _ => false
  end.

(** The content a real run ([dry_run = False]) leaves in the file. *)
Definition converted (data : bytes) : bytes := snd (process_file data false).

(** The flags at the end of the walk over [lines], as the loop leaves
    them. *)
Definition flags_after (lines : list bytes) : cstate :=
  fst (fold_left line_body (enumerate 1 lines) initial).

(** Two states of the classifier that agree on every flag, and on the
    previous byte unless both hold a byte above 127. *)
Definition sim (s s' : cstate) : Prop :=
  in_block_comment s = in_block_comment s'
  /\ in_line_comment s = in_line_comment s'
  /\ in_string s = in_string s'
  /\ escape_next s = escape_next s'
  /\ (prev_byte s = prev_byte s'
      \/ (127 < prev_byte s /\ 127 < prev_byte s')).

(** Does [chr(b).encode('utf-8')] consist of a lead byte 0xC2..0xDF and one
    continuation byte that decode back to [b]. *)
Definition encodes_in_two (b : Z) : bool :=
  match encode_utf8 (chr b) with
  | [b0; b1] =>
      negb (b0 <=? 0x7F) && in_range 0xC2 0xDF b0 && is_cont b1
      && (Z.lor (Z.shiftl (Z.land b0 0x1F) 6) (low6 b1) =? b)
  | _ => false
  end.

(** ** The Scanner's record for one index *)

Import Scan.

(** The end of the line holding index [i], as [scan_file] computes it. *)
Definition line_end (data : bytes) (i : Z) : Z :=
  let e := find 10 data i in if e =? -1 then len data else e.

(** The hit the Scanner builds for the byte [b] at index [k]. *)
Definition hit_of (data : bytes) (k : nat) (b : Z) : hit :=
  let p := firstn k data in
  mk_hit (count 10 p + 1) (Z.of_nat k - rfind 10 p - 1) b (hex02 b)
    (decode_latin1 [b])
    (strip (decode_latin1
              (slice data (rfind 10 p + 1) (line_end data (Z.of_nat k))))).

(** ** The runs over a tree, file by file *)

(** A file without a byte above 127, and a file with such bytes that
    decodes as UTF-8: the two kinds [process_file] skips. *)
Definition is_clean (d : bytes) : bool :=
  negb (existsb (fun b => 127 <? b) d).

Definition is_utf8 (d : bytes) : bool :=
  existsb (fun b => 127 <? b) d && is_valid_utf8 d.

(** Does the file at [p] exist with a content that passes [f]. *)
Definition content_is (f : bytes -> bool) (t : Tree.fs) (p : string)
    : bool :=
  match Tree.read t p with
  | Some d => f d
  | None => false
  end.

(** The entry of [all_changes] for the file at [p], if it gets one. *)
Definition change_entry (t : Tree.fs) (p : string)
    : list (string * list change) :=
  match Tree.read t p with
  | Some d =>
      match res_changes (fst (process_file d false)) with
      | [] => []
      | chs => [(p, chs)]
      end
  | None => []
  end.

(** The entry of [all_warnings] for the file at [p], if it gets one. *)
Definition warning_entry (t : Tree.fs) (p : string)
    : list (string * list warning) :=
  match Tree.read t p with
  | Some d =>
      match res_warnings (fst (process_file d false)) with
      | [] => []
      | ws => [(p, ws)]
      end
  | None => []
  end.

(** The tree after [process_file] on the file at [p] holding [d], when the
    file can be written. *)
Definition write_back (dry_run : bool) (t : Tree.fs) (p : string)
    (d : bytes) : Tree.fs :=
  if res_modified (fst (process_file d false)) && negb dry_run
  then Tree.mk_fs (Tree.store (Tree.contents t) p (converted d))
         (Tree.read_only t)
  else t.

(** Does [process_file] get through the file at [p]: the file can be read
    and, when the run is to change it, opened for writing. *)
Definition processable (dry_run : bool) (t : Tree.fs) (p : string) : bool :=
  match Tree.read t p with
  | Some d =>
      negb (res_modified (fst (process_file d false)) && negb dry_run)
      || Tree.writable t p
  | None => false
  end.

(** The entry of the Scanner's [results] for the file at [p], if it gets
    one. *)
Definition hit_entry (t : Tree.fs) (p : string)
    : list (string * list hit) :=
  match Tree.read t p with
  | Some d =>
      match scan_file d with
      | [] => []
      | hits => [(p, hits)]
      end
  | None => []
  end.

(** ** Sample files *)

(** The line [; caf] followed by 0xE9, and a second line of code. *)
Definition cafe_comment : bytes :=
  [59; 32; 99; 97; 102; 233; 10; 40; 102; 41].

(** A string holding 0xE9 on the first line, a comment holding 0xE9 on the
    second. *)
Definition mixed_file : bytes := [34; 233; 34; 10; 59; 32; 233].

(** A string whose first character is an escaped 0xE9, then a comment
    holding 0xE9. *)
Definition escaped_line : bytes := [34; 92; 233; 34; 32; 59; 32; 233].

(** A file that is valid UTF-8 and holds curly quotes: U+201C, [hi],
    U+201D. *)
Definition curly_quoted : bytes :=
  [0xE2; 0x80; 0x9C; 104; 105; 0xE2; 0x80; 0x9D].

(** The letter [A] followed by the byte 0xA9. *)
Definition stray_continuation : bytes := [65; 169].

(** A line of [n] letters [A] closed by the byte 0xE9. *)
Definition long_line (n : nat) : bytes := repeat 65 n ++ [233].

(** A small tree: a comment to convert, a string and a comment, a file of a
    vendored directory, an ASCII file; and its paths as a set. *)
Definition sample_tree : Tree.fs :=
  Tree.mk_fs
    [("b.lisp"%string, mixed_file); ("a.lisp"%string, cafe_comment);
     ("books/quicklisp/q.lisp"%string, [59; 233]); ("c.lisp"%string, [65])]
    [].

(** The same files, with [b.lisp] read-only. *)
Definition locked_tree : Tree.fs :=
  Tree.mk_fs (Tree.contents sample_tree) ["b.lisp"%string].

Definition sample_paths : list string :=
  ["b.lisp"; "c.lisp"; "books/quicklisp/q.lisp"; "a.lisp"]%string.

(* ================================================================== *)
(** * Lists, [split] and [join] *)
(* ================================================================== *)

Section ListFacts.

Context {A : Type}.

Lemma enumerate_length (l : list A) (start : Z) :
  length (enumerate start l) = length l.
Proof.
  revert start; induction l as [|x r IH]; intros start; simpl; auto.
Qed.

Lemma enumerate_app (l1 l2 : list A) (start : Z) :
  enumerate start (l1 ++ l2)
  = enumerate start l1 ++ enumerate (start + len l1) l2.
Proof.
  revert start; induction l1 as [|x r IH]; intros start; simpl.
  - unfold len; simpl. now rewrite Z.add_0_r.
  - rewrite IH. do 3 f_equal. unfold len; simpl length. lia.
Qed.

Lemma enumerate_nth (l : list A) (start : Z) (k : nat) (x : A) :
  nth_error l k = Some x -> In (start + Z.of_nat k, x) (enumerate start l).
Proof.
  revert start k; induction l as [|y r IH]; intros start k H.
  - destruct k; discriminate.
  - destruct k as [|k]; simpl in *.
    + injection H as ->. left. f_equal. lia.
    + right. replace (start + Z.pos (Pos.of_succ_nat k))
        with ((start + 1) + Z.of_nat k) by lia.
      now apply IH.
Qed.

Lemma enumerate_In (l : list A) (start i : Z) (x : A) :
  In (i, x) (enumerate start l) ->
  exists k : nat, i = start + Z.of_nat k /\ nth_error l k = Some x.
Proof.
  revert start; induction l as [|y r IH]; intros start H; simpl in H.
  - contradiction.
  - destruct H as [H|H].
    + injection H as <- <-. exists 0%nat. split; [lia|reflexivity].
    + destruct (IH _ H) as (k & -> & Hk). exists (S k). split; [lia|exact Hk].
Qed.

End ListFacts.

Section SplitFacts.

Variable sep : Z.

Lemma split_nonempty (d : bytes) : split sep d <> [].
Proof.
  destruct d as [|b r]; simpl; [discriminate|].
  destruct (b =? sep); [discriminate|].
  destruct (split sep r); discriminate.
Qed.

Lemma split_cons_other (b : Z) (r : bytes) :
  b <> sep ->
  split sep (b :: r) = (b :: hd [] (split sep r)) :: tl (split sep r).
Proof.
  intros Hb. simpl. apply Z.eqb_neq in Hb. rewrite Hb.
  pose proof (split_nonempty r).
  destruct (split sep r); [contradiction|reflexivity].
Qed.

Lemma split_cons_sep (r : bytes) : split sep (sep :: r) = [] :: split sep r.
Proof. simpl. now rewrite Z.eqb_refl. Qed.

Lemma join_cons (l : bytes) (ls : list bytes) :
  ls <> [] -> join sep (l :: ls) = l ++ sep :: join sep ls.
Proof. destruct ls; [contradiction|reflexivity]. Qed.

Lemma join_split (d : bytes) : join sep (split sep d) = d.
Proof.
  induction d as [|b r IH]; [reflexivity|].
  destruct (Z.eq_dec b sep) as [->|Hb].
  - rewrite split_cons_sep, join_cons by apply split_nonempty.
    now rewrite IH.
  - rewrite split_cons_other by assumption.
    pose proof (split_nonempty r) as Hne.
    destruct (split sep r) as [|l ls]; [contradiction|]. simpl hd; simpl tl.
    destruct ls as [|l' ls].
    + simpl in *. now rewrite IH.
    + rewrite join_cons in IH by discriminate.
      rewrite join_cons by discriminate. rewrite <- app_comm_cons.
      now rewrite IH.
Qed.

Lemma split_no_sep (d l : bytes) : In l (split sep d) -> ~ In sep l.
Proof.
  revert l; induction d as [|b r IH]; intros l Hl.
  - simpl in Hl. destruct Hl as [<-|[]]. auto.
  - destruct (Z.eq_dec b sep) as [->|Hb].
    + rewrite split_cons_sep in Hl. destruct Hl as [<-|Hl]; auto.
    + rewrite split_cons_other in Hl by assumption.
      pose proof (split_nonempty r) as Hne.
      destruct (split sep r) as [|l0 ls]; [contradiction|].
      simpl in Hl. destruct Hl as [<-|Hl].
      * intros [E|E]; [congruence|]. apply (IH l0); simpl; auto.
      * apply IH. simpl; auto.
Qed.

Lemma split_In (d l : bytes) (b : Z) :
  In l (split sep d) -> In b l -> In b d.
Proof.
  revert l; induction d as [|a r IH]; intros l Hl Hb.
  - simpl in Hl. destruct Hl as [<-|[]]. contradiction.
  - destruct (Z.eq_dec a sep) as [->|Ha].
    + rewrite split_cons_sep in Hl. destruct Hl as [<-|Hl]; [contradiction|].
      right. eapply IH; eauto.
    + rewrite split_cons_other in Hl by assumption.
      pose proof (split_nonempty r) as Hne.
      destruct (split sep r) as [|l0 ls]; [contradiction|].
      simpl in Hl. destruct Hl as [<-|Hl].
      * destruct Hb as [->|Hb]; [now left|].
        right. apply (IH l0); simpl; auto.
      * right. apply (IH l); simpl; auto.
Qed.

Lemma In_split (d : bytes) (b : Z) :
  In b d -> b <> sep -> exists l, In l (split sep d) /\ In b l.
Proof.
  induction d as [|a r IH]; intros Hb Hne; [contradiction|].
  destruct (Z.eq_dec a sep) as [->|Ha].
  - rewrite split_cons_sep. destruct Hb as [->|Hb]; [congruence|].
    destruct (IH Hb Hne) as (l & Hl & Hbl). exists l. simpl; auto.
  - rewrite split_cons_other by assumption.
    destruct Hb as [->|Hb].
    + eexists. split; [left; reflexivity|now left].
    + destruct (IH Hb Hne) as (l & Hl & Hbl).
      pose proof (split_nonempty r) as Hn.
      destruct (split sep r) as [|l0 ls]; [contradiction|].
      simpl. destruct Hl as [<-|Hl].
      * exists (a :: l0). split; [now left|now right].
      * exists l. auto.
Qed.

Lemma count_nonneg (d : bytes) : 0 <= count sep d.
Proof.
  induction d as [|b r IH]; simpl; [lia|]. destruct (b =? sep); lia.
Qed.

Lemma count_app (d1 d2 : bytes) :
  count sep (d1 ++ d2) = count sep d1 + count sep d2.
Proof. induction d1 as [|b r IH]; simpl; [reflexivity|]. rewrite IH. lia. Qed.

Lemma count_zero (d : bytes) : ~ In sep d -> count sep d = 0.
Proof.
  induction d as [|b r IH]; intros H; simpl; [reflexivity|].
  destruct (Z.eqb_spec b sep) as [->|Hb].
  - exfalso. apply H. now left.
  - rewrite IH; [reflexivity|]. intros E. apply H. now right.
Qed.

Lemma split_length (d : bytes) : len (split sep d) = count sep d + 1.
Proof.
  unfold len. induction d as [|b r IH]; [reflexivity|].
  destruct (Z.eq_dec b sep) as [->|Hb].
  - rewrite split_cons_sep. simpl. rewrite Z.eqb_refl. lia.
  - rewrite split_cons_other by assumption.
    pose proof (split_nonempty r) as Hne.
    simpl count. apply Z.eqb_neq in Hb. rewrite Hb.
    destruct (split sep r); [contradiction|]. simpl in *. lia.
Qed.

Lemma count_join (ls : list bytes) :
  ls <> [] -> (forall l, In l ls -> count sep l = 0) ->
  count sep (join sep ls) = len ls - 1.
Proof.
  unfold len. induction ls as [|l ls IH]; intros Hne H; [contradiction|].
  destruct ls as [|l' ls].
  - simpl. apply H. now left.
  - rewrite join_cons by discriminate. rewrite count_app.
    change (count sep (sep :: join sep (l' :: ls)))
      with ((if sep =? sep then 1 else 0) + count sep (join sep (l' :: ls))).
    rewrite Z.eqb_refl. rewrite IH; [|discriminate|].
    + rewrite (H l) by now left. simpl length. lia.
    + intros l0 Hl0. apply H. now right.
Qed.

Lemma rfind_lower (d : bytes) : -1 <= rfind sep d.
Proof.
  induction d as [|b r IH]; simpl; [lia|].
  destruct (0 <=? rfind sep r) eqn:E; [apply Z.leb_le in E; lia|].
  destruct (b =? sep); lia.
Qed.

Lemma rfind_count (d : bytes) : rfind sep d = -1 <-> count sep d = 0.
Proof.
  induction d as [|b r IH]; simpl; [tauto|].
  pose proof (rfind_lower r). pose proof (count_nonneg r).
  destruct (0 <=? rfind sep r) eqn:E.
  - apply Z.leb_le in E.
    assert (count sep r <> 0) by (intros Hc; apply IH in Hc; lia).
    destruct (b =? sep); split; intros; lia.
  - apply Z.leb_gt in E. assert (Hr : rfind sep r = -1) by lia.
    apply IH in Hr. destruct (b =? sep); split; intros; lia.
Qed.

End SplitFacts.

(* ================================================================== *)
(** * Lines and columns: an index of the file against its place in
      [data.split(b'\n')] *)
(* ================================================================== *)

Lemma count_cons (x b : Z) (r : bytes) :
  count x (b :: r) = (if b =? x then 1 else 0) + count x r.
Proof. reflexivity. Qed.

Lemma rfind_cons (x b : Z) (r : bytes) :
  rfind x (b :: r)
  = if 0 <=? rfind x r then rfind x r + 1 else if b =? x then 0 else -1.
Proof. reflexivity. Qed.

Lemma slice_cons_succ {A : Type} (x : A) (d : list A) (a b : Z) :
  0 <= a -> slice (x :: d) (a + 1) (b + 1) = slice d a b.
Proof.
  intros Ha. unfold slice.
  replace (b + 1 - (a + 1)) with (b - a) by lia.
  replace (Z.to_nat (a + 1)) with (S (Z.to_nat a)) by lia. reflexivity.
Qed.

Lemma slice_cons_zero {A : Type} (x : A) (d : list A) (b : Z) :
  0 <= b -> slice (x :: d) 0 (b + 1) = x :: slice d 0 b.
Proof.
  intros Hb. unfold slice. simpl skipn. rewrite !Z.sub_0_r.
  replace (Z.to_nat (b + 1)) with (S (Z.to_nat b)) by lia. reflexivity.
Qed.

Lemma slice_prefix {A : Type} (d : list A) (k : nat) :
  slice d 0 (Z.of_nat k) = firstn k d.
Proof. unfold slice. simpl skipn. now rewrite Z.sub_0_r, Nat2Z.id. Qed.

Lemma slice_length_le {A : Type} (d : list A) (a b : Z) :
  (length (slice d a b) <= length d)%nat.
Proof.
  unfold slice. rewrite length_firstn, length_skipn. lia.
Qed.

Lemma find_at_range (x : Z) (d : bytes) (i pos : Z) :
  find_at x d i pos = -1 \/ pos <= find_at x d i pos < pos + len d.
Proof.
  unfold len. revert pos; induction d as [|b r IH]; intros pos; simpl.
  - now left.
  - destruct ((i <=? pos) && (b =? x)); [right; lia|].
    destruct (IH (pos + 1)) as [E|E]; [now left|right; lia].
Qed.

Lemma find_at_low (x : Z) (d : bytes) (i i' pos : Z) :
  i <= pos -> i' <= pos -> find_at x d i pos = find_at x d i' pos.
Proof.
  revert pos; induction d as [|b r IH]; intros pos H H'; simpl; [reflexivity|].
  replace (i <=? pos) with true by (symmetry; apply Z.leb_le; lia).
  replace (i' <=? pos) with true by (symmetry; apply Z.leb_le; lia).
  destruct (b =? x); simpl; [reflexivity|].
  apply IH; lia.
Qed.

Lemma find_at_shift (x : Z) (d : bytes) (i pos : Z) :
  0 <= pos ->
  find_at x d (i + 1) (pos + 1)
  = if find_at x d i pos =? -1 then -1 else find_at x d i pos + 1.
Proof.
  revert pos; induction d as [|b r IH]; intros pos H; simpl; [reflexivity|].
  replace (i + 1 <=? pos + 1) with (i <=? pos)
    by (destruct (Z.leb_spec i pos), (Z.leb_spec (i + 1) (pos + 1)); lia).
  destruct ((i <=? pos) && (b =? x)).
  - destruct (Z.eqb_spec pos (-1)); [lia|reflexivity].
  - apply IH. lia.
Qed.

Lemma line_end_nonneg (d : bytes) (i : Z) : 0 <= line_end d i.
Proof.
  unfold line_end, find, len.
  destruct (find_at_range 10 d i 0) as [E|E].
  - rewrite E. simpl. lia.
  - destruct (Z.eqb_spec (find_at 10 d i 0) (-1)); lia.
Qed.

Lemma line_end_cons_succ (a : Z) (r : bytes) (i : Z) :
  0 <= i -> line_end (a :: r) (i + 1) = line_end r i + 1.
Proof.
  intros Hi. unfold line_end, find. simpl find_at.
  replace (i + 1 <=? 0) with false by (symmetry; apply Z.leb_gt; lia).
  simpl andb.
  assert (Hs := find_at_shift 10 r i 0 (Z.le_refl 0)).
  change (0 + 1) with 1 in Hs |- *. rewrite Hs.
  unfold len. simpl length.
  destruct (find_at_range 10 r i 0) as [E|E].
  - rewrite E. simpl. lia.
  - destruct (Z.eqb_spec (find_at 10 r i 0) (-1)) as [E1|E1]; [lia|].
    destruct (Z.eqb_spec (find_at 10 r i 0 + 1) (-1)); lia.
Qed.

Lemma line_end_cons_zero (a : Z) (r : bytes) :
  a <> 10 -> line_end (a :: r) 0 = line_end r 0 + 1.
Proof.
  intros Ha. unfold line_end, find. simpl find_at.
  apply Z.eqb_neq in Ha. rewrite Ha. simpl andb.
  assert (Hl := find_at_low 10 r 0 1 1).
  assert (Hs := find_at_shift 10 r 0 0 (Z.le_refl 0)).
  change (0 + 1) with 1 in Hs |- *. rewrite Hl, Hs by lia.
  unfold len. simpl length.
  destruct (find_at_range 10 r 0 0) as [E|E].
  - rewrite E. simpl. lia.
  - destruct (Z.eqb_spec (find_at 10 r 0 0) (-1)) as [E1|E1]; [lia|].
    destruct (Z.eqb_spec (find_at 10 r 0 0 + 1) (-1)); lia.
Qed.

Lemma hd_split (d : bytes) :
  hd [] (split 10 d) = slice d 0 (line_end d 0).
Proof.
  induction d as [|a r IH]; [reflexivity|].
  destruct (Z.eq_dec a 10) as [->|Ha].
  - reflexivity.
  - rewrite split_cons_other by assumption. simpl hd.
    rewrite line_end_cons_zero by assumption.
    rewrite slice_cons_zero by apply line_end_nonneg. now rewrite IH.
Qed.

(** The byte at index [k] of the file sits on line [count + 1] at column
    [k - rfind - 1] of the split, and that line is the slice the Scanner
    takes as context. *)
Lemma locate (d : bytes) (k : nat) (b : Z) :
  nth_error d k = Some b -> b <> 10 ->
  let p := firstn k d in
  let l := slice d (rfind 10 p + 1) (line_end d (Z.of_nat k)) in
  nth_error (split 10 d) (Z.to_nat (count 10 p)) = Some l
  /\ nth_error l (Z.to_nat (Z.of_nat k - rfind 10 p - 1)) = Some b
  /\ rfind 10 p < Z.of_nat k.
Proof.
  revert k; induction d as [|a r IH]; intros k Hk Hb.
  - destruct k; discriminate.
  - destruct k as [|k].
    + simpl in Hk. injection Hk as ->. cbn zeta. simpl firstn.
      simpl count. simpl rfind. simpl Z.of_nat.
      rewrite split_cons_other by assumption. rewrite hd_split.
      rewrite line_end_cons_zero by assumption.
      change (-1 + 1) with 0.
      rewrite slice_cons_zero by apply line_end_nonneg.
      repeat split; lia.
    + simpl in Hk. specialize (IH k Hk Hb). cbn zeta in *.
      destruct IH as (IH1 & IH2 & IH3).
      set (p := firstn k r) in *.
      pose proof (rfind_lower 10 p) as Hlo.
      pose proof (count_nonneg 10 p) as Hcn.
      pose proof (rfind_count 10 p) as Hrc.
      replace (Z.of_nat (S k)) with (Z.of_nat k + 1) by lia.
      rewrite line_end_cons_succ by lia.
      change (firstn (S k) (a :: r)) with (a :: p).
      simpl count. simpl rfind.
      destruct (Z.eqb_spec a 10) as [->|Ha].
      * rewrite split_cons_sep.
        replace (Z.to_nat (1 + count 10 p)) with (S (Z.to_nat (count 10 p)))
          by lia.
        simpl nth_error at 1.
        destruct (Z.leb_spec 0 (rfind 10 p)) as [Hf|Hf].
        -- replace (rfind 10 p + 1 + 1) with ((rfind 10 p + 1) + 1) by lia.
           rewrite slice_cons_succ by lia.
           replace (Z.of_nat k + 1 - (rfind 10 p + 1) - 1)
             with (Z.of_nat k - rfind 10 p - 1) by lia.
           repeat split; auto; lia.
        -- assert (Hm : rfind 10 p = -1) by lia. rewrite Hm in *.
           rewrite slice_cons_succ by lia.
           replace (Z.of_nat k + 1 - 0 - 1) with (Z.of_nat k - -1 - 1) by lia.
           repeat split; auto; lia.
      * rewrite split_cons_other by assumption.
        destruct (Z.leb_spec 0 (rfind 10 p)) as [Hf|Hf].
        -- assert (Hc : count 10 p <> 0) by (intros E; apply Hrc in E; lia).
           replace (0 + count 10 p) with (count 10 p) by lia.
           destruct (Z.to_nat (count 10 p)) as [|m] eqn:Em; [lia|].
           simpl nth_error at 1.
           replace (rfind 10 p + 1 + 1) with ((rfind 10 p + 1) + 1) by lia.
           rewrite slice_cons_succ by lia.
           replace (Z.of_nat k + 1 - (rfind 10 p + 1) - 1)
             with (Z.of_nat k - rfind 10 p - 1) by lia.
           pose proof (split_nonempty 10 r) as Hne.
           destruct (split 10 r) as [|l0 ls]; [contradiction|].
           simpl tl. simpl in IH1. repeat split; auto; lia.
        -- assert (Hm : rfind 10 p = -1) by lia.
           assert (Hc : count 10 p = 0) by (apply Hrc; exact Hm).
           rewrite Hm, Hc in *. simpl Z.to_nat in *. simpl nth_error at 1.
           change (-1 + 1) with 0 in *.
           rewrite slice_cons_zero by apply line_end_nonneg.
           replace (Z.to_nat (Z.of_nat k + 1 - -1 - 1))
             with (S (Z.to_nat (Z.of_nat k - -1 - 1))) by lia.
           simpl nth_error.
           pose proof (split_nonempty 10 r) as Hne.
           destruct (split 10 r) as [|l0 ls]; [contradiction|].
           simpl in IH1. injection IH1 as ->. simpl hd.
           repeat split; auto; lia.
Qed.

(** Conversely every place of the split is an index of the file. *)
Lemma position_index (d : bytes) (n : nat) (l : bytes) (c : nat) (b : Z) :
  nth_error (split 10 d) n = Some l -> nth_error l c = Some b ->
  exists k, nth_error d k = Some b
            /\ count 10 (firstn k d) = Z.of_nat n
            /\ Z.of_nat k - rfind 10 (firstn k d) - 1 = Z.of_nat c.
Proof.
  revert n l c; induction d as [|a r IH]; intros n l c Hn Hc.
  - simpl in Hn. destruct n as [|[|n]]; try discriminate.
    injection Hn as <-. destruct c; discriminate.
  - destruct (Z.eq_dec a 10) as [->|Ha].
    + rewrite split_cons_sep in Hn. destruct n as [|n].
      * injection Hn as <-. destruct c; discriminate.
      * simpl in Hn. destruct (IH _ _ _ Hn Hc) as (k & Hk & Hcount & Hcol).
        exists (S k). simpl firstn. rewrite count_cons, rfind_cons.
        rewrite Z.eqb_refl.
        pose proof (rfind_lower 10 (firstn k r)).
        split; [exact Hk|]. split; [lia|].
        destruct (Z.leb_spec 0 (rfind 10 (firstn k r))); lia.
    + rewrite split_cons_other in Hn by assumption.
      pose proof (split_nonempty 10 r) as Hne.
      destruct (split 10 r) as [|l0 ls] eqn:Es; [contradiction|].
      simpl hd in Hn; simpl tl in Hn.
      assert (Ha' : (a =? 10) = false) by now apply Z.eqb_neq.
      destruct n as [|n].
      * injection Hn as <-. destruct c as [|c].
        -- injection Hc as <-. exists 0%nat. simpl. repeat split; lia.
        -- simpl in Hc.
           destruct (IH 0%nat l0 c eq_refl Hc) as (k & Hk & Hcount & Hcol).
           exists (S k). simpl firstn. rewrite count_cons, rfind_cons, Ha'.
           assert (Hm : rfind 10 (firstn k r) = -1)
             by (apply rfind_count; lia).
           rewrite Hm in *. change (0 <=? -1) with false. cbv iota.
           repeat split; auto; lia.
      * simpl in Hn.
        destruct (IH (S n) l c Hn Hc) as (k & Hk & Hcount & Hcol).
        exists (S k). simpl firstn. rewrite count_cons, rfind_cons, Ha'.
        pose proof (rfind_lower 10 (firstn k r)).
        assert (Hm : rfind 10 (firstn k r) <> -1)
          by (intros E; apply rfind_count in E; lia).
        destruct (Z.leb_spec 0 (rfind 10 (firstn k r))); [|lia].
        repeat split; auto; lia.
Qed.

(* ================================================================== *)
(** * The Scanner's hits *)
(* ================================================================== *)

Lemma decode_latin1_id (d : bytes) : decode_latin1 d = d.
Proof. apply map_id. Qed.

Lemma lstrip_length (s : str) : (length (lstrip s) <= length s)%nat.
Proof.
  induction s as [|c r IH]; simpl; [lia|].
  destruct (isspace c); simpl; lia.
Qed.

Lemma strip_length (s : str) : (length (strip s) <= length s)%nat.
Proof.
  unfold strip, rstrip. rewrite length_rev.
  etransitivity; [apply lstrip_length|]. rewrite length_rev.
  apply lstrip_length.
Qed.

Lemma lstrip_keep (c : Z) (r : str) :
  isspace c = false -> lstrip (c :: r) = c :: r.
Proof. intros H. simpl. now rewrite H. Qed.

Lemma hits_at_nth (data : bytes) (k : nat) (b : Z) :
  hits_at data (Z.of_nat k, b)
  = if 127 <? b then [hit_of data k b] else [].
Proof.
  unfold hits_at, hit_of, line_end. rewrite slice_prefix. reflexivity.
Qed.

Lemma scan_file_In (data : bytes) (h : hit) :
  In h (scan_file data) <->
  exists k b, nth_error data k = Some b /\ 127 < b /\ h = hit_of data k b.
Proof.
  unfold scan_file. rewrite in_flat_map. split.
  - intros ([i b] & Hin & Hh). apply enumerate_In in Hin.
    destruct Hin as (k & -> & Hk). rewrite Z.add_0_l, hits_at_nth in Hh.
    destruct (Z.ltb_spec 127 b); [|contradiction].
    destruct Hh as [<-|[]]. eauto.
  - intros (k & b & Hk & Hb & ->). exists (Z.of_nat k, b). split.
    + apply (enumerate_nth data 0 k b Hk).
    + rewrite hits_at_nth. apply Z.ltb_lt in Hb. rewrite Hb. now left.
Qed.

Lemma scan_bytes_from (data l : bytes) (start : Z) :
  map hit_byte (flat_map (hits_at data) (enumerate start l))
  = filter (fun b => 127 <? b) l.
Proof.
  revert start; induction l as [|b r IH]; intros start; [reflexivity|].
  simpl enumerate. simpl flat_map. rewrite map_app, IH. simpl filter.
  unfold hits_at. destruct (127 <? b); reflexivity.
Qed.

(** Where a hit points: its line and column find its byte in the split, and
    its context is that line, trimmed. *)
Lemma hit_of_place (data : bytes) (k : nat) (b : Z) :
  nth_error data k = Some b -> 127 < b ->
  let h := hit_of data k b in
  exists l,
    nth_error (split 10 data) (Z.to_nat (hit_line h - 1)) = Some l
    /\ 1 <= hit_line h /\ 0 <= hit_col h
    /\ nth_error l (Z.to_nat (hit_col h)) = Some b
    /\ hit_context h = strip (decode_latin1 l)
    /\ len (hit_context h) <= len l.
Proof.
  intros Hk Hb. cbn zeta.
  assert (Hne : b <> 10) by lia.
  destruct (locate data k b Hk Hne) as (H1 & H2 & H3). cbn zeta in *.
  pose proof (count_nonneg 10 (firstn k data)).
  pose proof (rfind_lower 10 (firstn k data)).
  eexists. unfold hit_of. simpl hit_line. simpl hit_col. simpl hit_context.
  replace (count 10 (firstn k data) + 1 - 1) with (count 10 (firstn k data))
    by lia.
  split; [exact H1|]. split; [lia|]. split; [lia|]. split; [exact H2|].
  split; [reflexivity|].
  unfold len. apply inj_le. rewrite decode_latin1_id. apply strip_length.
Qed.

Lemma find_at_none (x : Z) (d : bytes) (i pos : Z) :
  ~ In x d -> find_at x d i pos = -1.
Proof.
  revert pos; induction d as [|b r IH]; intros pos H; simpl; [reflexivity|].
  destruct (Z.eqb_spec b x) as [->|Hb].
  - exfalso. apply H. now left.
  - rewrite andb_false_r. apply IH. intros E. apply H. now right.
Qed.

Lemma long_line_hit (n : nat) :
  exists h, In h (scan_file (long_line n))
            /\ length (hit_context h) = S n.
Proof.
  exists (hit_of (long_line n) n 233). split.
  - apply scan_file_In. exists n, 233. split; [|split; [lia|reflexivity]].
    unfold long_line. rewrite nth_error_app2 by (rewrite repeat_length; lia).
    rewrite repeat_length, Nat.sub_diag. reflexivity.
  - assert (Hno : ~ In 10 (long_line n)).
    { unfold long_line. rewrite in_app_iff. intros [H|[H|[]]]; [|lia].
      apply repeat_spec in H. lia. }
    assert (Hp : ~ In 10 (firstn n (long_line n))).
    { intros H. apply Hno. rewrite <- (firstn_skipn n).
      apply in_or_app. now left. }
    unfold hit_of. simpl hit_context.
    assert (Hr : rfind 10 (firstn n (long_line n)) = -1)
      by (apply rfind_count, count_zero, Hp).
    rewrite Hr. unfold line_end, find. rewrite find_at_none by exact Hno.
    change (-1 =? -1) with true. cbv iota. change (-1 + 1) with 0.
    unfold len. rewrite slice_prefix, firstn_all, decode_latin1_id.
    unfold strip, rstrip.
    assert (Hl : lstrip (long_line n) = long_line n).
    { unfold long_line. destruct n; reflexivity. }
    assert (Hrev : rev (long_line n) = 233 :: rev (repeat 65 n))
      by (unfold long_line; rewrite rev_app_distr; reflexivity).
    rewrite Hl, Hrev, lstrip_keep by reflexivity.
    rewrite <- Hrev, rev_involutive. unfold long_line.
    rewrite length_app, repeat_length. simpl. lia.
Qed.

(* ================================================================== *)
(** * The Converter's loops in closed form *)
(* ================================================================== *)

Lemma classify_byte_non_ascii (s : cstate) (b : Z) :
  127 < b -> classify_byte s b = set_prev_byte b s.
Proof.
  intros H. unfold classify_byte, byte_body.
  destruct (Z.leb_spec b 127); [lia|].
  destruct (in_line_comment s || in_block_comment s); reflexivity.
Qed.

Lemma byte_body_eq (line_no : Z) (line : bytes) (s : cstate) (o : output)
    (col b : Z) :
  byte_body line_no line (s, o) (col, b)
  = (classify_byte s b,
     mk_output (new_lines o)
       (new_line o ++ rewrite_byte (b, in_comment s))
       (changes o ++ change_at line_no (col, (b, in_comment s)))
       (warnings o ++ warning_at line_no line (col, (b, in_comment s)))).
Proof.
  unfold classify_byte, byte_body, rewrite_byte, change_at, warning_at,
    in_comment, warning_context.
  rewrite (Z.ltb_antisym b 127).
  destruct (b <=? 127); simpl negb; simpl andb.
  - now rewrite !app_nil_r.
  - destruct (in_line_comment s || in_block_comment s); simpl;
      now rewrite !app_nil_r.
Qed.

Lemma classify_bytes_fst (s : cstate) (bs : bytes) :
  map fst (classify_bytes s bs) = bs.
Proof.
  revert s; induction bs as [|b r IH]; intros s; simpl; [reflexivity|].
  now rewrite IH.
Qed.

Lemma classify_bytes_length (s : cstate) (bs : bytes) :
  length (classify_bytes s bs) = length bs.
Proof.
  rewrite <- (classify_bytes_fst s bs) at 2. now rewrite length_map.
Qed.

Lemma fold_bytes (line_no : Z) (line bs : bytes) (s : cstate) (o : output)
    (col : Z) :
  fold_left (byte_body line_no line) (enumerate col bs) (s, o)
  = (run_bytes s bs,
     mk_output (new_lines o)
       (new_line o ++ flat_map rewrite_byte (classify_bytes s bs))
       (changes o ++ line_changes line_no col (classify_bytes s bs))
       (warnings o ++ line_warnings line_no line col (classify_bytes s bs))).
Proof.
  revert s o col; induction bs as [|b r IH]; intros s o col.
  - simpl. unfold line_changes, line_warnings. simpl.
    rewrite !app_nil_r. now destruct o.
  - cbn [enumerate fold_left]. rewrite byte_body_eq, IH.
    unfold line_changes, line_warnings.
    cbn [new_lines new_line changes warnings classify_bytes enumerate
         flat_map].
    now rewrite <- !app_assoc.
Qed.

Lemma line_body_eq (s : cstate) (o : output) (line_no : Z) (line : bytes) :
  let cl := classify_bytes (line_entry s) line in
  line_body (s, o) (line_no, line)
  = (run_bytes (line_entry s) line,
     mk_output (new_lines o ++ [flat_map rewrite_byte cl])
       (flat_map rewrite_byte cl)
       (changes o ++ line_changes line_no 0 cl)
       (warnings o ++ line_warnings line_no line 0 cl)).
Proof. cbn zeta. unfold line_body. rewrite fold_bytes. reflexivity. Qed.

Lemma fold_lines (lines : list bytes) (first : Z) (s : cstate) (o : output) :
  let r := fold_left line_body (enumerate first lines) (s, o) in
  let cls := classify_lines s lines in
  fst r = run_lines s lines
  /\ new_lines (snd r) = new_lines o ++ map (flat_map rewrite_byte) cls
  /\ changes (snd r) = changes o ++ file_changes first cls
  /\ warnings (snd r) = warnings o ++ file_warnings first cls.
Proof.
  cbn zeta. revert first s o; induction lines as [|l r IH]; intros first s o.
  - simpl. unfold file_changes, file_warnings. simpl.
    now rewrite !app_nil_r.
  - cbn [enumerate fold_left]. rewrite line_body_eq. cbn zeta.
    destruct (IH (first + 1) (run_bytes (line_entry s) l)
                (mk_output
                   (new_lines o ++
                      [flat_map rewrite_byte (classify_bytes (line_entry s) l)])
                   (flat_map rewrite_byte (classify_bytes (line_entry s) l))
                   (changes o ++
                      line_changes first 0 (classify_bytes (line_entry s) l))
                   (warnings o ++
                      line_warnings first l 0
                        (classify_bytes (line_entry s) l))))
      as (H1 & H2 & H3 & H4).
    rewrite H1, H2, H3, H4.
    unfold file_changes, file_warnings.
    cbn [new_lines new_line changes warnings classify_lines run_lines
         enumerate flat_map map fst snd].
    rewrite classify_bytes_fst, <- !app_assoc. auto.
Qed.

Lemma classify_lines_fst (s : cstate) (lines : list bytes) :
  map (map fst) (classify_lines s lines) = lines.
Proof.
  revert s; induction lines as [|l r IH]; intros s; simpl; [reflexivity|].
  now rewrite classify_bytes_fst, IH.
Qed.

Lemma classify_file_fst (data : bytes) :
  map (map fst) (classify_file data) = split newline data.
Proof. apply classify_lines_fst. Qed.

(** What the walk over a file leaves. *)
Lemma walk_eq (data : bytes) :
  let cls := classify_file data in
  new_lines (snd (walk data)) = map (flat_map rewrite_byte) cls
  /\ changes (snd (walk data)) = file_changes 1 cls
  /\ warnings (snd (walk data)) = file_warnings 1 cls.
Proof.
  cbn zeta. unfold walk, classify_file.
  destruct (fold_lines (split newline data) 1 (fst initial) (snd initial))
    as (_ & H2 & H3 & H4).
  cbn zeta in *. change (fst initial, snd initial) with initial in *.
  auto.
Qed.

(** A record per classified byte above 127, from either list. *)
Lemma change_at_In (line_no col b : Z) (c : bool) (ch : change) :
  In ch (change_at line_no (col, (b, c))) <->
  127 < b /\ c = true
  /\ ch = mk_change line_no (col + 1) (hex02 b) (chr b).
Proof.
  unfold change_at. destruct (Z.ltb_spec 127 b); destruct c; simpl;
    intuition (try lia; try discriminate; auto).
Qed.

Lemma warning_at_In (line_no : Z) (line : bytes) (col b : Z) (c : bool)
    (w : warning) :
  In w (warning_at line_no line (col, (b, c))) <->
  127 < b /\ c = false
  /\ w = mk_warning line_no (col + 1) (hex02 b) (chr b)
           (warning_context line) reason_in_code.
Proof.
  unfold warning_at. destruct (Z.ltb_spec 127 b); destruct c; simpl;
    intuition (try lia; try discriminate; auto).
Qed.

Lemma file_changes_In (first : Z) (cls : list (list (Z * bool)))
    (ch : change) :
  In ch (file_changes first cls) <->
  exists (n c : nat) (cl : list (Z * bool)) (b : Z),
    nth_error cls n = Some cl /\ nth_error cl c = Some (b, true) /\ 127 < b
    /\ ch = mk_change (first + Z.of_nat n) (Z.of_nat c + 1) (hex02 b) (chr b).
Proof.
  unfold file_changes, line_changes. rewrite in_flat_map. split.
  - intros ([ln cl] & Hin & Hch). simpl in Hch.
    apply enumerate_In in Hin. destruct Hin as (n & -> & Hn).
    apply in_flat_map in Hch. destruct Hch as ([col [b c]] & Hin & Hch).
    apply enumerate_In in Hin. destruct Hin as (k & -> & Hk).
    apply change_at_In in Hch. destruct Hch as (Hb & -> & ->).
    exists n, k, cl, b. rewrite Z.add_0_l. auto.
  - intros (n & c & cl & b & Hn & Hc & Hb & ->).
    exists (first + Z.of_nat n, cl). split; [now apply enumerate_nth|].
    simpl. apply in_flat_map. exists (0 + Z.of_nat c, (b, true)).
    split; [now apply enumerate_nth|]. apply change_at_In.
    rewrite Z.add_0_l. auto.
Qed.

Lemma file_warnings_In (first : Z) (cls : list (list (Z * bool)))
    (w : warning) :
  In w (file_warnings first cls) <->
  exists (n c : nat) (cl : list (Z * bool)) (b : Z),
    nth_error cls n = Some cl /\ nth_error cl c = Some (b, false) /\ 127 < b
    /\ w = mk_warning (first + Z.of_nat n) (Z.of_nat c + 1) (hex02 b) (chr b)
             (warning_context (map fst cl)) reason_in_code.
Proof.
  unfold file_warnings, line_warnings. rewrite in_flat_map. split.
  - intros ([ln cl] & Hin & Hw). simpl in Hw.
    apply enumerate_In in Hin. destruct Hin as (n & -> & Hn).
    apply in_flat_map in Hw. destruct Hw as ([col [b c]] & Hin & Hw).
    apply enumerate_In in Hin. destruct Hin as (k & -> & Hk).
    apply warning_at_In in Hw. destruct Hw as (Hb & -> & ->).
    exists n, k, cl, b. rewrite Z.add_0_l. auto.
  - intros (n & c & cl & b & Hn & Hc & Hb & ->).
    exists (first + Z.of_nat n, cl). split; [now apply enumerate_nth|].
    simpl. apply in_flat_map. exists (0 + Z.of_nat c, (b, false)).
    split; [now apply enumerate_nth|]. apply warning_at_In.
    rewrite Z.add_0_l. auto.
Qed.

(** The classified copy of a place of the split. *)
Lemma classify_file_nth (data : bytes) (n : nat) (l : bytes) (c : nat)
    (b : Z) :
  nth_error (split newline data) n = Some l -> nth_error l c = Some b ->
  exists cl v, nth_error (classify_file data) n = Some cl
               /\ map fst cl = l /\ nth_error cl c = Some (b, v).
Proof.
  intros Hn Hc. rewrite <- classify_file_fst in Hn.
  rewrite nth_error_map in Hn.
  destruct (nth_error (classify_file data) n) as [cl|] eqn:E; [|discriminate].
  injection Hn as <-. rewrite nth_error_map in Hc.
  destruct (nth_error cl c) as [[b' v]|] eqn:E'; [|discriminate].
  injection Hc as <-. eauto.
Qed.

(* ================================================================== *)
(** * The flags of the classifier *)
(* ================================================================== *)

Lemma flags_ok_entry (s : cstate) : flags_ok (line_entry s) = true.
Proof.
  unfold flags_ok, line_entry. simpl.
  now rewrite !andb_false_r.
Qed.

Ltac split_ifs :=
  repeat match goal with
         | |- context [if ?c then _ else _] => destruct c eqn:?
         end.

Lemma flags_ok_step (s : cstate) (b : Z) :
  flags_ok s = true -> flags_ok (classify_byte s b) = true.
Proof.
  destruct s as [blk lc str esc prev].
  unfold flags_ok, classify_byte, byte_body. simpl.
  destruct blk, lc, str, esc; simpl; try discriminate; intros _;
    rewrite ?andb_true_r, ?andb_false_r; split_ifs; reflexivity.
Qed.

Lemma run_bytes_app (s : cstate) (l1 l2 : bytes) :
  run_bytes s (l1 ++ l2) = run_bytes (run_bytes s l1) l2.
Proof. apply fold_left_app. Qed.

Lemma flags_ok_run (s : cstate) (bs : bytes) :
  flags_ok s = true -> flags_ok (run_bytes s bs) = true.
Proof.
  revert s; induction bs as [|b r IH]; intros s H; simpl; [exact H|].
  apply IH, flags_ok_step, H.
Qed.

Lemma run_lines_app (s : cstate) (l1 l2 : list bytes) :
  run_lines s (l1 ++ l2) = run_lines (run_lines s l1) l2.
Proof.
  revert s; induction l1 as [|l r IH]; intros s; simpl; [reflexivity|].
  apply IH.
Qed.

Lemma classify_lines_app (s : cstate) (l1 l2 : list bytes) :
  classify_lines s (l1 ++ l2)
  = classify_lines s l1 ++ classify_lines (run_lines s l1) l2.
Proof.
  revert s; induction l1 as [|l r IH]; intros s; simpl; [reflexivity|].
  now rewrite IH.
Qed.

(** The entry flags of a line depend on the flags before only through
    [in_block_comment]. *)
Lemma line_entry_block (s s' : cstate) :
  in_block_comment s = in_block_comment s' -> line_entry s = line_entry s'.
Proof. destruct s, s'. simpl. intros ->. reflexivity. Qed.

(** Inside a block comment nothing but [|#] changes the flags. *)
Lemma block_persists (bs : bytes) (s : cstate) :
  in_block_comment s = true -> escape_next s = false ->
  has_bar_hash (prev_byte s :: bs) = false ->
  in_block_comment (run_bytes s bs) = true
  /\ escape_next (run_bytes s bs) = false
  /\ forall b v, In (b, v) (classify_bytes s bs) -> v = true.
Proof.
  revert s; induction bs as [|b r IH]; intros s Hblk Hesc Hno.
  - simpl. repeat split; auto; intros b v [].
  - cbn [has_bar_hash] in Hno. apply orb_false_elim in Hno.
    destruct Hno as [Hhere Hrest].
    assert (Hstep : in_block_comment (classify_byte s b) = true
                    /\ escape_next (classify_byte s b) = false
                    /\ prev_byte (classify_byte s b) = b).
    { destruct s as [blk lc str esc prev]. simpl in *. subst blk esc.
      unfold classify_byte, byte_body. simpl.
      destruct (b <=? 127).
      - unfold ord_bar, ord_hash in *. rewrite Hhere. auto.
      - destruct (lc || true); auto. }
    destruct Hstep as (H1 & H2 & H3).
    destruct (IH (classify_byte s b) H1 H2) as (I1 & I2 & I3).
    { now rewrite H3. }
    cbn [run_bytes fold_left classify_bytes]. repeat split; auto.
    intros b' v [E|Hin].
    + injection E as <- <-. unfold in_comment. rewrite Hblk.
      apply orb_true_r.
    + eauto.
Qed.

Lemma has_bar_hash_entry (l : bytes) :
  has_bar_hash (0 :: l) = has_bar_hash l.
Proof. destruct l; reflexivity. Qed.

(** A block comment open at the end of a line stays open over every later
    line that does not hold [|#]. *)
Lemma block_persists_lines (more : list bytes) (s : cstate) :
  in_block_comment s = true ->
  forallb (fun l => negb (has_bar_hash l)) more = true ->
  in_block_comment (run_lines s more) = true
  /\ forall cl b v, In cl (classify_lines s more) -> In (b, v) cl -> v = true.
Proof.
  revert s; induction more as [|l r IH]; intros s Hblk Hno.
  - simpl. split; auto; intros cl b v [].
  - simpl in Hno. apply andb_true_iff in Hno. destruct Hno as [Hl Hr].
    apply negb_true_iff in Hl.
    destruct (block_persists l (line_entry s)) as (B1 & B2 & B3);
      [exact Hblk|reflexivity|now rewrite has_bar_hash_entry|].
    destruct (IH (run_bytes (line_entry s) l) B1 Hr) as (I1 & I2).
    simpl. split; [exact I1|].
    intros cl b v [<-|Hin] Hb; eauto.
Qed.

(* ================================================================== *)
(** * UTF-8 of the bytes 0x80..0xFF *)
(* ================================================================== *)

Lemma high_byte_cases (P : Z -> bool) :
  forallb P (map Z.of_nat (seq 128 128)) = true ->
  forall b, 128 <= b <= 255 -> P b = true.
Proof.
  intros H b Hb. rewrite forallb_forall in H. apply H.
  replace b with (Z.of_nat (Z.to_nat b)) by lia.
  apply in_map, in_seq. lia.
Qed.

Lemma encode_high (b : Z) :
  128 <= b <= 255 ->
  exists b0 b1,
    encode_utf8 (chr b) = [b0; b1]
    /\ (b0 <=? 0x7F) = false /\ in_range 0xC2 0xDF b0 = true
    /\ is_cont b1 = true
    /\ Z.lor (Z.shiftl (Z.land b0 0x1F) 6) (low6 b1) = b.
Proof.
  intros Hb.
  assert (H : encodes_in_two b = true)
    by (apply high_byte_cases; [vm_compute; reflexivity|exact Hb]).
  unfold encodes_in_two in H.
  destruct (encode_utf8 (chr b)) as [|b0 [|b1 [|b2 r]]]; try discriminate.
  exists b0, b1.
  apply andb_true_iff in H. destruct H as [H H4].
  apply andb_true_iff in H. destruct H as [H H3].
  apply andb_true_iff in H. destruct H as [H1 H2].
  apply negb_true_iff in H1. apply Z.eqb_eq in H4. auto.
Qed.

Lemma decode_ascii (b : Z) (r : bytes) :
  b <= 127 -> decode_utf8 (b :: r) = option_map (cons b) (decode_utf8 r).
Proof.
  intros H. apply Z.leb_le in H. cbn [decode_utf8].
  change 0x7F with 127. now rewrite H.
Qed.

Lemma decode_encoded (b : Z) (r : bytes) :
  128 <= b <= 255 ->
  decode_utf8 (encode_utf8 (chr b) ++ r) = option_map (cons b) (decode_utf8 r).
Proof.
  intros Hb. destruct (encode_high b Hb) as (b0 & b1 & -> & H1 & H2 & H3 & H4).
  cbn [app decode_utf8]. rewrite H1, H2, H3, H4. reflexivity.
Qed.

Lemma valid_cons_ascii (b : Z) (r : bytes) :
  b <= 127 -> is_valid_utf8 (b :: r) = is_valid_utf8 r.
Proof.
  intros H. unfold is_valid_utf8. rewrite decode_ascii by exact H.
  now destruct (decode_utf8 r).
Qed.

Lemma valid_encoded (b : Z) (r : bytes) :
  128 <= b <= 255 ->
  is_valid_utf8 (encode_utf8 (chr b) ++ r) = is_valid_utf8 r.
Proof.
  intros H. unfold is_valid_utf8. rewrite decode_encoded by exact H.
  now destruct (decode_utf8 r).
Qed.

(** A line whose bytes above 127 were all met in a comment is rewritten to
    well-formed UTF-8. *)
Lemma valid_rewritten (cl : list (Z * bool)) (r : bytes) :
  (forall b v, In (b, v) cl -> 0 <= b < 256 /\ (127 < b -> v = true)) ->
  is_valid_utf8 (flat_map rewrite_byte cl ++ r) = is_valid_utf8 r.
Proof.
  induction cl as [|[b v] cl IH]; intros H; [reflexivity|].
  cbn [flat_map]. rewrite <- app_assoc.
  destruct (H b v (or_introl eq_refl)) as [Hr Hv].
  assert (IH' := IH (fun b' v' Hin => H b' v' (or_intror Hin))).
  unfold rewrite_byte. destruct (Z.ltb_spec 127 b) as [Hb|Hb].
  - rewrite (Hv Hb). simpl andb. cbv iota.
    rewrite valid_encoded by lia. exact IH'.
  - simpl andb. cbv iota. cbn [app]. rewrite valid_cons_ascii by lia.
    exact IH'.
Qed.

Lemma valid_join (ls : list bytes) :
  (forall l, In l ls -> forall r, is_valid_utf8 (l ++ r) = is_valid_utf8 r) ->
  is_valid_utf8 (join newline ls) = true.
Proof.
  induction ls as [|l ls IH]; intros H; [reflexivity|].
  destruct ls as [|l' ls].
  - simpl. rewrite <- (app_nil_r l). now rewrite H by now left.
  - rewrite join_cons by discriminate. rewrite H by now left.
    rewrite valid_cons_ascii by (unfold newline; lia).
    apply IH. intros l0 Hl0. apply H. now right.
Qed.

Lemma lor_high_not_newline (hi x : Z) :
  Z.testbit hi 7 = true -> Z.lor hi x <> 10.
Proof.
  intros H E. apply (f_equal (fun z => Z.testbit z 7)) in E.
  rewrite Z.lor_spec, H in E. discriminate.
Qed.

Lemma rewrite_byte_no_newline (b : Z) (v : bool) :
  b <> 10 -> ~ In 10 (rewrite_byte (b, v)).
Proof.
  intros Hb. unfold rewrite_byte.
  destruct (Z.ltb_spec 127 b) as [H|H]; simpl andb.
  - destruct v; cbv iota; [|intros [E|[]]; congruence].
    unfold encode_utf8, chr. cbn [flat_map]. rewrite app_nil_r.
    unfold encode_utf8_cp. destruct (Z.ltb_spec b 0x80); [lia|].
    destruct (b <? 0x800); [|destruct (b <? 0x10000)]; cbn [In];
      intros E; repeat destruct E as [E|E]; try contradiction;
      revert E; apply lor_high_not_newline; reflexivity.
  - cbv iota. intros [E|[]]. congruence.
Qed.

(* ================================================================== *)
(** * The records of a processed file *)
(* ================================================================== *)

Lemma process_file_processed (data : bytes) (dry_run : bool) :
  res_skipped (fst (process_file data dry_run)) = None ->
  existsb (fun b => 127 <? b) data = true
  /\ is_valid_utf8 data = false
  /\ res_changes (fst (process_file data dry_run)) = changes (snd (walk data))
  /\ res_warnings (fst (process_file data dry_run))
     = warnings (snd (walk data)).
Proof.
  unfold process_file.
  destruct (existsb (fun b => 127 <? b) data); simpl; [|discriminate].
  destruct (is_valid_utf8 data); simpl; [discriminate|]. auto.
Qed.

(** Every byte above 127 of the split gets a change or a warning, at its
    line counted from 1 and its column plus one. *)
Lemma walk_record (data : bytes) (n c : nat) (l : bytes) (b : Z) :
  nth_error (split newline data) n = Some l -> nth_error l c = Some b ->
  127 < b ->
  In (mk_change (1 + Z.of_nat n) (Z.of_nat c + 1) (hex02 b) (chr b))
     (changes (snd (walk data)))
  \/ In (mk_warning (1 + Z.of_nat n) (Z.of_nat c + 1) (hex02 b) (chr b)
           (warning_context l) reason_in_code)
        (warnings (snd (walk data))).
Proof.
  intros Hn Hc Hb.
  destruct (classify_file_nth data n l c b Hn Hc) as (cl & v & H1 & H2 & H3).
  destruct (walk_eq data) as (_ & Hch & Hw). cbn zeta in *.
  rewrite Hch, Hw. destruct v.
  - left. apply file_changes_In. exists n, c, cl, b. auto.
  - right. apply file_warnings_In. exists n, c, cl, b. rewrite H2. auto.
Qed.

(** Conversely every record stands for a byte above 127 of the split. *)
Lemma walk_change_place (data : bytes) (ch : change) :
  In ch (changes (snd (walk data))) ->
  exists (n c : nat) (l : bytes) (b : Z),
    nth_error (split newline data) n = Some l /\ nth_error l c = Some b
    /\ 127 < b
    /\ ch = mk_change (1 + Z.of_nat n) (Z.of_nat c + 1) (hex02 b) (chr b).
Proof.
  destruct (walk_eq data) as (_ & Hch & _). cbn zeta in *. rewrite Hch.
  intros H. apply file_changes_In in H.
  destruct H as (n & c & cl & b & Hn & Hc & Hb & ->).
  exists n, c, (map fst cl), b. rewrite <- classify_file_fst.
  rewrite !nth_error_map, Hn, Hc. auto.
Qed.

Lemma walk_warning_place (data : bytes) (w : warning) :
  In w (warnings (snd (walk data))) ->
  exists (n c : nat) (l : bytes) (b : Z),
    nth_error (split newline data) n = Some l /\ nth_error l c = Some b
    /\ 127 < b
    /\ w = mk_warning (1 + Z.of_nat n) (Z.of_nat c + 1) (hex02 b) (chr b)
             (warning_context l) reason_in_code.
Proof.
  destruct (walk_eq data) as (_ & _ & Hw). cbn zeta in *. rewrite Hw.
  intros H. apply file_warnings_In in H.
  destruct H as (n & c & cl & b & Hn & Hc & Hb & ->).
  exists n, c, (map fst cl), b. rewrite <- classify_file_fst.
  rewrite !nth_error_map, Hn, Hc. auto.
Qed.

(** The Scanner's hit for a place of the split. *)
Lemma scan_place (data : bytes) (n c : nat) (l : bytes) (b : Z) :
  nth_error (split newline data) n = Some l -> nth_error l c = Some b ->
  127 < b ->
  exists h, In h (scan_file data)
            /\ hit_line h = Z.of_nat n + 1 /\ hit_col h = Z.of_nat c
            /\ hit_byte h = b.
Proof.
  intros Hn Hc Hb.
  destruct (position_index data n l c b Hn Hc) as (k & Hk & Hcount & Hcol).
  exists (hit_of data k b). split.
  - apply scan_file_In. eauto.
  - unfold hit_of. simpl. rewrite Hcount, Hcol. auto.
Qed.

Lemma non_ascii_place (data : bytes) :
  existsb (fun b => 127 <? b) data = true ->
  exists (n c : nat) (l : bytes) (b : Z),
    nth_error (split newline data) n = Some l /\ nth_error l c = Some b
    /\ 127 < b.
Proof.
  intros H. apply existsb_exists in H. destruct H as (b & Hin & Hb).
  apply Z.ltb_lt in Hb.
  destruct (In_split newline data b Hin) as (l & Hl & Hbl);
    [unfold newline; lia|].
  apply In_nth_error in Hl. destruct Hl as (n & Hn).
  apply In_nth_error in Hbl. destruct Hbl as (c & Hc).
  exists n, c, l, b. auto.
Qed.

(* ================================================================== *)
(** * The scripts on small files *)
(* ================================================================== *)

(** The line [; caf] and 0xE9: one change at column 6, the byte rewritten as
    0xC3 0xA9. *)
Example comment_line_converted :
  process_file [59; 32; 99; 97; 102; 233] false
  = (mk_result [mk_change 1 6 "0xe9" [233]] [] true None,
     [59; 32; 99; 97; 102; 195; 169]).
Proof. reflexivity. Qed.

(** The line [(setq x "caf] 0xE9 [")]: the byte is in a string, it is left
    alone and one warning is given. *)
Example string_byte_kept :
  let line := [40; 115; 101; 116; 113; 32; 120; 32; 34; 99; 97; 102; 233;
               34; 41] in
  process_file line false
  = (mk_result [] [mk_warning 1 13 "0xe9" [233] line reason_in_code] false
       None, line).
Proof. reflexivity. Qed.

(** A block comment opened on the first line and closed on the third, and a
    semicolon inside a string: only the bytes of the comment are
    rewritten. *)
Example block_comment_over_lines :
  converted [35; 124; 32; 233; 10; 233; 10; 124; 35; 32; 34; 59; 233; 34]
  = [35; 124; 32; 195; 169; 10; 195; 169; 10; 124; 35; 32; 34; 59; 233; 34].
Proof. reflexivity. Qed.

(** The Scanner and the Verifier on [mixed_file]. *)
Example scanner_on_mixed_file :
  map (fun h => (hit_line h, hit_col h, hit_byte h)) (scan_file mixed_file)
  = [(1, 1, 233); (2, 2, 233)].
Proof. reflexivity. Qed.

Example verifier_on_mixed_file :
  map (fun p => (Verify.prob_line p, Verify.prob_col p))
      (Verify.verify_file mixed_file)
  = [(1, 1); (2, 2)]
  /\ Verify.main [("a.lisp"%string, mixed_file)] = 1.
Proof. split; reflexivity. Qed.

(* ================================================================== *)
(** * Properties of the three tools *)
(* ================================================================== *)

(** ** Round trip of a converted byte *)

(** C5.  Round trip of a converted byte: when the loop body meets a byte
    [b] of 128..255 inside a line or block comment, the bytes it appends to
    the output line are the UTF-8 encoding of [chr(b)], and decoding them as
    UTF-8 and encoding the text back in ISO-8859-1 gives the single byte
    [b]. *)
Theorem comment_byte_round_trip (line_no : Z) (line : bytes) (s : cstate)
    (o : output) (col b : Z) :
  128 <= b <= 255 -> in_comment s = true ->
  exists written,
    new_line (snd (byte_body line_no line (s, o) (col, b)))
    = new_line o ++ written
    /\ written = encode_utf8 (chr b)
    /\ match decode_utf8 written with
       | Some text => encode_latin1 text
       | None => None
       end = Some [b].
Proof.
  intros Hb Hs. exists (encode_utf8 (chr b)).
  rewrite byte_body_eq. cbn [snd new_line]. rewrite Hs.
  unfold rewrite_byte.
  replace (127 <? b) with true by (symmetry; apply Z.ltb_lt; lia).
  repeat split.
  rewrite <- (app_nil_r (encode_utf8 (chr b))).
  rewrite decode_encoded by exact Hb. simpl.
  unfold in_range.
  replace (0 <=? b) with true by (symmetry; apply Z.leb_le; lia).
  replace (b <=? 255) with true by (symmetry; apply Z.leb_le; lia).
  reflexivity.
Qed.

Lemma comment_byte_round_trip_witness :
  exists written,
    new_line
      (snd (byte_body 1 [59; 32; 233]
              (mk_cstate false true false false 32, mk_output [] [59; 32] [] [])
              (2, 233)))
    = [59; 32] ++ written
    /\ written = encode_utf8 (chr 233)
    /\ match decode_utf8 written with
       | Some text => encode_latin1 text
       | None => None
       end = Some [233].
Proof.
  apply (comment_byte_round_trip 1 [59; 32; 233]
           (mk_cstate false true false false 32)
           (mk_output [] [59; 32] [] []) 2 233).
  - lia.
  - reflexivity.
Defined.

(** ** Skipped files *)

(** C6.  [process_file] skips a file exactly when it holds no byte above 127
    or its whole content decodes as UTF-8; a skipped file comes back with no
    change, no warning, not modified and its content untouched, while a file
    that is not skipped always has a change or a warning; the file
    [curly_quoted] (valid UTF-8 with curly quotes) is skipped as already
    valid UTF-8. *)
Theorem process_file_skips (data : bytes) (dry_run : bool) :
  let r := fst (process_file data dry_run) in
  (res_skipped r <> None <->
     existsb (fun b => 127 <? b) data = false \/ is_valid_utf8 data = true)
  /\ (res_skipped r <> None ->
        res_changes r = [] /\ res_warnings r = [] /\ res_modified r = false
        /\ snd (process_file data dry_run) = data)
  /\ (res_skipped r = None -> res_changes r <> [] \/ res_warnings r <> [])
  /\ existsb (fun b => 127 <? b) curly_quoted = true
  /\ process_file curly_quoted dry_run
     = (mk_result [] [] false (Some skipped_utf8), curly_quoted).
Proof.
  cbn zeta. split; [|split; [|split; [|split]]].
  - unfold process_file.
    destruct (existsb (fun b => 127 <? b) data); simpl.
    + destruct (is_valid_utf8 data); simpl.
      * split; [auto|discriminate].
      * split; [congruence|]. intros [H|H]; discriminate.
    + split; [auto|discriminate].
  - unfold process_file.
    destruct (existsb (fun b => 127 <? b) data); simpl; [|auto].
    destruct (is_valid_utf8 data); simpl; [auto|congruence].
  - intros H. destruct (process_file_processed data dry_run H)
      as (Hex & _ & -> & ->).
    destruct (non_ascii_place data Hex) as (n & c & l & b & Hn & Hc & Hb).
    destruct (walk_record data n c l b Hn Hc Hb) as [Hin|Hin].
    + left. intros E. rewrite E in Hin. contradiction.
    + right. intros E. rewrite E in Hin. contradiction.
  - reflexivity.
  - destruct dry_run; reflexivity.
Qed.

Lemma process_file_skips_witness :
  res_changes (fst (process_file curly_quoted false)) = []
  /\ res_warnings (fst (process_file curly_quoted false)) = []
  /\ res_modified (fst (process_file curly_quoted false)) = false
  /\ snd (process_file curly_quoted false) = curly_quoted.
Proof.
  apply (process_file_skips curly_quoted false). discriminate.
Defined.

(** ** Columns in the Scanner and in the Converter *)

(** C10.  Column conventions: for a byte above 127 at index [c] (from 0) of
    line [n] (from 0) of the file, the Scanner has a hit with line [n + 1]
    and column [c], and the Converter, when it processes the file, has a
    change or a warning with line [n + 1] and column [c + 1]; conversely
    every change and every warning of the Converter comes with a Scanner hit
    of the same line whose column is one less. *)
Theorem column_conventions (data : bytes) (dry_run : bool) :
  let r := fst (process_file data dry_run) in
  (forall (n c : nat) (l : bytes) (b : Z),
     nth_error (split newline data) n = Some l -> nth_error l c = Some b ->
     127 < b ->
     (exists h, In h (scan_file data)
                /\ hit_line h = Z.of_nat n + 1 /\ hit_col h = Z.of_nat c
                /\ hit_byte h = b)
     /\ (res_skipped r = None ->
         (exists ch, In ch (res_changes r)
                     /\ chg_line ch = Z.of_nat n + 1
                     /\ chg_col ch = Z.of_nat c + 1
                     /\ chg_byte ch = hex02 b /\ chg_char ch = chr b)
         \/ (exists w, In w (res_warnings r)
                       /\ warn_line w = Z.of_nat n + 1
                       /\ warn_col w = Z.of_nat c + 1
                       /\ warn_byte w = hex02 b /\ warn_char w = chr b)))
  /\ (forall ch, In ch (res_changes r) ->
        exists h, In h (scan_file data)
                  /\ hit_line h = chg_line ch /\ hit_col h + 1 = chg_col ch
                  /\ hit_hex h = chg_byte ch)
  /\ (forall w, In w (res_warnings r) ->
        exists h, In h (scan_file data)
                  /\ hit_line h = warn_line w /\ hit_col h + 1 = warn_col w
                  /\ hit_hex h = warn_byte w).
Proof.
  cbn zeta. split; [|split].
  - intros n c l b Hn Hc Hb. split; [now apply (scan_place data n c l b)|].
    intros Hs. destruct (process_file_processed data dry_run Hs)
      as (_ & _ & -> & ->).
    destruct (walk_record data n c l b Hn Hc Hb) as [Hin|Hin].
    + left. eexists. split; [exact Hin|].
      cbn [chg_line chg_col chg_byte chg_char].
      repeat split; try reflexivity; lia.
    + right. eexists. split; [exact Hin|].
      cbn [warn_line warn_col warn_byte warn_char].
      repeat split; try reflexivity; lia.
  - intros ch Hin.
    assert (Hw : In ch (changes (snd (walk data)))).
    { revert Hin. unfold process_file.
      destruct (existsb (fun b => 127 <? b) data); simpl; [|tauto].
      destruct (is_valid_utf8 data); simpl; tauto. }
    destruct (walk_change_place data ch Hw)
      as (n & c & l & b & Hn & Hc & Hb & ->).
    destruct (scan_place data n c l b Hn Hc Hb) as (h & Hh & H1 & H2 & H3).
    exists h. cbn [chg_line chg_col chg_byte]. rewrite H1, H2.
    repeat split; auto; try lia.
    apply scan_file_In in Hh. destruct Hh as (k & b' & _ & _ & ->).
    cbn [hit_of hit_hex hit_byte] in *. now subst.
  - intros w Hin.
    assert (Hw : In w (warnings (snd (walk data)))).
    { revert Hin. unfold process_file.
      destruct (existsb (fun b => 127 <? b) data); simpl; [|tauto].
      destruct (is_valid_utf8 data); simpl; tauto. }
    destruct (walk_warning_place data w Hw)
      as (n & c & l & b & Hn & Hc & Hb & ->).
    destruct (scan_place data n c l b Hn Hc Hb) as (h & Hh & H1 & H2 & H3).
    exists h. cbn [warn_line warn_col warn_byte]. rewrite H1, H2.
    repeat split; auto; try lia.
    apply scan_file_In in Hh. destruct Hh as (k & b' & _ & _ & ->).
    cbn [hit_of hit_hex hit_byte] in *. now subst.
Qed.

Lemma column_conventions_witness :
  (exists h, In h (scan_file mixed_file)
             /\ hit_line h = Z.of_nat 1 + 1 /\ hit_col h = Z.of_nat 2
             /\ hit_byte h = 233)
  /\ ((exists ch, In ch (res_changes (fst (process_file mixed_file false)))
                  /\ chg_line ch = Z.of_nat 1 + 1
                  /\ chg_col ch = Z.of_nat 2 + 1
                  /\ chg_byte ch = hex02 233 /\ chg_char ch = chr 233)
      \/ (exists w, In w (res_warnings (fst (process_file mixed_file false)))
                    /\ warn_line w = Z.of_nat 1 + 1
                    /\ warn_col w = Z.of_nat 2 + 1
                    /\ warn_byte w = hex02 233 /\ warn_char w = chr 233)).
Proof.
  destruct (column_conventions mixed_file false) as [H _].
  destruct (H 1%nat 2%nat [59; 32; 233] 233 eq_refl eq_refl ltac:(lia))
    as [H1 H2].
  split; [exact H1|]. apply H2. reflexivity.
Defined.

(** ** What a real run writes *)

Lemma split_single (sep : Z) (l : bytes) :
  ~ In sep l -> split sep l = [l].
Proof.
  induction l as [|b r IH]; intros H; [reflexivity|].
  rewrite split_cons_other by (intros ->; apply H; now left).
  rewrite IH by (intros E; apply H; now right). reflexivity.
Qed.

Lemma split_app_sep (sep : Z) (l r : bytes) :
  ~ In sep l -> split sep (l ++ sep :: r) = l :: split sep r.
Proof.
  induction l as [|b l IH]; intros H.
  - apply split_cons_sep.
  - rewrite <- app_comm_cons.
    rewrite split_cons_other by (intros ->; apply H; now left).
    rewrite IH by (intros E; apply H; now right). reflexivity.
Qed.

Lemma split_join (sep : Z) (ls : list bytes) :
  ls <> [] -> (forall l, In l ls -> ~ In sep l) ->
  split sep (join sep ls) = ls.
Proof.
  induction ls as [|l ls IH]; intros Hne H; [contradiction|].
  destruct ls as [|l' ls].
  - simpl. apply split_single, H. now left.
  - rewrite join_cons by discriminate.
    rewrite split_app_sep by (apply H; now left).
    rewrite IH; [reflexivity|discriminate|].
    intros l0 Hl0. apply H. now right.
Qed.

Lemma rewritten_no_newline (cl : list (Z * bool)) :
  ~ In 10 (map fst cl) -> ~ In 10 (flat_map rewrite_byte cl).
Proof.
  induction cl as [|[b v] cl IH]; intros H; [auto|].
  cbn [flat_map]. rewrite in_app_iff. intros [E|E].
  - revert E. apply rewrite_byte_no_newline. intros ->. apply H. now left.
  - revert E. apply IH. intros E. apply H. now right.
Qed.

Lemma rewrite_identity (cl : list (Z * bool)) :
  (forall b, In (b, true) cl -> b <= 127) ->
  flat_map rewrite_byte cl = map fst cl.
Proof.
  induction cl as [|[b v] cl IH]; intros H; [reflexivity|].
  cbn [flat_map map fst]. rewrite IH by (intros b' Hb'; apply H; now right).
  unfold rewrite_byte. destruct v.
  - assert (Hb : b <= 127) by (apply H; now left).
    replace (127 <? b) with false by (symmetry; apply Z.ltb_ge; lia).
    reflexivity.
  - now rewrite andb_false_r.
Qed.

Lemma no_changes_identity (data : bytes) :
  changes (snd (walk data)) = [] ->
  map (flat_map rewrite_byte) (classify_file data) = split newline data.
Proof.
  intros H. rewrite <- classify_file_fst. apply map_ext_in.
  intros cl Hcl. apply rewrite_identity. intros b Hb.
  destruct (Z.le_gt_cases b 127) as [Hle|Hgt]; [exact Hle|exfalso].
  apply In_nth_error in Hcl. destruct Hcl as (n & Hn).
  apply In_nth_error in Hb. destruct Hb as (c & Hc).
  destruct (walk_eq data) as (_ & Hch & _). cbn zeta in Hch.
  assert (Hin : In (mk_change (1 + Z.of_nat n) (Z.of_nat c + 1) (hex02 b)
                      (chr b)) (changes (snd (walk data)))).
  { rewrite Hch. apply file_changes_In. exists n, c, cl, b.
    repeat split; auto; lia. }
  rewrite H in Hin. contradiction.
Qed.

Lemma len_nil_iff {A : Type} (l : list A) : (0 <? len l) = false <-> l = [].
Proof.
  unfold len. destruct l; simpl; split; intros; try reflexivity;
    try discriminate.
Qed.

(** The lines a real run leaves in a processed file. *)
Lemma converted_lines (data : bytes) :
  res_skipped (fst (process_file data false)) = None ->
  split newline (converted data)
  = map (flat_map rewrite_byte) (classify_file data).
Proof.
  intros Hs. destruct (process_file_processed data false Hs) as (Hex & Hv & _).
  unfold converted, process_file. rewrite Hex, Hv. cbn [negb snd].
  destruct (0 <? len (changes (snd (walk data)))) eqn:Hm; cbn [andb negb].
  - destruct (walk_eq data) as (Hnl & _ & _). cbn zeta in Hnl. rewrite Hnl.
    apply split_join.
    + intros E. apply map_eq_nil in E.
      pose proof (classify_file_fst data) as F. rewrite E in F.
      symmetry in F. revert F. apply split_nonempty.
    + intros l Hl. apply in_map_iff in Hl. destruct Hl as (cl & <- & Hcl).
      apply rewritten_no_newline.
      apply (split_no_sep newline data). rewrite <- classify_file_fst.
      now apply in_map.
  - apply len_nil_iff in Hm. symmetry. now apply no_changes_identity.
Qed.

(** C2.  Conversion of a processed file: with each byte of each line
    classified by the flags it is met under, the content a real run leaves
    is, line by line, the input with every byte above 127 met in a line or
    block comment replaced by the UTF-8 encoding of [chr] of it and every
    other byte (all ASCII bytes, and the bytes above 127 met in code) kept
    as it is, in order; the number of newline bytes does not change. *)
Theorem conversion_preserves_code (data : bytes) :
  res_skipped (fst (process_file data false)) = None ->
  let cls := classify_file data in
  map (map fst) cls = split newline data
  /\ split newline (converted data) = map (flat_map rewrite_byte) cls
  /\ (forall b, 127 < b -> rewrite_byte (b, true) = encode_utf8 (chr b))
  /\ (forall b, rewrite_byte (b, false) = [b])
  /\ (forall b v, b <= 127 -> rewrite_byte (b, v) = [b])
  /\ count newline (converted data) = count newline data.
Proof.
  intros Hs. cbn zeta.
  pose proof (converted_lines data Hs) as Hl.
  split; [apply classify_file_fst|]. split; [exact Hl|].
  split; [|split; [|split]].
  - intros b Hb. unfold rewrite_byte. apply Z.ltb_lt in Hb. now rewrite Hb.
  - intros b. unfold rewrite_byte. now rewrite andb_false_r.
  - intros b v Hb. unfold rewrite_byte.
    replace (127 <? b) with false by (symmetry; apply Z.ltb_ge; lia).
    reflexivity.
  - pose proof (split_length newline (converted data)) as H1.
    pose proof (split_length newline data) as H2.
    rewrite Hl in H1. rewrite <- classify_file_fst in H2.
    unfold len in *. rewrite !length_map in *. lia.
Qed.

Lemma conversion_preserves_code_witness :
  let cls := classify_file cafe_comment in
  map (map fst) cls = split newline cafe_comment
  /\ split newline (converted cafe_comment) = map (flat_map rewrite_byte) cls
  /\ (forall b, 127 < b -> rewrite_byte (b, true) = encode_utf8 (chr b))
  /\ (forall b, rewrite_byte (b, false) = [b])
  /\ (forall b v, b <= 127 -> rewrite_byte (b, v) = [b])
  /\ count newline (converted cafe_comment) = count newline cafe_comment.
Proof.
  apply (conversion_preserves_code cafe_comment). reflexivity.
Defined.

(** ** A second run over a converted file *)

Lemma valid_no_changes (d : bytes) (dry_run : bool) :
  is_valid_utf8 d = true -> res_changes (fst (process_file d dry_run)) = [].
Proof.
  intros H. unfold process_file. rewrite H.
  now destruct (existsb (fun b => 127 <? b) d).
Qed.

Lemma no_changes_unchanged (data : bytes) :
  res_changes (fst (process_file data false)) = [] -> converted data = data.
Proof.
  unfold converted, process_file.
  destruct (existsb (fun b => 127 <? b) data); simpl; [|reflexivity].
  destruct (is_valid_utf8 data); simpl; [reflexivity|].
  intros ->. reflexivity.
Qed.

(** With no warning, every byte above 127 was met in a comment. *)
Lemma no_warnings_all_comment (data : bytes) (cl : list (Z * bool)) (b : Z)
    (v : bool) :
  warnings (snd (walk data)) = [] ->
  In cl (classify_file data) -> In (b, v) cl -> 127 < b -> v = true.
Proof.
  intros Hw Hcl Hb Hgt. destruct v; [reflexivity|exfalso].
  apply In_nth_error in Hcl. destruct Hcl as (n & Hn).
  apply In_nth_error in Hb. destruct Hb as (c & Hc).
  destruct (walk_eq data) as (_ & _ & H). cbn zeta in H.
  assert (Hin : In (mk_warning (1 + Z.of_nat n) (Z.of_nat c + 1) (hex02 b)
                      (chr b) (warning_context (map fst cl)) reason_in_code)
                   (warnings (snd (walk data)))).
  { rewrite H. apply file_warnings_In. exists n, c, cl, b.
    repeat split; auto. }
  rewrite Hw in Hin. contradiction.
Qed.

Lemma classified_in_data (data : bytes) (cl : list (Z * bool)) (b : Z)
    (v : bool) :
  In cl (classify_file data) -> In (b, v) cl -> In b data.
Proof.
  intros Hcl Hb. apply (split_In newline data (map fst cl)).
  - rewrite <- classify_file_fst. now apply in_map.
  - change b with (fst (b, v)). now apply in_map.
Qed.

Lemma prev_byte_step_gt (s : cstate) (b : Z) :
  127 < b -> 127 < prev_byte (classify_byte s b).
Proof.
  intros H. rewrite classify_byte_non_ascii by exact H. now destruct s.
Qed.

(** A second walk over a converted file meets the same flags. *)

Lemma sim_refl (s : cstate) : sim s s.
Proof. unfold sim. auto 6. Qed.

Lemma sim_in_comment (s s' : cstate) :
  sim s s' -> in_comment s = in_comment s'.
Proof. intros (H1 & H2 & _). unfold in_comment. now rewrite H1, H2. Qed.

Lemma sim_entry (s s' : cstate) :
  sim s s' -> sim (line_entry s) (line_entry s').
Proof.
  destruct s, s'. unfold sim. simpl. intros (-> & _). auto 6.
Qed.

Lemma sim_step (s s' : cstate) (b : Z) :
  sim s s' -> sim (classify_byte s b) (classify_byte s' b).
Proof.
  destruct s as [blk lc str esc prev], s' as [blk' lc' str' esc' prev'].
  unfold sim. simpl. intros (<- & <- & <- & <- & [<-|[Hp Hp']]).
  - auto 6.
  - assert (E1 : (prev =? ord_bar) = false)
      by (apply Z.eqb_neq; unfold ord_bar; lia).
    assert (E2 : (prev =? ord_hash) = false)
      by (apply Z.eqb_neq; unfold ord_hash; lia).
    assert (E3 : (prev' =? ord_bar) = false)
      by (apply Z.eqb_neq; unfold ord_bar; lia).
    assert (E4 : (prev' =? ord_hash) = false)
      by (apply Z.eqb_neq; unfold ord_hash; lia).
    unfold classify_byte, byte_body. simpl. rewrite E1, E2, E3, E4.
    split_ifs; simpl; auto 6.
Qed.

Lemma sim_extra (s s' : cstate) (b' : Z) :
  sim s s' -> 127 < prev_byte s -> 127 < b' ->
  sim s (classify_byte s' b').
Proof.
  intros (H1 & H2 & H3 & H4 & _) Hp Hb.
  rewrite classify_byte_non_ascii by exact Hb.
  destruct s, s'. unfold sim. simpl in *.
  repeat (split; [assumption|]). right. split; assumption.
Qed.

Lemma classify_bytes_app (s : cstate) (l1 l2 : bytes) :
  classify_bytes s (l1 ++ l2)
  = classify_bytes s l1 ++ classify_bytes (run_bytes s l1) l2.
Proof.
  revert s; induction l1 as [|b r IH]; intros s; simpl; [reflexivity|].
  now rewrite IH.
Qed.

(** One byte of the first walk against its rewriting in the second. *)
Lemma sim_rewrite (s s' : cstate) (b : Z) :
  sim s s' -> 0 <= b < 256 ->
  sim (classify_byte s b) (run_bytes s' (rewrite_byte (b, in_comment s)))
  /\ (127 < b -> in_comment s = true ->
      exists b', In (b', true)
                    (classify_bytes s' (rewrite_byte (b, in_comment s)))
                 /\ 127 < b').
Proof.
  intros Hsim Hb. unfold rewrite_byte.
  destruct (Z.ltb_spec 127 b) as [Hgt|Hle]; cbn [andb].
  - destruct (in_comment s) eqn:Hc.
    + destruct (encode_high b ltac:(lia))
        as (b0 & b1 & -> & H0 & H1 & H2 & _).
      unfold in_range, is_cont, in_range in *.
      apply andb_true_iff in H1, H2.
      destruct H1 as [H1 _], H2 as [H2 _]. apply Z.leb_le in H1, H2.
      split.
      * cbn [run_bytes fold_left]. apply sim_extra; [|  |lia].
        -- rewrite (classify_byte_non_ascii s b) by exact Hgt.
           rewrite (classify_byte_non_ascii s' b0) by lia.
           destruct Hsim as (S1 & S2 & S3 & S4 & _).
           destruct s, s'. unfold sim. simpl in *. repeat split; auto.
           right. lia.
        -- apply prev_byte_step_gt. exact Hgt.
      * intros _ _. exists b0. split; [|lia].
        cbn [classify_bytes]. left.
        now rewrite <- (sim_in_comment s s' Hsim), Hc.
    + split; [cbn [run_bytes fold_left]; now apply sim_step|].
      intros _ E. discriminate.
  - split; [cbn [run_bytes fold_left]; now apply sim_step|].
    intros E. lia.
Qed.

Lemma sim_line (l : bytes) (s s' : cstate) :
  sim s s' -> (forall b, In b l -> 0 <= b < 256) ->
  let l' := flat_map rewrite_byte (classify_bytes s l) in
  sim (run_bytes s l) (run_bytes s' l')
  /\ ((exists b, In (b, true) (classify_bytes s l) /\ 127 < b) ->
      exists b', In (b', true) (classify_bytes s' l') /\ 127 < b').
Proof.
  cbn zeta. revert s s'; induction l as [|b r IH]; intros s s' Hsim Hok.
  - simpl. split; [exact Hsim|]. intros (b & [] & _).
  - destruct (sim_rewrite s s' b Hsim (Hok b (or_introl eq_refl)))
      as (Hs1 & Hc1).
    destruct (IH _ _ Hs1 (fun x Hx => Hok x (or_intror Hx))) as (Hs2 & Hc2).
    cbn [classify_bytes flat_map].
    rewrite run_bytes_app, classify_bytes_app. split; [exact Hs2|].
    intros (x & [E|Hin] & Hx).
    + injection E as <- Hc. destruct (Hc1 Hx Hc) as (b' & Hb' & Hgt).
      exists b'. split; [|exact Hgt]. apply in_or_app. now left.
    + destruct Hc2 as (b' & Hb' & Hgt); [eauto|].
      exists b'. split; [|exact Hgt]. apply in_or_app. now right.
Qed.

Lemma sim_lines (lines : list bytes) (s s' : cstate) :
  sim s s' -> (forall l b, In l lines -> In b l -> 0 <= b < 256) ->
  (exists cl b, In cl (classify_lines s lines) /\ In (b, true) cl /\ 127 < b) ->
  exists cl' b',
    In cl' (classify_lines s'
              (map (flat_map rewrite_byte) (classify_lines s lines)))
    /\ In (b', true) cl' /\ 127 < b'.
Proof.
  revert s s'; induction lines as [|l r IH]; intros s s' Hsim Hok.
  - intros (cl & b & [] & _).
  - destruct (sim_line l (line_entry s) (line_entry s') (sim_entry _ _ Hsim)
                (fun b Hb => Hok l b (or_introl eq_refl) Hb)) as (Hs & Hc).
    cbn [classify_lines map]. intros (cl & b & [<-|Hin] & Hb & Hgt).
    + destruct Hc as (b' & Hb' & Hgt'); [eauto|].
      eexists. exists b'. split; [left; reflexivity|]. auto.
    + destruct (IH _ _ Hs (fun l0 b0 Hl0 => Hok l0 b0 (or_intror Hl0)))
        as (cl' & b' & Hcl' & Hb' & Hgt'); [eauto|].
      exists cl', b'. split; [right; exact Hcl'|]. auto.
Qed.

(** A first run that made a change and left invalid UTF-8 is followed by a
    second run that makes a change. *)
Lemma second_run_changes_again (data : bytes) :
  bytes_ok data ->
  res_changes (fst (process_file data false)) <> [] ->
  is_valid_utf8 (converted data) = false ->
  res_changes (fst (process_file (converted data) false)) <> [].
Proof.
  intros Hok Hch Hinv.
  destruct (res_skipped (fst (process_file data false))) eqn:Hs.
  { exfalso. apply Hch. revert Hs. unfold process_file.
    destruct (existsb (fun b => 127 <? b) data); simpl; [|reflexivity].
    destruct (is_valid_utf8 data); simpl; [reflexivity|discriminate]. }
  destruct (process_file_processed data false Hs) as (_ & _ & Hc & _).
  rewrite Hc in Hch.
  destruct (walk_eq data) as (_ & Hfc & _). cbn zeta in Hfc.
  destruct (changes (snd (walk data))) as [|ch chs] eqn:E; [congruence|].
  assert (Hin : In ch (file_changes 1 (classify_file data)))
    by (rewrite <- Hfc; now left).
  apply file_changes_In in Hin.
  destruct Hin as (n & c & cl & b & Hn & Hcb & Hgt & _).
  apply nth_error_In in Hn, Hcb.
  destruct (sim_lines (split newline data) (fst initial) (fst initial)
              (sim_refl _)) as (cl' & b' & Hcl' & Hb' & Hgt').
  { intros l x Hl Hx. unfold bytes_ok in Hok. rewrite Forall_forall in Hok.
    apply Hok. eapply split_In; eauto. }
  { exists cl, b. auto. }
  fold (classify_file data) in Hcl'.
  rewrite <- (converted_lines data Hs) in Hcl'.
  fold (classify_file (converted data)) in Hcl'.
  assert (Hex : existsb (fun x => 127 <? x) (converted data) = true).
  { apply existsb_exists. exists b'. split; [|now apply Z.ltb_lt].
    eapply classified_in_data; eauto. }
  unfold process_file at 1. rewrite Hex, Hinv. cbn [negb fst res_changes].
  destruct (walk_eq (converted data)) as (_ & Hfc' & _). cbn zeta in Hfc'.
  rewrite Hfc'. apply In_nth_error in Hcl', Hb'.
  destruct Hcl' as (n' & Hn'), Hb' as (c' & Hc').
  intros E'.
  assert (Hin : In (mk_change (1 + Z.of_nat n') (Z.of_nat c' + 1) (hex02 b')
                      (chr b'))
                   (file_changes 1 (classify_file (converted data)))).
  { apply file_changes_In. exists n', c', cl', b'. auto. }
  rewrite E' in Hin. contradiction.
Qed.

(** C1, counterexample.  On [mixed_file] the first run converts the comment
    byte and leaves the byte in the string; the content is then still not
    valid UTF-8, and the second run converts the two bytes of the comment
    again. *)
Lemma second_run_converts_again :
  ~ (forall data : bytes,
       res_changes (fst (process_file (converted data) false)) = []).
Proof.
  intros H. specialize (H mixed_file). vm_compute in H. discriminate.
Qed.

(** C1, as the code has it.  A second run over the content a first run left
    changes nothing exactly when the first run changed nothing (the content
    is what it was) or the content is now valid UTF-8 (the file is
    skipped); this is the case whenever the first run gave no warning, every
    byte above 127 having been in a comment. *)
Theorem second_run_changes_nothing (data : bytes) :
  bytes_ok data ->
  (res_changes (fst (process_file (converted data) false)) = [] <->
     res_changes (fst (process_file data false)) = []
     \/ is_valid_utf8 (converted data) = true)
  /\ (res_warnings (fst (process_file data false)) = [] ->
      res_changes (fst (process_file (converted data) false)) = []).
Proof.
  intros Hok. split; [split|].
  - intros H2.
    destruct (res_changes (fst (process_file data false))) eqn:E1;
      [now left|right].
    destruct (is_valid_utf8 (converted data)) eqn:Ev; [reflexivity|exfalso].
    apply (second_run_changes_again data Hok); auto.
    rewrite E1. discriminate.
  - intros [Hc|Hv].
    + rewrite (no_changes_unchanged data Hc). exact Hc.
    + now apply valid_no_changes.
  - intros Hw.
    destruct (res_skipped (fst (process_file data false))) eqn:Hs.
    + assert (Hc : res_changes (fst (process_file data false)) = []).
      { revert Hs. unfold process_file.
        destruct (existsb (fun b => 127 <? b) data); simpl; [|reflexivity].
        destruct (is_valid_utf8 data); simpl; [reflexivity|discriminate]. }
      rewrite (no_changes_unchanged data Hc). exact Hc.
    + destruct (process_file_processed data false Hs)
        as (Hex & Hv & Hc & Hw').
      rewrite Hw' in Hw.
      destruct (changes (snd (walk data))) as [|ch chs] eqn:Hch.
      * rewrite (no_changes_unchanged data Hc). exact Hc.
      * apply valid_no_changes.
        unfold converted, process_file. rewrite Hex, Hv, Hch. cbn [negb snd].
        change (0 <? len (ch :: chs)) with true. cbn [andb negb].
        destruct (walk_eq data) as (Hnl & _ & _). cbn zeta in Hnl.
        rewrite Hnl.
        apply valid_join. intros l Hl.
        apply in_map_iff in Hl. destruct Hl as (cl & <- & Hcl).
        intros r. apply valid_rewritten. intros b v Hb. split.
        -- unfold bytes_ok in Hok. rewrite Forall_forall in Hok.
           apply Hok. eapply classified_in_data; eauto.
        -- intros Hgt. eapply no_warnings_all_comment; eauto.
Qed.

Lemma second_run_changes_nothing_witness :
  res_changes (fst (process_file (converted cafe_comment) false)) = [].
Proof.
  destruct (second_run_changes_nothing cafe_comment) as [_ H].
  - unfold bytes_ok, cafe_comment. repeat constructor; lia.
  - apply H. reflexivity.
Defined.

(** ** Line boundaries *)

Lemma flags_after_eq (lines : list bytes) :
  flags_after lines = run_lines (fst initial) lines.
Proof.
  unfold flags_after.
  destruct (fold_lines lines 1 (fst initial) (snd initial)) as (H & _).
  exact H.
Qed.

Lemma prev_byte_step (s : cstate) (b : Z) :
  prev_byte (classify_byte s b) = b.
Proof.
  unfold classify_byte, byte_body. destruct s as [blk lc str esc prev].
  simpl. split_ifs; reflexivity.
Qed.

Lemma block_closes (s : cstate) :
  in_block_comment s = true -> escape_next s = false ->
  prev_byte s = ord_bar ->
  in_block_comment (classify_byte s ord_hash) = false.
Proof.
  destruct s as [blk lc str esc prev]. simpl. intros -> -> ->. reflexivity.
Qed.

(** C8.  Line boundaries.  With [s] the flags at the end of the lines walked
    so far and [e] the flags the next line is entered with: [e] has the
    line-comment flag, the string flag and the pending escape cleared and
    the previous byte reset, and keeps the block-comment flag of [s]; the
    next line is walked from [e]; two walks that end with the same
    block-comment flag classify the next line alike; a block comment open in
    [s] stays open over every later line that holds no [|#], all bytes of
    these lines being met in a comment; and it is closed by the first [|#]
    of the next line. *)
Theorem line_boundary_state (lines : list bytes) :
  let s := flags_after lines in
  let e := line_entry s in
  (in_line_comment e = false /\ in_string e = false /\ escape_next e = false
   /\ prev_byte e = 0 /\ in_block_comment e = in_block_comment s)
  /\ (forall l, flags_after (lines ++ [l]) = run_bytes e l)
  /\ (forall lines' l,
        in_block_comment (flags_after lines') = in_block_comment s ->
        classify_bytes (line_entry (flags_after lines')) l = classify_bytes e l
        /\ flags_after (lines' ++ [l]) = flags_after (lines ++ [l]))
  /\ (forall more,
        in_block_comment s = true ->
        forallb (fun l => negb (has_bar_hash l)) more = true ->
        in_block_comment (flags_after (lines ++ more)) = true
        /\ forall cl b v,
             In cl (classify_lines s more) -> In (b, v) cl -> v = true)
  /\ (forall pre,
        in_block_comment s = true ->
        has_bar_hash (pre ++ [ord_bar]) = false ->
        in_block_comment (run_bytes e (pre ++ [ord_bar])) = true
        /\ in_block_comment (run_bytes e (pre ++ [ord_bar; ord_hash]))
           = false).
Proof.
  cbn zeta.
  assert (Hnext : forall ls l,
             flags_after (ls ++ [l])
             = run_bytes (line_entry (flags_after ls)) l).
  { intros ls l. rewrite !flags_after_eq, run_lines_app. reflexivity. }
  split; [|split; [|split; [|split]]].
  - destruct (flags_after lines). repeat split.
  - apply Hnext.
  - intros lines' l H. rewrite !Hnext.
    now rewrite (line_entry_block _ _ H).
  - intros more Hblk Hno. rewrite flags_after_eq, run_lines_app.
    rewrite <- flags_after_eq. now apply block_persists_lines.
  - intros pre Hblk Hno.
    assert (He : in_block_comment (line_entry (flags_after lines)) = true)
      by (destruct (flags_after lines); exact Hblk).
    destruct (block_persists (pre ++ [ord_bar])
                (line_entry (flags_after lines)) He)
      as (B1 & B2 & _).
    + destruct (flags_after lines); reflexivity.
    + replace (prev_byte (line_entry (flags_after lines))) with 0
        by (destruct (flags_after lines); reflexivity).
      now rewrite has_bar_hash_entry.
    + split; [exact B1|].
      change [ord_bar; ord_hash] with ([ord_bar] ++ [ord_hash]).
      rewrite app_assoc, run_bytes_app.
      change (run_bytes (run_bytes (line_entry (flags_after lines))
                           (pre ++ [ord_bar])) [ord_hash])
        with (classify_byte (run_bytes (line_entry (flags_after lines))
                               (pre ++ [ord_bar])) ord_hash).
      apply block_closes; [exact B1|exact B2|].
      rewrite run_bytes_app. exact (prev_byte_step _ _).
Qed.

Lemma line_boundary_state_witness :
  in_block_comment (flags_after ([[35; 124; 32; 233]] ++ [[59; 233]; [34]]))
  = true
  /\ forall cl b v,
       In cl (classify_lines (flags_after [[35; 124; 32; 233]])
                [[59; 233]; [34]]) ->
       In (b, v) cl -> v = true.
Proof.
  destruct (line_boundary_state [[35; 124; 32; 233]]) as (_ & _ & _ & H & _).
  apply (H [[59; 233]; [34]]); reflexivity.
Defined.

(** ** Bytes above 127 and the markers *)

(** C4.  Bytes above 127 and the classifier.  In any state [s] reached
    inside a line, a byte [x] above 127 changes nothing but the remembered
    previous byte, so the context stays what it was; in code, [x] followed
    by [#|] opens a block comment, and inside a block comment [x] followed
    by [|#] closes it; in every state the context reached after [x] and a
    marker, or after a marker and [x], is the one reached after the marker
    alone. *)
Theorem non_ascii_is_transparent (s0 : cstate) (pre : bytes) (x : Z) :
  127 < x ->
  let s := run_bytes (line_entry s0) pre in
  classify_byte s x = set_prev_byte x s
  /\ context_of (classify_byte s x) = context_of s
  /\ (context_of s = Code ->
      context_of (run_bytes s [x; ord_hash; ord_bar]) = InBlockComment)
  /\ (context_of s = InBlockComment ->
      context_of (run_bytes s [x; ord_bar; ord_hash]) = Code)
  /\ context_of (run_bytes s [x; ord_hash; ord_bar])
     = context_of (run_bytes s [ord_hash; ord_bar])
  /\ context_of (run_bytes s [x; ord_bar; ord_hash])
     = context_of (run_bytes s [ord_bar; ord_hash])
  /\ context_of (run_bytes s [ord_hash; ord_bar; x])
     = context_of (run_bytes s [ord_hash; ord_bar])
  /\ context_of (run_bytes s [ord_bar; ord_hash; x])
     = context_of (run_bytes s [ord_bar; ord_hash]).
Proof.
  intros Hx. cbn zeta.
  pose proof (flags_ok_run (line_entry s0) pre (flags_ok_entry s0)) as Hok.
  set (s := run_bytes (line_entry s0) pre) in *. clearbody s.
  assert (H1 : (x <=? 127) = false) by (apply Z.leb_gt; lia).
  assert (H2 : (x =? ord_bar) = false) by (apply Z.eqb_neq; unfold ord_bar; lia).
  assert (H3 : (x =? ord_hash) = false)
    by (apply Z.eqb_neq; unfold ord_hash; lia).
  split; [now apply classify_byte_non_ascii|].
  split; [rewrite classify_byte_non_ascii by exact Hx; now destruct s|].
  destruct s as [blk lc str esc prev].
  unfold flags_ok in Hok. simpl in Hok.
  unfold run_bytes, classify_byte, byte_body, context_of.
  cbn [fold_left fst snd in_block_comment in_line_comment in_string
       escape_next prev_byte set_prev_byte set_escape_next set_in_string
       set_in_line_comment set_in_block_comment].
  rewrite ?H1, ?H2, ?H3.
  destruct blk, lc, str, esc; try discriminate Hok; clear Hok;
    cbn - [Z.eqb Z.leb ord_bar ord_hash];
    rewrite ?H1, ?H2, ?H3;
    (repeat split; try discriminate; try reflexivity;
     destruct (prev =? ord_bar) eqn:Eb; destruct (prev =? ord_hash) eqn:Eh;
     cbn - [Z.eqb Z.leb ord_bar ord_hash];
     rewrite ?H1, ?H2, ?H3; try reflexivity; try discriminate).
Qed.

Lemma non_ascii_is_transparent_witness :
  context_of
    (run_bytes (run_bytes (line_entry (fst initial)) [40])
       [233; ord_hash; ord_bar])
  = InBlockComment
  /\ context_of
       (run_bytes (run_bytes (line_entry (fst initial)) [35; 124; 32])
          [233; ord_bar; ord_hash])
     = Code.
Proof.
  split.
  - destruct (non_ascii_is_transparent (fst initial) [40] 233 ltac:(lia))
      as (_ & _ & H & _).
    apply H. reflexivity.
  - destruct (non_ascii_is_transparent (fst initial) [35; 124; 32] 233
                ltac:(lia))
      as (_ & _ & _ & H & _).
    apply H. reflexivity.
Defined.

(** ** The pending escape *)

(** C7.  The escape flag at the failing input.  After the two bytes of a
    double quote and a backslash the classifier is in a string with an
    escape pending.  An ASCII byte next consumes the escape, and the double
    quote after it closes the string.  The byte 0xE9 next leaves the escape
    pending, so the double quote after it is swallowed and the string stays
    open: on [escaped_line] the semicolon is then taken as part of the
    string and the 0xE9 of the comment gets a warning, not a change. *)
Theorem escape_survives_non_ascii :
  let s := run_bytes (line_entry (fst initial)) [ord_dquote; ord_backslash] in
  context_of s = InString /\ escape_next s = true
  /\ escape_next (classify_byte s 65) = false
  /\ context_of (run_bytes s [65; ord_dquote]) = Code
  /\ escape_next (classify_byte s 233) = true
  /\ context_of (run_bytes s [233; ord_dquote]) = InString
  /\ is_valid_utf8 escaped_line = false
  /\ res_changes (fst (process_file escaped_line false)) = []
  /\ map warn_col (res_warnings (fst (process_file escaped_line false)))
     = [3; 8].
Proof. vm_compute. repeat split. Qed.

(** ** The Verifier on a stray continuation byte *)

Import Verify.

(** C3.  The Verifier at the failing input.  The file holding the letter
    [A] and the byte 0xA9 does not decode as UTF-8, yet [verify_file]
    returns no problem for it: the walk back from the byte 0xA9 (a
    continuation pattern) stops on the letter, the window fails to decode,
    and the failure is dropped because the window does not start at the
    byte under examination, while the letter itself is never examined.
    [main] over a tree holding just this file exits with 0.  A lead-pattern
    byte in the same place (0xE9) is reported. *)
Theorem verifier_misses_continuation_byte :
  decode_utf8 stray_continuation = None
  /\ verify_file stray_continuation = []
  /\ main [("a.lisp"%string, stray_continuation)] = 0
  /\ map prob_col (verify_file [65; 233]) = [1]
  /\ main [("a.lisp"%string, [65; 233])] = 1.
Proof. vm_compute. repeat split. Qed.

(** ** The Scanner's records *)

Lemma rfind_app_nosep (x : Z) (p s : bytes) :
  ~ In x s -> rfind x (p ++ s) = rfind x p.
Proof.
  intros H. induction p as [|a p IH].
  - cbn [app]. apply rfind_count. now apply count_zero.
  - cbn [app]. rewrite !rfind_cons, IH. reflexivity.
Qed.

Lemma rfind_app_sep (x : Z) (p : bytes) : rfind x (p ++ [x]) = len p.
Proof.
  unfold len. induction p as [|a p IH].
  - cbn [app]. rewrite rfind_cons. cbn [rfind]. now rewrite Z.eqb_refl.
  - cbn [app length]. rewrite rfind_cons, IH.
    replace (0 <=? Z.of_nat (length p)) with true
      by (symmetry; apply Z.leb_le; lia).
    lia.
Qed.

Lemma find_at_skip (x : Z) (p q : bytes) (i pos : Z) :
  pos + len p <= i ->
  find_at x (p ++ q) i pos = find_at x q i (pos + len p).
Proof.
  unfold len. revert pos; induction p as [|a p IH]; intros pos H.
  - cbn [app length]. now rewrite Z.add_0_r.
  - cbn [app length find_at] in *.
    replace (i <=? pos) with false by (symmetry; apply Z.leb_gt; lia).
    cbn [andb]. rewrite IH by lia. f_equal. lia.
Qed.

Lemma find_at_nosep (x : Z) (s q : bytes) (i pos : Z) :
  ~ In x s ->
  find_at x (s ++ q) i pos = find_at x q i (pos + len s).
Proof.
  unfold len. revert pos; induction s as [|a s IH]; intros pos H.
  - cbn [app length]. now rewrite Z.add_0_r.
  - cbn [app length find_at].
    replace (a =? x) with false
      by (symmetry; apply Z.eqb_neq; intros ->; apply H; now left).
    rewrite andb_false_r, IH by (intros E; apply H; now right).
    f_equal. lia.
Qed.

(** The end of a line, seen from an index inside it. *)
Lemma line_end_inside (pre l1 l2 post : bytes) :
  ~ In 10 l2 -> (post = [] \/ exists q, post = 10 :: q) ->
  line_end (pre ++ (l1 ++ l2) ++ post) (len pre + len l1)
  = len pre + len l1 + len l2.
Proof.
  intros Hl Hpost. unfold line_end, find.
  replace (pre ++ (l1 ++ l2) ++ post) with ((pre ++ l1) ++ l2 ++ post)
    by (now rewrite <- !app_assoc).
  rewrite find_at_skip
    by (unfold len; rewrite length_app; lia).
  rewrite find_at_nosep by assumption.
  unfold len. rewrite !length_app.
  destruct Hpost as [->|[q ->]].
  - cbn [find_at]. change (-1 =? -1) with true. cbv iota.
    rewrite ?length_app. cbn [length]. lia.
  - cbn [find_at]. rewrite Z.eqb_refl, andb_true_r.
    replace (_ <=? _) with true by (symmetry; apply Z.leb_le; lia).
    destruct (Z.eqb_spec (0 + Z.of_nat (length pre + length l1)
                          + Z.of_nat (length l2)) (-1)); lia.
Qed.

Lemma slice_middle {A : Type} (pre l post : list A) :
  slice (pre ++ l ++ post) (len pre) (len pre + len l) = l.
Proof.
  unfold slice, len.
  replace (Z.of_nat (length pre) + Z.of_nat (length l)
           - Z.of_nat (length pre)) with (Z.of_nat (length l)) by lia.
  rewrite !Nat2Z.id, skipn_app, skipn_all, Nat.sub_diag. cbn [app skipn].
  rewrite firstn_app, firstn_all, Nat.sub_diag. cbn [firstn].
  apply app_nil_r.
Qed.

(** The hit for the byte at column [len l1] of the line [l1 ++ b :: l2],
    which starts after [pre]. *)
Lemma hits_at_line (pre l1 l2 post : bytes) (b : Z) :
  rfind 10 pre = len pre - 1 -> ~ In 10 (l1 ++ b :: l2) ->
  (post = [] \/ exists q, post = 10 :: q) ->
  hits_at (pre ++ (l1 ++ b :: l2) ++ post) (len pre + len l1, b)
  = if 127 <? b
    then [mk_hit (count 10 pre + 1) (len l1) b (hex02 b) (decode_latin1 [b])
            (strip (decode_latin1 (l1 ++ b :: l2)))]
    else [].
Proof.
  intros Hpre Hl Hpost.
  assert (Hl1 : ~ In 10 l1) by (intros E; apply Hl, in_or_app; now left).
  assert (Hl2 : ~ In 10 (b :: l2))
    by (intros E; apply Hl, in_or_app; now right).
  replace (len pre + len l1) with (Z.of_nat (length (pre ++ l1)))
    by (unfold len; rewrite length_app; lia).
  rewrite hits_at_nth. destruct (127 <? b); [|reflexivity].
  unfold hit_of. cbn zeta.
  replace (firstn (length (pre ++ l1)) (pre ++ (l1 ++ b :: l2) ++ post))
    with (pre ++ l1)
    by (rewrite <- app_assoc, (app_assoc pre l1), firstn_app, firstn_all,
          Nat.sub_diag; cbn [firstn]; now rewrite app_nil_r).
  rewrite count_app, (count_zero 10 l1 Hl1), Z.add_0_r.
  rewrite rfind_app_nosep, Hpre by assumption.
  replace (Z.of_nat (length (pre ++ l1))) with (len pre + len l1)
    by (unfold len; rewrite length_app; lia).
  rewrite (line_end_inside pre l1 (b :: l2) post Hl2 Hpost).
  replace (len pre - 1 + 1) with (len pre) by lia.
  replace (len pre + len l1 + len (b :: l2))
    with (len pre + len (l1 ++ b :: l2))
    by (unfold len; rewrite length_app; lia).
  rewrite slice_middle. do 2 f_equal. lia.
Qed.

Lemma hits_in_line (pre post : bytes) (l2 : bytes) :
  forall l1 : bytes,
    rfind 10 pre = len pre - 1 -> ~ In 10 (l1 ++ l2) ->
    (post = [] \/ exists q, post = 10 :: q) ->
    flat_map (hits_at (pre ++ (l1 ++ l2) ++ post))
      (enumerate (len pre + len l1) l2)
    = flat_map
        (fun cb : Z * Z =>
           if 127 <? snd cb
           then [mk_hit (count 10 pre + 1) (fst cb) (snd cb) (hex02 (snd cb))
                   (decode_latin1 [snd cb])
                   (strip (decode_latin1 (l1 ++ l2)))]
           else [])
        (enumerate (len l1) l2).
Proof.
  induction l2 as [|b l2 IH]; intros l1 Hpre Hl Hpost; [reflexivity|].
  cbn [enumerate flat_map fst snd].
  rewrite (hits_at_line pre l1 l2 post b Hpre Hl Hpost). f_equal.
  specialize (IH (l1 ++ [b]) Hpre).
  rewrite <- !app_assoc in IH. cbn [app] in IH.
  replace (len pre + len (l1 ++ [b])) with (len pre + len l1 + 1) in IH
    by (unfold len; rewrite length_app; cbn [length]; lia).
  replace (len (l1 ++ [b])) with (len l1 + 1) in IH
    by (unfold len; rewrite length_app; cbn [length]; lia).
  rewrite <- !app_assoc. cbn [app]. apply IH; assumption.
Qed.

Lemma hits_in_lines (ls : list bytes) :
  forall pre : bytes,
    rfind 10 pre = len pre - 1 -> ls <> [] ->
    (forall l, In l ls -> ~ In 10 l) ->
    flat_map (hits_at (pre ++ join 10 ls)) (enumerate (len pre) (join 10 ls))
    = flat_map
        (fun nl : Z * bytes =>
           flat_map
             (fun cb : Z * Z =>
                if 127 <? snd cb
                then [mk_hit (fst nl) (fst cb) (snd cb) (hex02 (snd cb))
                        (decode_latin1 [snd cb])
                        (strip (decode_latin1 (snd nl)))]
                else [])
             (enumerate 0 (snd nl)))
        (enumerate (count 10 pre + 1) ls).
Proof.
  induction ls as [|l ls IH]; intros pre Hpre Hne Hls; [contradiction|].
  assert (Hl : ~ In 10 l) by (apply Hls; now left).
  destruct ls as [|l' ls].
  - cbn [join enumerate flat_map fst snd]. rewrite app_nil_r.
    pose proof (hits_in_line pre [] l [] Hpre Hl (or_introl eq_refl)) as H.
    cbn [app] in H. rewrite app_nil_r in H.
    change (len (@nil Z)) with 0 in H. rewrite Z.add_0_r in H. exact H.
  - rewrite join_cons by discriminate.
    cbn [enumerate flat_map fst snd]. rewrite enumerate_app, flat_map_app.
    f_equal.
    + pose proof (hits_in_line pre (10 :: join 10 (l' :: ls)) l [] Hpre Hl
                    (or_intror (ex_intro _ _ eq_refl))) as H.
      cbn [app] in H. change (len (@nil Z)) with 0 in H.
      rewrite Z.add_0_r in H. rewrite <- ?app_assoc in H. exact H.
    + cbn [enumerate flat_map].
      change (hits_at (pre ++ l ++ 10 :: join 10 (l' :: ls))
                (len pre + len l, 10)) with (@nil hit).
      cbn [app].
      specialize (IH (pre ++ l ++ [10])).
      rewrite <- !app_assoc in IH. cbn [app] in IH.
      replace (len (pre ++ l ++ [10])) with (len pre + len l + 1) in IH
        by (unfold len; rewrite !length_app; cbn [length]; lia).
      replace (count 10 (pre ++ l ++ [10]) + 1) with (count 10 pre + 1 + 1)
        in IH
        by (rewrite !count_app, (count_zero 10 l Hl); cbn [count];
            rewrite Z.eqb_refl; lia).
      apply IH; [|discriminate|intros l0 Hl0; apply Hls; now right].
      rewrite (app_assoc pre l [10]), rfind_app_sep.
      unfold len. rewrite !length_app. cbn [length]. lia.
Qed.

(** [scan_file] as a walk over the lines of the file. *)
Lemma scan_file_by_lines (data : bytes) :
  scan_file data
  = flat_map
      (fun nl : Z * bytes =>
         flat_map
           (fun cb : Z * Z =>
              if 127 <? snd cb
              then [mk_hit (fst nl) (fst cb) (snd cb) (hex02 (snd cb))
                      (decode_latin1 [snd cb])
                      (strip (decode_latin1 (snd nl)))]
              else [])
           (enumerate 0 (snd nl)))
      (enumerate 1 (split 10 data)).
Proof.
  pose proof (hits_in_lines (split 10 data) [] eq_refl
                (split_nonempty 10 data)
                (fun l H => split_no_sep 10 data l H)) as H.
  cbn [app] in H. rewrite join_split in H. exact H.
Qed.


(** C9, counterexample.  No limit bounds the context of a hit: the line of
    [L] letters closed by 0xE9 gives a hit whose context has [L + 1]
    characters. *)
Lemma scanner_context_unbounded :
  ~ (exists L : nat,
       forall (data : bytes) (h : hit),
         In h (scan_file data) -> (length (hit_context h) <= L)%nat).
Proof.
  intros (L & H). destruct (long_line_hit L) as (h & Hin & Hlen).
  specialize (H (long_line L) h Hin). lia.
Qed.

(** C9, as the code has it.  [scan_file] gives one hit per byte above 127,
    in the order of the file: its list is, line after line of the split of
    the file and column after column of the line, the hit of each byte
    above 127, which holds the line number counted from 1, the column
    counted from 0, the byte, its two-digit hexadecimal form, its
    ISO-8859-1 character, and as context the whole of that line, decoded as
    ISO-8859-1 and stripped of surrounding white space (so no longer than
    the line, and not cut). *)
Theorem scanner_hits (data : bytes) :
  scan_file data
  = flat_map
      (fun nl : Z * bytes =>
         flat_map
           (fun cb : Z * Z =>
              if 127 <? snd cb
              then [mk_hit (fst nl) (fst cb) (snd cb) (hex02 (snd cb))
                      (decode_latin1 [snd cb])
                      (strip (decode_latin1 (snd nl)))]
              else [])
           (enumerate 0 (snd nl)))
      (enumerate 1 (split 10 data))
  /\ map hit_byte (scan_file data) = filter (fun b => 127 <? b) data
  /\ forall h, In h (scan_file data) ->
       127 < hit_byte h /\ 1 <= hit_line h /\ 0 <= hit_col h
       /\ hit_hex h = hex02 (hit_byte h)
       /\ hit_char h = decode_latin1 [hit_byte h]
       /\ exists l,
            nth_error (split 10 data) (Z.to_nat (hit_line h - 1)) = Some l
            /\ nth_error l (Z.to_nat (hit_col h)) = Some (hit_byte h)
            /\ hit_context h = strip (decode_latin1 l)
            /\ len (hit_context h) <= len l.
Proof.
  split; [apply scan_file_by_lines|].
  split; [apply scan_bytes_from|].
  intros h Hin. apply scan_file_In in Hin.
  destruct Hin as (k & b & Hk & Hb & ->).
  destruct (hit_of_place data k b Hk Hb) as (l & H1 & H2 & H3 & H4 & H5 & H6).
  cbn zeta in *.
  split; [exact Hb|]. split; [exact H2|]. split; [exact H3|].
  split; [reflexivity|]. split; [reflexivity|].
  exists l. auto.
Qed.

Lemma scanner_hits_witness :
  let h := hit_of mixed_file 6 233 in
  127 < hit_byte h /\ 1 <= hit_line h /\ 0 <= hit_col h
  /\ hit_hex h = hex02 (hit_byte h)
  /\ hit_char h = decode_latin1 [hit_byte h]
  /\ exists l,
       nth_error (split 10 mixed_file) (Z.to_nat (hit_line h - 1)) = Some l
       /\ nth_error l (Z.to_nat (hit_col h)) = Some (hit_byte h)
       /\ hit_context h = strip (decode_latin1 l)
       /\ len (hit_context h) <= len l.
Proof.
  destruct (scanner_hits mixed_file) as (_ & _ & H).
  apply (H (hit_of mixed_file 6 233)).
  vm_compute. right. left. reflexivity.
Defined.


(* ================================================================== *)
(** * More on [process_file] *)
(* ================================================================== *)

Lemma join_length (sep : Z) (l : bytes) (ls : list bytes) :
  length (join sep (l :: ls))
  = (length l + list_sum (map (fun x => S (length x)) ls))%nat.
Proof.
  revert l; induction ls as [|l' ls IH]; intros l.
  - simpl. lia.
  - rewrite join_cons by discriminate. rewrite length_app. cbn [length].
    rewrite IH.
    change (list_sum (map (fun x => S (length x)) (l' :: ls)))
      with (S (length l') + list_sum (map (fun x => S (length x)) ls))%nat.
    lia.
Qed.

Lemma processed_or_unchanged (data : bytes) :
  (res_changes (fst (process_file data false)) = []
   /\ converted data = data)
  \/ (res_skipped (fst (process_file data false)) = None
      /\ res_changes (fst (process_file data false))
         = file_changes 1 (classify_file data)
      /\ res_warnings (fst (process_file data false))
         = file_warnings 1 (classify_file data)
      /\ converted data
         = join newline (map (flat_map rewrite_byte) (classify_file data))).
Proof.
  destruct (res_changes (fst (process_file data false))) as [|ch chs] eqn:E.
  - left. split; [reflexivity|]. now apply no_changes_unchanged.
  - right. revert E. unfold converted, process_file.
    destruct (existsb (fun b => 127 <? b) data); simpl; [|discriminate].
    destruct (is_valid_utf8 data); simpl; [discriminate|].
    destruct (walk_eq data) as (H1 & H2 & H3). cbn zeta in *.
    intros E. split; [reflexivity|].
    split; [rewrite <- E; exact H2|]. split; [exact H3|].
    rewrite E. change (0 <? len (ch :: chs)) with true. cbn [andb negb].
    now rewrite H1.
Qed.

Lemma classified_bytes_ok (data : bytes) :
  bytes_ok data ->
  forall cl b v, In cl (classify_file data) -> In (b, v) cl -> 0 <= b < 256.
Proof.
  intros Hok cl b v Hcl Hb. unfold bytes_ok in Hok.
  rewrite Forall_forall in Hok. apply Hok.
  eapply classified_in_data; eauto.
Qed.

Lemma data_as_join (data : bytes) :
  data = join newline (map (map fst) (classify_file data)).
Proof. now rewrite classify_file_fst, join_split. Qed.

Lemma classify_file_nonempty (data : bytes) : classify_file data <> [].
Proof.
  intros E. pose proof (classify_file_fst data) as F. rewrite E in F.
  symmetry in F. revert F. apply split_nonempty.
Qed.

Lemma rewritten_length (line_no col : Z) (cl : list (Z * bool)) :
  (forall b v, In (b, v) cl -> 0 <= b < 256) ->
  length (flat_map rewrite_byte cl)
  = (length cl + length (line_changes line_no col cl))%nat.
Proof.
  unfold line_changes. revert col; induction cl as [|[b v] cl IH];
    intros col H; [reflexivity|].
  cbn [flat_map enumerate]. rewrite !length_app.
  rewrite (IH (col + 1)) by (intros b' v' Hin; apply (H b' v'); now right).
  assert (Hb : 0 <= b < 256) by (apply (H b v); now left).
  cbn [rewrite_byte change_at].
  destruct ((127 <? b) && v) eqn:E.
  - apply andb_true_iff in E. destruct E as [E _]. apply Z.ltb_lt in E.
    destruct (encode_high b ltac:(lia)) as (b0 & b1 & -> & _).
    cbn [length]. lia.
  - cbn [length]. lia.
Qed.

Lemma records_length (line_no col : Z) (line : bytes)
    (cl : list (Z * bool)) :
  (length (line_changes line_no col cl)
   + length (line_warnings line_no line col cl))%nat
  = length (filter (fun b => 127 <? b) (map fst cl)).
Proof.
  unfold line_changes, line_warnings.
  revert col; induction cl as [|[b v] cl IH]; intros col; [reflexivity|].
  cbn [flat_map enumerate map fst filter change_at warning_at].
  rewrite !length_app. specialize (IH (col + 1)).
  destruct (127 <? b), v; cbn [andb negb length]; lia.
Qed.

Lemma filter_join (sep : Z) (p : Z -> bool) (l : bytes) (ls : list bytes) :
  p sep = false ->
  filter p (join sep (l :: ls)) = filter p l ++ flat_map (filter p) ls.
Proof.
  intros Hp. revert l; induction ls as [|l' ls IH]; intros l.
  - simpl. now rewrite app_nil_r.
  - rewrite join_cons by discriminate. rewrite filter_app. cbn [filter].
    rewrite Hp, IH. reflexivity.
Qed.

Lemma file_records_length (first : Z) (cls : list (list (Z * bool))) :
  (length (file_changes first cls) + length (file_warnings first cls))%nat
  = length (flat_map (fun cl => filter (fun b => 127 <? b) (map fst cl)) cls).
Proof.
  unfold file_changes, file_warnings.
  revert first; induction cls as [|cl cls IH]; intros first; [reflexivity|].
  cbn [flat_map enumerate fst snd]. rewrite !length_app.
  specialize (IH (first + 1)).
  pose proof (records_length first 0 (map fst cl) cl). lia.
Qed.

Lemma file_growth (first : Z) (cl : list (Z * bool))
    (cls : list (list (Z * bool))) :
  (forall c b v, In c (cl :: cls) -> In (b, v) c -> 0 <= b < 256) ->
  length (join newline (map (flat_map rewrite_byte) (cl :: cls)))
  = (length (join newline (map (map fst) (cl :: cls)))
     + length (file_changes first (cl :: cls)))%nat.
Proof.
  intros H. cbn [map]. rewrite !join_length.
  unfold file_changes. cbn [enumerate flat_map fst snd]. rewrite length_app.
  rewrite (rewritten_length first 0 cl)
    by (intros b v; apply (H cl); now left).
  rewrite length_map.
  assert (Hrest : forall k,
             list_sum (map (fun x => S (length x))
                         (map (flat_map rewrite_byte) cls))
             = (list_sum (map (fun x => S (length x)) (map (map fst) cls))
                + length (flat_map
                            (fun ncl => line_changes (fst ncl) 0 (snd ncl))
                            (enumerate k cls)))%nat).
  { assert (H' : forall c b v, In c cls -> In (b, v) c -> 0 <= b < 256)
      by (intros c b v Hc; apply (H c); now right).
    clear H. revert H'. induction cls as [|c cls IH]; intros H k.
    - reflexivity.
    - cbn [map enumerate flat_map fst snd]. rewrite length_app.
      change (list_sum (?f :: ?r)) with (f + list_sum r)%nat.
      rewrite (IH (fun c' b v Hc => H c' b v (or_intror Hc)) (k + 1)).
      rewrite (rewritten_length k 0 c)
        by (intros b v; apply (H c); now left).
      rewrite length_map. lia. }
  rewrite (Hrest (first + 1)). lia.
Qed.

(** X1.  Growth.  A real run makes the file longer by exactly one byte for
    each change it reports: every converted byte becomes two bytes and
    nothing else is added or removed. *)
Theorem conversion_growth (data : bytes) :
  bytes_ok data ->
  len (converted data)
  = len data + len (res_changes (fst (process_file data false))).
Proof.
  intros Hok. destruct (processed_or_unchanged data)
    as [[Hc Hu]|(_ & Hc & _ & Hconv)].
  - rewrite Hc, Hu. unfold len. simpl. lia.
  - rewrite Hc, Hconv. rewrite (data_as_join data) at 2.
    pose proof (classify_file_nonempty data) as Hne.
    pose proof (classified_bytes_ok data Hok) as Hb.
    destruct (classify_file data) as [|cl cls]; [contradiction|].
    unfold len. rewrite (file_growth 1 cl cls Hb). lia.
Qed.

Lemma conversion_growth_witness :
  len (converted cafe_comment)
  = len cafe_comment + len (res_changes (fst (process_file cafe_comment false))).
Proof.
  apply (conversion_growth cafe_comment).
  unfold bytes_ok, cafe_comment. repeat constructor; lia.
Defined.

Lemma flat_map_map {A B C : Type} (f : A -> B) (g : B -> list C)
    (l : list A) :
  flat_map g (map f l) = flat_map (fun x => g (f x)) l.
Proof. induction l as [|x l IH]; simpl; [reflexivity|]. now rewrite IH. Qed.

Lemma non_ascii_by_lines (data : bytes) :
  filter (fun b => 127 <? b) data
  = flat_map (filter (fun b => 127 <? b)) (split newline data).
Proof.
  rewrite <- (join_split newline data) at 1.
  pose proof (split_nonempty newline data) as Hne.
  destruct (split newline data) as [|l ls]; [contradiction|].
  rewrite filter_join by reflexivity. reflexivity.
Qed.

(** The records of the walk against the hits of [scan_file]. *)
Lemma walk_records_hits (data : bytes) :
  len (changes (snd (walk data))) + len (warnings (snd (walk data)))
  = len (scan_file data).
Proof.
  destruct (walk_eq data) as (_ & -> & ->).
  pose proof (file_records_length 1 (classify_file data)) as H.
  rewrite <- flat_map_map, classify_file_fst, <- non_ascii_by_lines in H.
  pose proof (scan_bytes_from data data 0) as Hscan.
  apply (f_equal (@length Z)) in Hscan. rewrite length_map in Hscan.
  fold (scan_file data) in Hscan. unfold len. lia.
Qed.

(** X2.  Records against hits.  On a file that is not skipped the Converter
    gives a change or a warning for every byte the Scanner gives a hit for:
    the two lists together are as long as the Scanner's list. *)
Theorem records_match_hits (data : bytes) (dry_run : bool) :
  res_skipped (fst (process_file data dry_run)) = None ->
  len (res_changes (fst (process_file data dry_run)))
  + len (res_warnings (fst (process_file data dry_run)))
  = len (scan_file data).
Proof.
  intros Hs. destruct (process_file_processed data dry_run Hs)
    as (_ & _ & -> & ->).
  apply walk_records_hits.
Qed.

Lemma records_match_hits_witness :
  len (res_changes (fst (process_file mixed_file false)))
  + len (res_warnings (fst (process_file mixed_file false)))
  = len (scan_file mixed_file).
Proof. apply (records_match_hits mixed_file false). reflexivity. Defined.

Lemma decode_rewritten (cl : list (Z * bool)) (r : bytes) :
  (forall b v, In (b, v) cl -> 0 <= b < 256 /\ (127 < b -> v = true)) ->
  decode_utf8 (flat_map rewrite_byte cl ++ r)
  = option_map (app (map fst cl)) (decode_utf8 r).
Proof.
  induction cl as [|[b v] cl IH]; intros H.
  - simpl. now destruct (decode_utf8 r).
  - cbn [flat_map map fst]. rewrite <- app_assoc.
    destruct (H b v (or_introl eq_refl)) as [Hr Hv].
    assert (IH' := IH (fun b' v' Hin => H b' v' (or_intror Hin))).
    cbn [rewrite_byte]. destruct (Z.ltb_spec 127 b) as [Hb|Hb].
    + rewrite (Hv Hb). cbn [andb]. rewrite decode_encoded by lia.
      rewrite IH'. now destruct (decode_utf8 r).
    + cbn [andb app]. rewrite decode_ascii by lia.
      rewrite IH'. now destruct (decode_utf8 r).
Qed.

Lemma decode_join_rewritten (cl : list (Z * bool))
    (cls : list (list (Z * bool))) :
  (forall c b v, In c (cl :: cls) -> In (b, v) c ->
                 0 <= b < 256 /\ (127 < b -> v = true)) ->
  decode_utf8 (join newline (map (flat_map rewrite_byte) (cl :: cls)))
  = Some (join newline (map (map fst) (cl :: cls))).
Proof.
  revert cl; induction cls as [|c cls IH]; intros cl H.
  - cbn [map join]. rewrite <- (app_nil_r (flat_map rewrite_byte cl)).
    rewrite decode_rewritten by (intros b v; apply (H cl); now left).
    simpl. now rewrite app_nil_r.
  - cbn [map]. rewrite !join_cons by discriminate.
    rewrite decode_rewritten by (intros b v; apply (H cl); now left).
    rewrite decode_ascii by (unfold newline; lia).
    assert (IH' := IH c (fun c' b v Hc => H c' b v (or_intror Hc))).
    cbn [map] in IH'. rewrite IH'. reflexivity.
Qed.

(** X3.  The text is kept.  When a file is processed without a warning, the
    content a real run leaves decodes as UTF-8 to the very text the original
    content is in ISO-8859-1. *)
Theorem conversion_keeps_text (data : bytes) :
  bytes_ok data ->
  res_skipped (fst (process_file data false)) = None ->
  res_warnings (fst (process_file data false)) = [] ->
  decode_utf8 (converted data) = Some (decode_latin1 data).
Proof.
  intros Hok Hs Hw.
  destruct (process_file_processed data false Hs) as (Hex & _ & Hc & Hw').
  rewrite Hw' in Hw.
  destruct (processed_or_unchanged data) as [[Hc0 _]|(_ & _ & _ & Hconv)].
  - exfalso. rewrite Hc in Hc0.
    destruct (non_ascii_place data Hex) as (n & c & l & b & Hn & Hcb & Hb).
    destruct (walk_record data n c l b Hn Hcb Hb) as [Hin|Hin].
    + rewrite Hc0 in Hin. contradiction.
    + rewrite Hw in Hin. contradiction.
  - rewrite Hconv, decode_latin1_id. rewrite (data_as_join data) at 2.
    pose proof (classify_file_nonempty data) as Hne.
    assert (H : forall c b v, In c (classify_file data) -> In (b, v) c ->
                              0 <= b < 256 /\ (127 < b -> v = true)).
    { intros c b v Hcl Hb. split.
      - eapply classified_bytes_ok; eauto.
      - intros Hgt. eapply no_warnings_all_comment; eauto. }
    destruct (classify_file data) as [|cl cls]; [contradiction|].
    now apply decode_join_rewritten.
Qed.

Lemma conversion_keeps_text_witness :
  decode_utf8 (converted cafe_comment) = Some (decode_latin1 cafe_comment).
Proof.
  apply (conversion_keeps_text cafe_comment).
  - unfold bytes_ok, cafe_comment. repeat constructor; lia.
  - reflexivity.
  - reflexivity.
Defined.

(* ================================================================== *)
(** * More on the Verifier *)
(* ================================================================== *)

Lemma problems_at_nth (data : bytes) (k : nat) (b : Z) (p : problem) :
  In p (problems_at data (Z.of_nat k, b)) ->
  127 < b
  /\ prob_line p = hit_line (hit_of data k b)
  /\ prob_col p = hit_col (hit_of data k b)
  /\ prob_byte p = hit_hex (hit_of data k b)
  /\ prob_char_iso p = hit_char (hit_of data k b)
  /\ prob_context p = hit_context (hit_of data k b).
Proof.
  unfold problems_at, hit_of, line_end. rewrite slice_prefix.
  destruct (Z.ltb_spec 127 b); [|contradiction].
  destruct (decode_utf8 _); [contradiction|].
  destruct (Z.of_nat k =? _); [|contradiction].
  intros [<-|[]]. cbn. auto 6.
Qed.

Lemma problems_fewer (data : bytes) (l : list (Z * Z)) :
  (length (flat_map (problems_at data) l)
   <= length (flat_map (hits_at data) l))%nat.
Proof.
  induction l as [|[i b] l IH]; [simpl; lia|].
  cbn [flat_map]. rewrite !length_app.
  assert ((length (problems_at data (i, b))
           <= length (hits_at data (i, b)))%nat); [|lia].
  unfold problems_at, hits_at. destruct (127 <? b); [|simpl; lia].
  destruct (decode_utf8 _); [simpl; lia|].
  destruct (i =? _); simpl; lia.
Qed.

(** X4.  What the Verifier reports.  Every problem of [verify_file] is about
    a byte the Scanner has a hit for, with the same line, column, byte,
    character and context, and is reported only for a file that does not
    decode as UTF-8; so there are never more problems than hits. *)
Theorem problems_are_hits (data : bytes) :
  (forall p, In p (verify_file data) ->
     decode_utf8 data = None
     /\ exists h, In h (scan_file data)
                  /\ prob_line p = hit_line h /\ prob_col p = hit_col h
                  /\ prob_byte p = hit_hex h /\ prob_char_iso p = hit_char h
                  /\ prob_context p = hit_context h)
  /\ len (verify_file data) <= len (scan_file data).
Proof.
  unfold verify_file. split.
  - intros p Hp. destruct (decode_utf8 data); [contradiction|].
    split; [reflexivity|]. apply in_flat_map in Hp.
    destruct Hp as ([i b] & Hin & Hp). apply enumerate_In in Hin.
    destruct Hin as (k & -> & Hk). rewrite Z.add_0_l in Hp.
    destruct (problems_at_nth data k b p Hp) as (Hb & H).
    exists (hit_of data k b). split; [|exact H].
    apply scan_file_In. eauto.
  - unfold len. apply inj_le. destruct (decode_utf8 data).
    + simpl. lia.
    + apply problems_fewer.
Qed.

Lemma problems_are_hits_witness :
  decode_utf8 mixed_file = None
  /\ exists h, In h (scan_file mixed_file)
               /\ 2 = hit_line h /\ 2 = hit_col h
               /\ "0xe9"%string = hit_hex h /\ [233] = hit_char h
               /\ [59; 32; 233] = hit_context h.
Proof.
  destruct (problems_are_hits mixed_file) as [H _].
  apply (H (mk_problem 2 2 "0xe9" [233] [59; 32; 233])).
  vm_compute. right. left. reflexivity.
Defined.

Lemma is_cont_pattern (b : Z) : is_cont b = true -> cont_pattern b = true.
Proof.
  intros H. unfold is_cont, in_range in H. apply andb_true_iff in H.
  destruct H as [H1 H2]. apply Z.leb_le in H1, H2.
  assert (E : forallb cont_pattern (map Z.of_nat (seq 128 64)) = true)
    by (vm_compute; reflexivity).
  rewrite forallb_forall in E. apply E.
  replace b with (Z.of_nat (Z.to_nat b)) by lia.
  apply in_map, in_seq. lia.
Qed.

Lemma decode_single (b : Z) : 127 < b -> decode_utf8 [b] = None.
Proof.
  intros H. cbn [decode_utf8].
  replace (b <=? 0x7F) with false by (symmetry; apply Z.leb_gt; lia).
  split_ifs; reflexivity.
Qed.

(** Without a continuation byte nothing above 127 decodes. *)
Lemma decode_needs_cont (d : bytes) :
  (forall b, In b d -> is_cont b = false) ->
  existsb (fun b => 127 <? b) d = true ->
  decode_utf8 d = None.
Proof.
  induction d as [|b0 r IH]; intros Hc Hex; [discriminate|].
  assert (Hr : forall b, In b r -> is_cont b = false)
    by (intros b Hb; apply Hc; now right).
  cbn [decode_utf8]. destruct (Z.leb_spec b0 0x7F) as [Hle|Hgt].
  - cbn [existsb] in Hex.
    replace (127 <? b0) with false in Hex by (symmetry; apply Z.ltb_ge; lia).
    rewrite (IH Hr Hex). reflexivity.
  - destruct r as [|b1 [|b2 r2]].
    + split_ifs; reflexivity.
    + rewrite (Hr b1 (or_introl eq_refl)). split_ifs; reflexivity.
    + rewrite (Hr b1 (or_introl eq_refl)).
      rewrite (Hr b2 (or_intror (or_introl eq_refl))).
      rewrite !andb_false_r. cbn [andb].
      destruct r2; split_ifs; reflexivity.
Qed.

Lemma back_up_fixed (data : bytes) (k : nat) :
  cont_pattern (nth k data 0) = false -> back_up data k = k.
Proof. destruct k; simpl; [reflexivity|]. now intros ->. Qed.

Lemma run_end_stop (rest : bytes) (e : Z) :
  (forall b, In b rest -> cont_pattern b = false) -> run_end rest e = e.
Proof.
  destruct rest as [|b r]; intros H; [reflexivity|].
  simpl. now rewrite (H b (or_introl eq_refl)).
Qed.

Lemma In_skipn {A : Type} (n : nat) (l : list A) (x : A) :
  In x (skipn n l) -> In x l.
Proof.
  intros H. rewrite <- (firstn_skipn n l). apply in_or_app. now right.
Qed.

Lemma slice_one (data : bytes) (k : nat) (b : Z) :
  nth_error data k = Some b ->
  slice data (Z.of_nat k) (Z.of_nat k + 1) = [b].
Proof.
  intros H. unfold slice.
  replace (Z.to_nat (Z.of_nat k + 1 - Z.of_nat k)) with 1%nat by lia.
  rewrite Nat2Z.id. revert k H; induction data as [|a r IH]; intros k H.
  - destruct k; discriminate.
  - destruct k as [|k]; simpl in *.
    + now injection H as ->.
    + now apply IH.
Qed.

Lemma problems_without_cont (data : bytes) (k : nat) (b : Z) :
  (forall x, In x data -> cont_pattern x = false) ->
  nth_error data k = Some b ->
  map (fun p => (prob_line p, prob_col p, prob_byte p))
      (problems_at data (Z.of_nat k, b))
  = map (fun h => (hit_line h, hit_col h, hit_hex h))
        (hits_at data (Z.of_nat k, b)).
Proof.
  intros Hc Hk. unfold problems_at, hits_at.
  destruct (Z.ltb_spec 127 b) as [Hb|Hb]; [|reflexivity].
  rewrite Nat2Z.id.
  rewrite back_up_fixed
    by (rewrite (nth_error_nth _ _ 0 Hk); apply Hc;
        eapply nth_error_In; eauto).
  rewrite run_end_stop by (intros x Hx; apply Hc; eapply In_skipn; eauto).
  rewrite (slice_one data k b Hk), (decode_single b Hb), Z.eqb_refl.
  reflexivity.
Qed.

Lemma map_flat_map_ext {A B C D : Type} (f : B -> D) (g : C -> D)
    (P : A -> list B) (H : A -> list C) (l : list A) :
  (forall x, In x l -> map f (P x) = map g (H x)) ->
  map f (flat_map P l) = map g (flat_map H l).
Proof.
  induction l as [|x l IH]; intros E; [reflexivity|].
  cbn [flat_map]. rewrite !map_app, IH, E; auto.
  - now left.
  - intros y Hy. apply E. now right.
Qed.

(** X5.  Where the Verifier is complete.  On a file that holds a byte above
    127 and no byte of the continuation pattern [10xxxxxx], [verify_file]
    reports every byte above 127: its problems have, in order, the lines,
    columns and bytes of the Scanner's hits. *)
Theorem verifier_complete_without_continuation (data : bytes) :
  (forall b, In b data -> cont_pattern b = false) ->
  existsb (fun b => 127 <? b) data = true ->
  map (fun p => (prob_line p, prob_col p, prob_byte p)) (verify_file data)
  = map (fun h => (hit_line h, hit_col h, hit_hex h)) (scan_file data).
Proof.
  intros Hc Hex. unfold verify_file, scan_file.
  rewrite decode_needs_cont; [|intros b Hb|exact Hex].
  - apply map_flat_map_ext. intros [i b] Hin.
    apply enumerate_In in Hin. destruct Hin as (k & -> & Hk).
    rewrite Z.add_0_l. now apply problems_without_cont.
  - destruct (is_cont b) eqn:E; [|reflexivity].
    apply is_cont_pattern in E. rewrite (Hc b Hb) in E. discriminate.
Qed.

Lemma verifier_complete_without_continuation_witness :
  map (fun p => (prob_line p, prob_col p, prob_byte p))
      (verify_file mixed_file)
  = map (fun h => (hit_line h, hit_col h, hit_hex h)) (scan_file mixed_file).
Proof.
  apply (verifier_complete_without_continuation mixed_file).
  - intros b Hb. unfold mixed_file in Hb.
    repeat (destruct Hb as [<-|Hb]; [reflexivity|]). contradiction.
  - reflexivity.
Defined.

Lemma verify_main_fold (files : list (string * bytes)) (ok : Z)
    (pf : list (string * list problem)) :
  fold_left main_body files (ok, pf)
  = (ok + len (filter (fun f => match verify_file (snd f) with
                                | [] => true
                                | _ => false
                                end) files),
     pf ++ flat_map (fun f => match verify_file (snd f) with
                              | [] => []
                              | ps => [(fst f, ps)]
                              end) files).
Proof.
  revert ok pf; induction files as [|[p d] files IH]; intros ok pf.
  - simpl. unfold len. simpl. now rewrite Z.add_0_r, app_nil_r.
  - cbn [fold_left main_body filter flat_map fst snd].
    destruct (verify_file d) eqn:E; rewrite IH.
    + f_equal. unfold len. cbn [length]. lia.
    + f_equal. now rewrite <- app_assoc.
Qed.

Lemma verify_main_count (files : list (string * bytes)) :
  (length (filter (fun f => match verify_file (snd f) with
                            | [] => true
                            | _ => false
                            end) files)
   + length (flat_map (fun f => match verify_file (snd f) with
                                | [] => []
                                | ps => [(fst f, ps)]
                                end) files))%nat
  = length files.
Proof.
  induction files as [|f files IH]; [reflexivity|].
  cbn [filter flat_map]. destruct (verify_file (snd f));
    cbn [length app]; lia.
Qed.

(** X6.  The exit code of the Verifier.  [main] counts every file once,
    either as valid or among the problem files; it exits with 0 exactly when
    [verify_file] has no problem for any file, and with 1 otherwise; an exit
    with 1 means that some file does not decode as UTF-8, and a tree whose
    files all decode gives 0. *)
Theorem verifier_exit_code (files : list (string * bytes)) :
  fst (fold_left main_body files (0, []))
  + len (snd (fold_left main_body files (0, []))) = len files
  /\ (main files = 0 <-> forall f, In f files -> verify_file (snd f) = [])
  /\ (main files = 0 \/ main files = 1)
  /\ (main files = 1 ->
      exists f, In f files /\ decode_utf8 (snd f) = None)
  /\ ((forall f, In f files -> decode_utf8 (snd f) <> None) ->
      main files = 0).
Proof.
  assert (Hiff : main files = 0 <->
                 forall f, In f files -> verify_file (snd f) = []).
  { unfold main. rewrite verify_main_fold. cbn [snd app]. split.
    - intros H f Hf.
      destruct (verify_file (snd f)) as [|p ps] eqn:E; [reflexivity|].
      exfalso.
      assert (Hin : In (fst f, p :: ps)
                      (flat_map (fun f => match verify_file (snd f) with
                                          | [] => []
                                          | ps => [(fst f, ps)]
                                          end) files)).
      { apply in_flat_map. exists f. split; [exact Hf|].
        rewrite E. now left. }
      destruct (flat_map _ files); [contradiction|discriminate].
    - intros H.
      assert (E : flat_map (fun f => match verify_file (snd f) with
                                     | [] => []
                                     | ps => [(fst f, ps)]
                                     end) files = []).
      { clear - H. induction files as [|f files IH]; [reflexivity|].
        cbn [flat_map]. rewrite (H f (or_introl eq_refl)).
        apply IH. intros g Hg. apply H. now right. }
      now rewrite E. }
  assert (H01 : main files = 0 \/ main files = 1).
  { unfold main. destruct (snd _); auto. }
  split; [|split; [exact Hiff|split; [exact H01|split]]].
  - rewrite verify_main_fold. cbn [fst snd app]. unfold len.
    pose proof (verify_main_count files). lia.
  - intros H1.
    destruct (existsb (fun f => match verify_file (snd f) with
                                | [] => false
                                | _ => true
                                end) files) eqn:E.
    + apply existsb_exists in E. destruct E as (f & Hf & E).
      exists f. split; [exact Hf|]. unfold verify_file in E.
      destruct (decode_utf8 (snd f)); [discriminate|reflexivity].
    + exfalso. assert (H0 : main files = 0); [|lia].
      apply Hiff. intros f Hf.
      destruct (verify_file (snd f)) eqn:E'; [reflexivity|exfalso].
      assert (existsb (fun f => match verify_file (snd f) with
                                | [] => false
                                | _ => true
                                end) files = true); [|congruence].
      apply existsb_exists. exists f. rewrite E'. auto.
  - intros H. apply Hiff. intros f Hf. unfold verify_file.
    destruct (decode_utf8 (snd f)) eqn:E; [reflexivity|].
    exfalso. now apply (H f Hf).
Qed.

Lemma verifier_exit_code_witness :
  exists f, In f [("a.lisp"%string, mixed_file); ("b.lisp"%string, [65])]
            /\ decode_utf8 (snd f) = None.
Proof.
  apply (verifier_exit_code
           [("a.lisp"%string, mixed_file); ("b.lisp"%string, [65])]).
  reflexivity.
Defined.
(* ================================================================== *)
(** * The tree: reading, writing, sorting *)
(* ================================================================== *)

Import Tree.

Lemma lookup_store_same (l : list (string * bytes)) (p : string)
    (d : bytes) :
  lookup (store l p d) p = Some d.
Proof.
  induction l as [|[q c] l IH]; simpl.
  - now rewrite String.eqb_refl.
  - destruct (String.eqb q p) eqn:E; simpl; rewrite E; auto.
Qed.

Lemma lookup_store_other (l : list (string * bytes)) (p q : string)
    (d : bytes) :
  q <> p -> lookup (store l p d) q = lookup l q.
Proof.
  intros Hne. induction l as [|[k c] l IH]; simpl.
  - destruct (String.eqb_spec p q); [congruence|reflexivity].
  - destruct (String.eqb_spec k p) as [->|Hk]; simpl.
    + destruct (String.eqb_spec p q); [congruence|reflexivity].
    + destruct (String.eqb k q); auto.
Qed.

Lemma store_keys (l : list (string * bytes)) (p : string) (d : bytes) :
  lookup l p <> None -> map fst (store l p d) = map fst l.
Proof.
  induction l as [|[k c] l IH]; simpl; intros H; [congruence|].
  destruct (String.eqb k p); simpl; [reflexivity|]. now rewrite IH.
Qed.

Lemma read_keys (t : fs) (p : string) :
  read t p <> None <-> In p (map fst (contents t)).
Proof.
  unfold read. induction (contents t) as [|[k c] l IH]; simpl; [tauto|].
  destruct (String.eqb_spec k p) as [->|Hk].
  - split; [auto|discriminate].
  - rewrite IH. split; [auto|]. intros [E|E]; [congruence|exact E].
Qed.

Lemma dict_set_fresh {V : Type} (d : list (string * V)) (k : string)
    (v : V) :
  ~ In k (map fst d) -> dict_set d k v = d ++ [(k, v)].
Proof.
  induction d as [|[k' v'] d IH]; simpl; intros H; [reflexivity|].
  destruct (String.eqb_spec k' k) as [->|Hk]; [tauto|].
  rewrite IH; tauto.
Qed.

Lemma path_leb_spec (a b : string) :
  path_leb a b = true <-> a = b \/ String_as_OT.lt a b.
Proof.
  unfold path_leb.
  pose proof String_as_OT.lt_strorder as [Hirr Htr].
  destruct (String_as_OT.compare_spec a b) as [E|L|G].
  - split; auto.
  - split; auto.
  - split; [discriminate|]. intros [->|L].
    + exfalso. exact (Hirr b G).
    + exfalso. exact (Hirr a (Htr _ _ _ L G)).
Qed.

Lemma path_leb_total (a b : string) :
  path_leb a b = true \/ path_leb b a = true.
Proof.
  rewrite !path_leb_spec.
  destruct (String_as_OT.compare_spec a b) as [E|L|G]; auto.
Qed.

Lemma path_leb_trans (a b c : string) :
  path_leb a b = true -> path_leb b c = true -> path_leb a c = true.
Proof.
  rewrite !path_leb_spec.
  pose proof String_as_OT.lt_strorder as [_ Htr].
  intros [->|L1] [->|L2]; auto. right. exact (Htr _ _ _ L1 L2).
Qed.

Lemma insert_path_perm (x : string) (l : list string) :
  Permutation (insert_path x l) (x :: l).
Proof.
  induction l as [|y r IH]; simpl; [reflexivity|].
  destruct (path_leb x y); [reflexivity|].
  rewrite IH. apply perm_swap.
Qed.

Lemma sorted_perm (l : list string) : Permutation (sorted l) l.
Proof.
  induction l as [|x r IH]; simpl; [reflexivity|].
  rewrite insert_path_perm. now rewrite IH.
Qed.

Lemma sorted_In (l : list string) (x : string) : In x (sorted l) <-> In x l.
Proof.
  split; apply Permutation_in; [|symmetry]; apply sorted_perm.
Qed.

Lemma sorted_length (l : list string) : length (sorted l) = length l.
Proof. apply Permutation_length, sorted_perm. Qed.

Lemma sorted_NoDup (l : list string) : NoDup l -> NoDup (sorted l).
Proof.
  intros H. eapply Permutation_NoDup; [|exact H]. symmetry.
  apply sorted_perm.
Qed.

Lemma insert_path_sorted (x : string) (l : list string) :
  StronglySorted (fun a b => path_leb a b = true) l ->
  StronglySorted (fun a b => path_leb a b = true) (insert_path x l).
Proof.
  induction 1 as [|y r Hs IH Hall]; simpl.
  - repeat constructor.
  - destruct (path_leb x y) eqn:E.
    + constructor; [now constructor|]. constructor; [exact E|].
      rewrite Forall_forall in *. intros z Hz.
      eapply path_leb_trans; eauto.
    + constructor; [exact IH|].
      rewrite Forall_forall in *. intros z Hz.
      apply (Permutation_in _ (insert_path_perm x r)) in Hz.
      destruct Hz as [<-|Hz]; [|auto].
      destruct (path_leb_total x y); congruence.
Qed.

Lemma sorted_sorted (l : list string) :
  StronglySorted (fun a b => path_leb a b = true) (sorted l).
Proof.
  induction l as [|x r IH]; simpl; [constructor|].
  now apply insert_path_sorted.
Qed.

Lemma insert_path_head (x : string) (l : list string) :
  Forall (fun z => path_leb x z = true) l -> insert_path x l = x :: l.
Proof.
  destruct l as [|y r]; [reflexivity|]. intros H. simpl.
  now rewrite (Forall_inv H).
Qed.

Lemma insert_path_filter (p : string -> bool) (x : string)
    (l : list string) :
  StronglySorted (fun a b => path_leb a b = true) l ->
  filter p (insert_path x l)
  = if p x then insert_path x (filter p l) else filter p l.
Proof.
  induction 1 as [|y r Hs IH Hall]; simpl.
  - destruct (p x); reflexivity.
  - destruct (path_leb x y) eqn:E; simpl.
    + destruct (p x) eqn:Px; [|reflexivity].
      destruct (p y) eqn:Py; simpl; [now rewrite E|].
      symmetry. apply insert_path_head.
      rewrite Forall_forall in *. intros z Hz.
      apply filter_In in Hz. destruct Hz as [Hz _].
      eapply path_leb_trans; eauto.
    + rewrite IH. destruct (p y) eqn:Py, (p x) eqn:Px; simpl;
        rewrite ?E; reflexivity.
Qed.

(** Sorting and filtering commute. *)
Lemma sorted_filter (p : string -> bool) (l : list string) :
  sorted (filter p l) = filter p (sorted l).
Proof.
  induction l as [|x r IH]; simpl; [reflexivity|].
  rewrite insert_path_filter by apply sorted_sorted.
  destruct (p x); simpl; now rewrite IH.
Qed.

Lemma sorted_fixed (l : list string) :
  StronglySorted (fun a b => path_leb a b = true) l -> sorted l = l.
Proof.
  induction 1 as [|x r Hs IH Hall]; simpl; [reflexivity|].
  rewrite IH. now apply insert_path_head.
Qed.

Lemma sorted_idem (l : list string) : sorted (sorted l) = sorted l.
Proof. apply sorted_fixed, sorted_sorted. Qed.

(* ================================================================== *)
(** * [main] of the Converter *)
(* ================================================================== *)

Lemma process_file_dry (d : bytes) :
  fst (process_file d true) = fst (process_file d false)
  /\ snd (process_file d true) = d.
Proof.
  unfold process_file.
  destruct (existsb (fun b => 127 <? b) d); simpl; [|auto].
  destruct (is_valid_utf8 d); simpl; [auto|].
  now rewrite andb_false_r.
Qed.

Lemma process_file_fst (d : bytes) (dry_run : bool) :
  fst (process_file d dry_run) = fst (process_file d false).
Proof. destruct dry_run; [apply process_file_dry|reflexivity]. Qed.

(** [process_file] on a file of the tree: it gets through when the file can
    be written, or need not be. *)
Lemma process_path_eq (t : fs) (p : string) (d : bytes) (dry_run : bool) :
  read t p = Some d ->
  FixMain.process_path t p dry_run
  = if processable dry_run t p
    then Some (fst (process_file d false), write_back dry_run t p d)
    else None.
Proof.
  intros H. unfold FixMain.process_path, processable, write_back, converted.
  rewrite H. destruct dry_run.
  - pose proof (process_file_fst d true) as E.
    destruct (process_file d true) as [r c]. cbn [fst] in E. subst r.
    now rewrite !andb_false_r.
  - destruct (process_file d false) as [r c]. cbn [fst snd]. unfold write.
    destruct (res_modified r); cbn [andb negb orb]; [|reflexivity].
    now destruct (writable t p).
Qed.

Lemma processable_read (dry_run : bool) (t : fs) (p : string) :
  processable dry_run t p = true -> read t p <> None.
Proof. unfold processable. now destruct (read t p). Qed.

(** [processable], spelled out. *)
Lemma processable_iff (dry_run : bool) (t : fs) (p : string) :
  processable dry_run t p = true <->
  exists d, read t p = Some d
            /\ (dry_run = true
                \/ res_changes (fst (process_file d false)) = []
                \/ writable t p = true).
Proof.
  unfold processable. destruct (read t p) as [d|].
  - assert (Hm : res_modified (fst (process_file d false)) = false
                 <-> res_changes (fst (process_file d false)) = []).
    { unfold process_file.
      destruct (existsb (fun b => 127 <? b) d); cbn; [|tauto].
      destruct (is_valid_utf8 d); cbn; [tauto|]. apply len_nil_iff. }
    split.
    + intros H. exists d. split; [reflexivity|].
      destruct dry_run; [now left|right].
      destruct (res_modified (fst (process_file d false)));
        [right; exact H|left; now apply Hm].
    + intros (d' & E & H). injection E as <-.
      destruct H as [->|[H|H]].
      * now rewrite andb_false_r.
      * apply Hm in H. now rewrite H.
      * rewrite H. apply orb_true_r.
  - split; [discriminate|]. intros (d & E & _). discriminate.
Qed.

Lemma processable_dry (t : fs) (p : string) :
  processable true t p = true <-> read t p <> None.
Proof.
  unfold processable. destruct (read t p); [|split; congruence].
  rewrite andb_false_r. split; [discriminate|reflexivity].
Qed.

Lemma exclude_fold (l : list string) (n : Z) (acc : list string) :
  fold_left FixMain.exclude_body l (n, acc)
  = (n + len (filter FixMain.is_excluded l),
     acc ++ filter (fun p => negb (FixMain.is_excluded p)) l).
Proof.
  revert n acc; induction l as [|p l IH]; intros n acc.
  - simpl. unfold len. simpl. now rewrite Z.add_0_r, app_nil_r.
  - cbn [fold_left filter FixMain.exclude_body].
    destruct (FixMain.is_excluded p); cbn [negb]; rewrite IH.
    + f_equal. unfold len. cbn [length]. lia.
    + f_equal. now rewrite <- app_assoc.
Qed.

(** The list of files [main] walks, in closed form. *)
Lemma file_list_eq (a : FixMain.args) (globbed : list string) :
  FixMain.file_list a globbed
  = let base := match FixMain.report a with
                | Some keys => keys
                | None => sorted globbed
                end in
    if FixMain.include_excluded a then base
    else filter (fun p => negb (FixMain.is_excluded p)) base.
Proof.
  unfold FixMain.file_list. cbn zeta.
  destruct (FixMain.include_excluded a); [reflexivity|].
  cbn [negb]. now rewrite exclude_fold.
Qed.

(** The paths [glob] found are distinct, and so are those [main] walks. *)
Lemma glob_list_NoDup (dry inc : bool) (globbed : list string) :
  NoDup globbed ->
  NoDup (FixMain.file_list (FixMain.mk_args dry None inc) globbed).
Proof.
  intros H. rewrite file_list_eq.
  cbn [FixMain.report FixMain.include_excluded]. cbn zeta.
  destruct inc; [|apply NoDup_filter]; now apply sorted_NoDup.
Qed.

Lemma file_body_eq (dry_run : bool) (t : fs) (acc : FixMain.tally)
    (p : string) (d : bytes) :
  read t p = Some d ->
  processable dry_run t p = true ->
  ~ In p (map fst (FixMain.all_changes acc)) ->
  ~ In p (map fst (FixMain.all_warnings acc)) ->
  FixMain.file_body dry_run t acc p
  = Some (write_back dry_run t p d,
          FixMain.mk_tally
            (FixMain.all_changes acc ++ change_entry t p)
            (FixMain.all_warnings acc ++ warning_entry t p)
            (FixMain.skipped_utf8 acc + (if is_utf8 d then 1 else 0))
            (FixMain.skipped_clean acc + (if is_clean d then 1 else 0))).
Proof.
  intros Hr Hp Hc Hw. unfold FixMain.file_body.
  rewrite (process_path_eq t p d dry_run Hr), Hp.
  unfold change_entry, warning_entry, is_utf8, is_clean. rewrite Hr.
  unfold FixMain.skipped_is, process_file.
  destruct (existsb (fun b => 127 <? b) d); cbn [negb andb fst].
  - destruct (is_valid_utf8 d); cbn [fst res_skipped res_changes res_warnings].
    + change (String.eqb skipped_utf8 skipped_utf8) with true. cbv iota.
      now rewrite !app_nil_r, Z.add_0_r.
    + cbv iota. rewrite !Z.add_0_r.
      destruct (changes (snd (walk d))), (warnings (snd (walk d)));
        rewrite ?app_nil_r, ?dict_set_fresh by assumption; reflexivity.
  - cbn [fst res_skipped res_changes res_warnings].
    change (String.eqb skipped_clean skipped_utf8) with false.
    change (String.eqb skipped_clean skipped_clean) with true. cbv iota.
    now rewrite !app_nil_r, Z.add_0_r.
Qed.

Lemma write_back_read_other (dry_run : bool) (t : fs) (p q : string)
    (d : bytes) :
  q <> p -> read (write_back dry_run t p d) q = read t q.
Proof.
  intros H. unfold write_back, read.
  destruct (_ && _); [now apply lookup_store_other|reflexivity].
Qed.

Lemma write_back_keys (dry_run : bool) (t : fs) (p : string) (d : bytes) :
  read t p = Some d ->
  map fst (contents (write_back dry_run t p d)) = map fst (contents t).
Proof.
  intros H. unfold write_back.
  destruct (_ && _); [|reflexivity].
  apply store_keys. unfold read in H. congruence.
Qed.

Lemma write_back_read_only (dry_run : bool) (t : fs) (p : string)
    (d : bytes) :
  read_only (write_back dry_run t p d) = read_only t.
Proof. unfold write_back. now destruct (_ && _). Qed.

Lemma write_back_dry (t : fs) (p : string) (d : bytes) :
  write_back true t p d = t.
Proof. unfold write_back. now rewrite andb_false_r. Qed.

Lemma write_back_read_same (t : fs) (p : string) (d : bytes) :
  read t p = Some d -> read (write_back false t p d) p = Some (converted d).
Proof.
  intros H. unfold write_back.
  destruct (res_modified (fst (process_file d false))) eqn:E; cbn [andb negb].
  - apply lookup_store_same.
  - rewrite H. f_equal. symmetry. apply no_changes_unchanged.
    revert E. unfold process_file.
    destruct (existsb (fun b => 127 <? b) d); simpl; [|reflexivity].
    destruct (is_valid_utf8 d); simpl; [reflexivity|].
    intros E. now apply len_nil_iff.
Qed.

Lemma write_back_processable (dry_run dry' : bool) (t : fs) (p q : string)
    (d : bytes) :
  q <> p ->
  processable dry' (write_back dry_run t p d) q = processable dry' t q.
Proof.
  intros H. unfold processable, writable.
  now rewrite write_back_read_other, write_back_read_only.
Qed.

(** One step of the loop, whatever the tally holds. *)
Lemma file_body_tree (dry_run : bool) (t : fs) (acc : FixMain.tally)
    (p : string) :
  match FixMain.file_body dry_run t acc p with
  | None => processable dry_run t p = false
  | Some (t', acc') =>
      processable dry_run t p = true
      /\ exists d, read t p = Some d /\ t' = write_back dry_run t p d
                /\ (forall k, In k (map fst (FixMain.all_changes acc')) ->
                              k = p \/ In k (map fst (FixMain.all_changes acc)))
                /\ (forall k, In k (map fst (FixMain.all_warnings acc')) ->
                              k = p \/ In k (map fst (FixMain.all_warnings acc)))
  end.
Proof.
  unfold FixMain.file_body. destruct (read t p) as [d|] eqn:Hr.
  - rewrite (process_path_eq t p d dry_run Hr).
    destruct (processable dry_run t p); [|reflexivity].
    assert (Hset : forall (V : Type) (dd : list (string * V)) v k,
               In k (map fst (dict_set dd p v)) ->
               k = p \/ In k (map fst dd)).
    { intros V dd v k. induction dd as [|[k' v'] dd IH]; simpl.
      - intros [<-|[]]. now left.
      - destruct (String.eqb_spec k' p) as [->|Hk]; simpl.
        + intros [<-|H]; auto.
        + intros [<-|H]; auto. destruct (IH H); auto. }
    destruct (FixMain.skipped_is _ skipped_utf8);
      [split; [reflexivity|]; exists d; cbn; auto|].
    destruct (FixMain.skipped_is _ skipped_clean);
      [split; [reflexivity|]; exists d; cbn; auto|].
    split; [reflexivity|].
    exists d. cbn [FixMain.all_changes FixMain.all_warnings].
    repeat split; auto.
    + destruct (res_changes _); [auto|apply Hset].
    + destruct (res_warnings _); [auto|apply Hset].
  - unfold FixMain.process_path, processable. now rewrite Hr.
Qed.

(** The tree the loop leaves: the same paths, the same read-only files, and
    nothing touched outside the files walked; nothing at all in a dry
    run. *)
Lemma run_tree (dry_run : bool) (files : list string) :
  forall (t : fs) (acc : FixMain.tally),
    let t' := fst (FixMain.run dry_run files t acc) in
    (map fst (contents t') = map fst (contents t)
     /\ read_only t' = read_only t)
    /\ (forall q, ~ In q files -> read t' q = read t q)
    /\ (dry_run = true -> t' = t)
    /\ (forall acc', snd (FixMain.run dry_run files t acc) = Some acc' ->
        (forall k, In k (map fst (FixMain.all_changes acc')) ->
                   In k files \/ In k (map fst (FixMain.all_changes acc)))
        /\ (forall k, In k (map fst (FixMain.all_warnings acc')) ->
                      In k files
                      \/ In k (map fst (FixMain.all_warnings acc)))).
Proof.
  cbn zeta. induction files as [|p rest IH]; intros t acc.
  - simpl. split; [auto|]. split; [auto|]. split; [auto|].
    intros acc' E. injection E as <-. split; auto.
  - cbn [FixMain.run].
    pose proof (file_body_tree dry_run t acc p) as Hb.
    destruct (FixMain.file_body dry_run t acc p) as [[t1 acc1]|].
    + destruct Hb as (_ & d & Hr & -> & Hk1 & Hk2).
      destruct (IH (write_back dry_run t p d) acc1)
        as ((I1 & I1') & I2 & I3 & I4).
      split; [|split; [|split]].
      * rewrite I1, I1'. split; [now apply write_back_keys|].
        apply write_back_read_only.
      * intros q Hq. rewrite I2 by (intros E; apply Hq; now right).
        apply write_back_read_other. intros ->. apply Hq. now left.
      * intros ->. rewrite I3 by reflexivity. apply write_back_dry.
      * intros acc' E. destruct (I4 acc' E) as [J1 J2]. split.
        -- intros k Hk. destruct (J1 k Hk) as [H|H]; [left; now right|].
           destruct (Hk1 k H) as [->|H']; [left; now left|now right].
        -- intros k Hk. destruct (J2 k Hk) as [H|H]; [left; now right|].
           destruct (Hk2 k H) as [->|H']; [left; now left|now right].
    + simpl. split; [auto|]. split; [auto|]. split; [auto|].
      intros acc' E. discriminate.
Qed.

(** The loop over distinct files gets to its end exactly when
    [process_file] gets through every one of them. *)
Lemma run_completes (dry_run : bool) (files : list string) :
  forall (t : fs) (acc : FixMain.tally),
    NoDup files ->
    (snd (FixMain.run dry_run files t acc) <> None
     <-> forall p, In p files -> processable dry_run t p = true).
Proof.
  induction files as [|p rest IH]; intros t acc Hnd.
  - simpl. split; [intros _ p []|discriminate].
  - inversion Hnd as [|? ? Hp Hnd']; subst. cbn [FixMain.run].
    pose proof (file_body_tree dry_run t acc p) as Hb.
    destruct (FixMain.file_body dry_run t acc p) as [[t1 acc1]|].
    + destruct Hb as (Hproc & d & Hr & -> & _). rewrite (IH _ _ Hnd').
      split.
      * intros H q [<-|Hq]; [exact Hproc|].
        rewrite <- (write_back_processable dry_run dry_run t p q d)
          by (intros ->; contradiction).
        now apply H.
      * intros H q Hq. rewrite write_back_processable
          by (intros ->; contradiction).
        apply H. now right.
    + simpl. split; [congruence|]. intros H. exfalso.
      rewrite (H p (or_introl eq_refl)) in Hb. discriminate.
Qed.

Lemma flat_map_ext_in {A B : Type} (f g : A -> list B) (l : list A) :
  (forall x, In x l -> f x = g x) -> flat_map f l = flat_map g l.
Proof.
  induction l as [|x l IH]; intros H; [reflexivity|].
  cbn [flat_map]. rewrite (H x) by now left.
  rewrite IH; [reflexivity|]. intros y Hy. apply H. now right.
Qed.

Lemma filter_ext_in_len {A : Type} (f g : A -> bool) (l : list A) :
  (forall x, In x l -> f x = g x) -> len (filter f l) = len (filter g l).
Proof.
  intros H. unfold len. f_equal. f_equal. induction l as [|x l IH];
    [reflexivity|].
  cbn [filter]. rewrite (H x) by now left.
  rewrite IH; [reflexivity|]. intros y Hy. apply H. now right.
Qed.

(** What the loop builds over distinct files it gets through, from the
    contents the tree holds at the start. *)
Lemma run_tally (dry_run : bool) (files : list string) :
  forall (t : fs) (acc : FixMain.tally),
    NoDup files ->
    (forall p, In p files -> processable dry_run t p = true) ->
    (forall p, In p files ->
               ~ In p (map fst (FixMain.all_changes acc))
               /\ ~ In p (map fst (FixMain.all_warnings acc))) ->
    snd (FixMain.run dry_run files t acc)
    = Some (FixMain.mk_tally
              (FixMain.all_changes acc ++ flat_map (change_entry t) files)
              (FixMain.all_warnings acc ++ flat_map (warning_entry t) files)
              (FixMain.skipped_utf8 acc
               + len (filter (content_is is_utf8 t) files))
              (FixMain.skipped_clean acc
               + len (filter (content_is is_clean t) files))).
Proof.
  induction files as [|p rest IH]; intros t acc Hnd Hproc Hfresh.
  - simpl. unfold len. simpl. rewrite !app_nil_r, !Z.add_0_r.
    now destruct acc.
  - inversion Hnd as [|? ? Hp Hnd']; subst.
    pose proof (Hproc p (or_introl eq_refl)) as Hpp.
    destruct (read t p) as [d|] eqn:Hr;
      [|exfalso; apply (processable_read dry_run t p Hpp); exact Hr].
    destruct (Hfresh p (or_introl eq_refl)) as [Hf1 Hf2].
    cbn [FixMain.run].
    rewrite (file_body_eq dry_run t acc p d Hr Hpp Hf1 Hf2).
    assert (Hsame : forall q, In q rest ->
                              read (write_back dry_run t p d) q = read t q).
    { intros q Hq. apply write_back_read_other. intros ->. contradiction. }
    rewrite IH; [| exact Hnd' | |].
    + cbn [FixMain.all_changes FixMain.all_warnings FixMain.skipped_utf8
           FixMain.skipped_clean].
      rewrite (flat_map_ext_in (change_entry (write_back dry_run t p d))
                 (change_entry t) rest)
        by (intros q Hq; unfold change_entry; now rewrite Hsame).
      rewrite (flat_map_ext_in (warning_entry (write_back dry_run t p d))
                 (warning_entry t) rest)
        by (intros q Hq; unfold warning_entry; now rewrite Hsame).
      rewrite (filter_ext_in_len
                 (content_is is_utf8 (write_back dry_run t p d))
                 (content_is is_utf8 t) rest)
        by (intros q Hq; unfold content_is; now rewrite Hsame).
      rewrite (filter_ext_in_len
                 (content_is is_clean (write_back dry_run t p d))
                 (content_is is_clean t) rest)
        by (intros q Hq; unfold content_is; now rewrite Hsame).
      assert (Hu : content_is is_utf8 t p = is_utf8 d)
        by (unfold content_is; now rewrite Hr).
      assert (Hc : content_is is_clean t p = is_clean d)
        by (unfold content_is; now rewrite Hr).
      cbn [flat_map filter]. rewrite Hu, Hc.
      rewrite <- !app_assoc. f_equal. f_equal.
      * unfold len. destruct (is_utf8 d); cbn [length]; lia.
      * unfold len. destruct (is_clean d); cbn [length]; lia.
    + intros q Hq. rewrite write_back_processable
        by (intros ->; contradiction).
      apply Hproc. now right.
    + intros q Hq. cbn [FixMain.all_changes FixMain.all_warnings].
      destruct (Hfresh q (or_intror Hq)) as [G1 G2].
      assert (Hqp : q <> p) by (intros ->; contradiction).
      rewrite !map_app, !in_app_iff. unfold change_entry, warning_entry.
      rewrite Hr. split; intros [H|H]; try contradiction.
      * destruct (res_changes _); simpl in H; [contradiction|].
        destruct H as [H|[]]. congruence.
      * destruct (res_warnings _); simpl in H; [contradiction|].
        destruct H as [H|[]]. congruence.
Qed.

(** The content of every file walked by a real run that gets to its end. *)
Lemma run_converted (files : list string) :
  forall (t : fs) (acc : FixMain.tally),
    NoDup files ->
    snd (FixMain.run false files t acc) <> None ->
    forall q d, In q files -> read t q = Some d ->
                read (fst (FixMain.run false files t acc)) q
                = Some (converted d).
Proof.
  induction files as [|p rest IH]; intros t acc Hnd Hdone q d Hq Hr.
  - contradiction.
  - inversion Hnd as [|? ? Hp Hnd']; subst. cbn [FixMain.run] in *.
    pose proof (file_body_tree false t acc p) as Hb.
    destruct (FixMain.file_body false t acc p) as [[t1 acc1]|];
      [|simpl in Hdone; congruence].
    destruct Hb as (_ & dp & Hrp & -> & _).
    destruct Hq as [<-|Hq].
    + destruct (run_tree false rest (write_back false t p dp) acc1)
        as (_ & Hout & _).
      rewrite Hout by exact Hp. rewrite Hr in Hrp. injection Hrp as <-.
      now apply write_back_read_same.
    + apply IH; auto. rewrite write_back_read_other; [exact Hr|].
      intros ->. contradiction.
Qed.

Ltac nodup_paths :=
  repeat (constructor; [simpl; intuition discriminate|]); constructor.

Lemma main_fst (a : FixMain.args) (globbed : list string) (t : fs) :
  fst (FixMain.main a globbed t)
  = fst (FixMain.run (FixMain.dry_run a)
           (sorted (FixMain.file_list a globbed)) t
           (FixMain.mk_tally [] [] 0 0)).
Proof. unfold FixMain.main. now destruct (FixMain.run _ _ _ _). Qed.

Lemma main_snd (a : FixMain.args) (globbed : list string) (t : fs) :
  snd (FixMain.main a globbed t)
  = option_map (FixMain.summary a (FixMain.file_list a globbed))
      (snd (FixMain.run (FixMain.dry_run a)
              (sorted (FixMain.file_list a globbed)) t
              (FixMain.mk_tally [] [] 0 0))).
Proof. unfold FixMain.main. now destruct (FixMain.run _ _ _ _). Qed.

(** What [main] reports over distinct files it gets through. *)
Lemma main_report (a : FixMain.args) (globbed : list string) (t : fs) :
  NoDup (FixMain.file_list a globbed) ->
  (forall p, In p (FixMain.file_list a globbed) ->
             processable (FixMain.dry_run a) t p = true) ->
  let files := FixMain.file_list a globbed in
  snd (FixMain.main a globbed t)
  = Some (FixMain.summary a files
            (FixMain.mk_tally
               (flat_map (change_entry t) (sorted files))
               (flat_map (warning_entry t) (sorted files))
               (len (filter (content_is is_utf8 t) (sorted files)))
               (len (filter (content_is is_clean t) (sorted files))))).
Proof.
  intros Hnd Hproc. cbn zeta. rewrite main_snd, run_tally.
  - reflexivity.
  - now apply sorted_NoDup.
  - intros p Hp. apply Hproc. now apply sorted_In.
  - intros p _. simpl. auto.
Qed.

Lemma main_done (a : FixMain.args) (globbed : list string) (t : fs) :
  NoDup (FixMain.file_list a globbed) ->
  (snd (FixMain.main a globbed t) <> None
   <-> forall p, In p (FixMain.file_list a globbed) ->
                 processable (FixMain.dry_run a) t p = true).
Proof.
  intros Hnd. rewrite main_snd.
  pose proof (run_completes (FixMain.dry_run a)
                (sorted (FixMain.file_list a globbed)) t
                (FixMain.mk_tally [] [] 0 0)
                (sorted_NoDup _ Hnd)) as Hc.
  destruct (snd (FixMain.run _ _ _ _)) eqn:E.
  - split; [|discriminate]. intros _ p Hp.
    apply Hc; [discriminate|now apply sorted_In].
  - split; [intros H; now elim H|]. intros H. exfalso.
    apply Hc; [|reflexivity]. intros p Hp. apply H. now apply sorted_In.
Qed.

(** X7.  When the Converter finishes.  Over the files [glob] finds, [main]
    gets to its report exactly when [process_file] gets through every file
    of its list: the file can be read and, unless the run is a dry run or
    has nothing to change in it, opened for writing (nothing catches the
    error [open] raises).  Finished or not, it leaves the tree with the
    paths and the read-only files it had, and a dry run leaves the tree as
    it was. *)
Theorem converter_finishes (dry inc : bool) (globbed : list string)
    (t : fs) :
  NoDup globbed ->
  let a := FixMain.mk_args dry None inc in
  (snd (FixMain.main a globbed t) <> None
   <-> forall p, In p (FixMain.file_list a globbed) ->
         exists d, read t p = Some d
                   /\ (dry = true
                       \/ res_changes (fst (process_file d false)) = []
                       \/ writable t p = true))
  /\ map fst (contents (fst (FixMain.main a globbed t)))
     = map fst (contents t)
  /\ read_only (fst (FixMain.main a globbed t)) = read_only t
  /\ (dry = true -> fst (FixMain.main a globbed t) = t).
Proof.
  intros Hnd. cbn zeta. split.
  - rewrite (main_done _ globbed t (glob_list_NoDup dry inc globbed Hnd)).
    cbn [FixMain.dry_run].
    split; intros H p Hp; apply processable_iff, H, Hp.
  - rewrite main_fst.
    destruct (run_tree dry
                (sorted (FixMain.file_list (FixMain.mk_args dry None inc)
                           globbed)) t
                (FixMain.mk_tally [] [] 0 0)) as ((H1 & H1') & _ & H3 & _).
    auto.
Qed.

Lemma converter_finishes_witness :
  snd (FixMain.main (FixMain.mk_args false None false) sample_paths
         locked_tree) <> None
  <-> forall p,
        In p (FixMain.file_list (FixMain.mk_args false None false)
                sample_paths) ->
        exists d, read locked_tree p = Some d
                  /\ (false = true
                      \/ res_changes (fst (process_file d false)) = []
                      \/ writable locked_tree p = true).
Proof.
  apply (converter_finishes false false sample_paths locked_tree).
  nodup_paths.
Defined.

Lemma is_excluded_prefix (p : string) :
  FixMain.is_excluded p = String.prefix "books/quicklisp/" p.
Proof. unfold FixMain.is_excluded. simpl. apply orb_false_r. Qed.

Lemma file_list_excluded (a : FixMain.args) (globbed : list string)
    (p : string) :
  FixMain.include_excluded a = false -> FixMain.is_excluded p = true ->
  ~ In p (FixMain.file_list a globbed).
Proof.
  intros Hi He. rewrite file_list_eq. cbn zeta. rewrite Hi.
  intros H. apply filter_In in H. destruct H as [_ H].
  rewrite He in H. discriminate.
Qed.

(** X8.  Excluded directories.  Over the files [glob] finds and without
    [--include-excluded], a file whose path starts with [books/quicklisp/]
    is not in the list [main] walks: its content is not touched and it has
    no entry in the changes or the warnings of the report; the files
    counted as processed are the others. *)
Theorem excluded_files_untouched (dry : bool) (globbed : list string)
    (t : fs) (p : string) :
  String.prefix "books/quicklisp/" p = true ->
  let a := FixMain.mk_args dry None false in
  ~ In p (FixMain.file_list a globbed)
  /\ read (fst (FixMain.main a globbed t)) p = read t p
  /\ forall r, snd (FixMain.main a globbed t) = Some r ->
       ~ In p (map fst (FixMain.out_changes r))
       /\ ~ In p (map fst (FixMain.out_warnings r))
       /\ FixMain.files_processed r
          = len (filter (fun q => negb (String.prefix "books/quicklisp/" q))
                   (sorted globbed)).
Proof.
  intros Hp. cbn zeta. set (a := FixMain.mk_args dry None false).
  rewrite <- is_excluded_prefix in Hp.
  pose proof (file_list_excluded a globbed p eq_refl Hp) as Hout.
  assert (Hout' : ~ In p (sorted (FixMain.file_list a globbed)))
    by (intros H; apply Hout; now apply sorted_In).
  destruct (run_tree (FixMain.dry_run a)
              (sorted (FixMain.file_list a globbed)) t
              (FixMain.mk_tally [] [] 0 0)) as (_ & H2 & _ & H4).
  split; [exact Hout|]. split; [rewrite main_fst; now apply H2|].
  intros r Hr. rewrite main_snd in Hr.
  destruct (snd (FixMain.run _ _ _ _)) as [acc|]; [|discriminate].
  injection Hr as <-. destruct (H4 acc eq_refl) as [K1 K2].
  cbn [FixMain.summary FixMain.out_changes FixMain.out_warnings
       FixMain.files_processed].
  split; [|split].
  - intros H. destruct (K1 p H) as [H'|[]]. contradiction.
  - intros H. destruct (K2 p H) as [H'|[]]. contradiction.
  - rewrite file_list_eq. unfold a.
    cbn [FixMain.report FixMain.include_excluded]. cbn zeta. f_equal.
    apply filter_ext. intros q. now rewrite is_excluded_prefix.
Qed.

Lemma excluded_files_untouched_witness :
  read (fst (FixMain.main (FixMain.mk_args false None false) sample_paths
               sample_tree)) "books/quicklisp/q.lisp"
  = read sample_tree "books/quicklisp/q.lisp".
Proof.
  destruct (excluded_files_untouched false sample_paths sample_tree
              "books/quicklisp/q.lisp" eq_refl) as (_ & H & _).
  exact H.
Defined.

Lemma change_entries_In (t : fs) (files : list string) (p : string)
    (chs : list change) :
  In (p, chs) (flat_map (change_entry t) files) <->
  In p files /\ chs <> []
  /\ exists d, read t p = Some d
               /\ res_changes (fst (process_file d false)) = chs.
Proof.
  rewrite in_flat_map. unfold change_entry. split.
  - intros (q & Hq & H). destruct (read t q) as [d|] eqn:Hr; [|contradiction].
    destruct (res_changes (fst (process_file d false))) eqn:E;
      [contradiction|].
    destruct H as [H|[]]. injection H as <- <-.
    split; [exact Hq|]. split; [discriminate|]. eauto.
  - intros (Hp & Hne & d & Hr & E). exists p. split; [exact Hp|].
    rewrite Hr, E. destruct chs; [congruence|now left].
Qed.

Lemma warning_entries_In (t : fs) (files : list string) (p : string)
    (ws : list warning) :
  In (p, ws) (flat_map (warning_entry t) files) <->
  In p files /\ ws <> []
  /\ exists d, read t p = Some d
               /\ res_warnings (fst (process_file d false)) = ws.
Proof.
  rewrite in_flat_map. unfold warning_entry. split.
  - intros (q & Hq & H). destruct (read t q) as [d|] eqn:Hr; [|contradiction].
    destruct (res_warnings (fst (process_file d false))) eqn:E;
      [contradiction|].
    destruct H as [H|[]]. injection H as <- <-.
    split; [exact Hq|]. split; [discriminate|]. eauto.
  - intros (Hp & Hne & d & Hr & E). exists p. split; [exact Hp|].
    rewrite Hr, E. destruct ws; [congruence|now left].
Qed.

(** The report of a run over the files [glob] finds that gets to its
    end. *)
Lemma glob_report (dry inc : bool) (globbed : list string) (t : fs)
    (r : FixMain.report_out) :
  NoDup globbed ->
  let a := FixMain.mk_args dry None inc in
  let files := FixMain.file_list a globbed in
  snd (FixMain.main a globbed t) = Some r ->
  (forall p, In p files -> processable dry t p = true)
  /\ r = FixMain.summary a files
           (FixMain.mk_tally
              (flat_map (change_entry t) (sorted files))
              (flat_map (warning_entry t) (sorted files))
              (len (filter (content_is is_utf8 t) (sorted files)))
              (len (filter (content_is is_clean t) (sorted files)))).
Proof.
  intros Hnd a files Hr.
  pose proof (glob_list_NoDup dry inc globbed Hnd) as Hnd'.
  assert (Hproc : forall p, In p files -> processable dry t p = true)
    by (apply (main_done a globbed t Hnd'); rewrite Hr; discriminate).
  split; [exact Hproc|].
  rewrite (main_report a globbed t Hnd' Hproc) in Hr. now injection Hr.
Qed.

(** X9.  The entries of the report.  When [main] finishes over the files
    [glob] finds, its report lists under [changes] exactly the files of its
    list for which [process_file] returns changes, each with the changes
    [process_file] computes from the content the file had at the start, and
    likewise under [warnings]. *)
Theorem report_entries (dry inc : bool) (globbed : list string) (t : fs)
    (r : FixMain.report_out) :
  NoDup globbed ->
  let a := FixMain.mk_args dry None inc in
  snd (FixMain.main a globbed t) = Some r ->
  (forall p chs,
     In (p, chs) (FixMain.out_changes r) <->
     In p (FixMain.file_list a globbed) /\ chs <> []
     /\ exists d, read t p = Some d
                  /\ res_changes (fst (process_file d dry)) = chs)
  /\ (forall p ws,
        In (p, ws) (FixMain.out_warnings r) <->
        In p (FixMain.file_list a globbed) /\ ws <> []
        /\ exists d, read t p = Some d
                     /\ res_warnings (fst (process_file d dry)) = ws).
Proof.
  intros Hnd a Hr.
  destruct (glob_report dry inc globbed t r Hnd Hr) as [_ ->].
  cbn [FixMain.summary FixMain.out_changes FixMain.out_warnings
       FixMain.all_changes FixMain.all_warnings].
  split.
  - intros p chs. rewrite change_entries_In, sorted_In.
    split; intros (H1 & H2 & d & H3 & H4); repeat split; auto;
      exists d; split; auto.
    + now rewrite process_file_fst.
    + now rewrite process_file_fst in H4.
  - intros p ws. rewrite warning_entries_In, sorted_In.
    split; intros (H1 & H2 & d & H3 & H4); repeat split; auto;
      exists d; split; auto.
    + now rewrite process_file_fst.
    + now rewrite process_file_fst in H4.
Qed.

Lemma report_entries_witness :
  In ("a.lisp"%string, [mk_change 1 6 "0xe9" [233]])
     (FixMain.out_changes
        (FixMain.mk_report_out false 3 0 1 2 2 1
           [("a.lisp"%string, [mk_change 1 6 "0xe9" [233]]);
            ("b.lisp"%string, [mk_change 2 3 "0xe9" [233]])]
           [("b.lisp"%string,
             [mk_warning 1 2 "0xe9" [233] [34; 233; 34] reason_in_code])]))
  <-> In "a.lisp"%string
        (FixMain.file_list (FixMain.mk_args false None false) sample_paths)
      /\ [mk_change 1 6 "0xe9" [233]] <> []
      /\ exists d, read sample_tree "a.lisp" = Some d
                   /\ res_changes (fst (process_file d false))
                      = [mk_change 1 6 "0xe9" [233]].
Proof.
  destruct (report_entries false false sample_paths sample_tree
              (FixMain.mk_report_out false 3 0 1 2 2 1
                 [("a.lisp"%string, [mk_change 1 6 "0xe9" [233]]);
                  ("b.lisp"%string, [mk_change 2 3 "0xe9" [233]])]
                 [("b.lisp"%string,
                   [mk_warning 1 2 "0xe9" [233] [34; 233; 34]
                      reason_in_code])])) as [H _].
  - nodup_paths.
  - reflexivity.
  - apply H.
Defined.

Lemma valid_all_ascii (d : bytes) :
  existsb (fun b => 127 <? b) d = false -> is_valid_utf8 d = true.
Proof.
  induction d as [|b r IH]; intros H; [reflexivity|].
  cbn [existsb] in H. apply orb_false_elim in H. destruct H as [Hb Hr].
  apply Z.ltb_ge in Hb. rewrite valid_cons_ascii by lia. now apply IH.
Qed.

(** Every readable file is of exactly one kind. *)
Lemma kinds_partition (t : fs) (files : list string) :
  (forall p, In p files -> read t p <> None) ->
  len files
  = len (filter (content_is is_utf8 t) files)
    + len (filter (content_is is_clean t) files)
    + len (filter (content_is (fun d => negb (is_valid_utf8 d)) t) files).
Proof.
  unfold len. induction files as [|p files IH]; intros H; [reflexivity|].
  assert (IH' := IH (fun q Hq => H q (or_intror Hq))).
  destruct (read t p) as [d|] eqn:Hr;
    [|exfalso; apply (H p); [now left|exact Hr]].
  assert (Hu : content_is is_utf8 t p = is_utf8 d)
    by (unfold content_is; now rewrite Hr).
  assert (Hc : content_is is_clean t p = is_clean d)
    by (unfold content_is; now rewrite Hr).
  assert (Hi : content_is (fun d => negb (is_valid_utf8 d)) t p
               = negb (is_valid_utf8 d))
    by (unfold content_is; now rewrite Hr).
  assert (Hk : (is_utf8 d = true /\ is_clean d = false
                /\ is_valid_utf8 d = true)
               \/ (is_utf8 d = false /\ is_clean d = true
                   /\ is_valid_utf8 d = true)
               \/ (is_utf8 d = false /\ is_clean d = false
                   /\ is_valid_utf8 d = false)).
  { unfold is_utf8, is_clean.
    destruct (existsb (fun b => 127 <? b) d) eqn:E.
    - destruct (is_valid_utf8 d); auto.
    - rewrite (valid_all_ascii d E). auto. }
  cbn [filter]. rewrite Hu, Hc, Hi.
  destruct Hk as [(-> & -> & ->)|[(-> & -> & ->)|(-> & -> & ->)]];
    cbn [negb length]; lia.
Qed.

(** X10.  The counters of the report.  When [main] finishes over the files
    [glob] finds, every file of its list is counted once:
    [files_processed] is the length of the list and is the sum of
    [skipped_utf8] (the files with a byte above 127 that decode as UTF-8),
    [skipped_clean] (the files without a byte above 127) and the number of
    files that do not decode as UTF-8; [files_changed] is the number of
    entries under [changes]. *)
Theorem report_counters (dry inc : bool) (globbed : list string) (t : fs)
    (r : FixMain.report_out) :
  NoDup globbed ->
  let a := FixMain.mk_args dry None inc in
  snd (FixMain.main a globbed t) = Some r ->
  let files := FixMain.file_list a globbed in
  FixMain.files_processed r = len files
  /\ FixMain.out_skipped_utf8 r = len (filter (content_is is_utf8 t) files)
  /\ FixMain.out_skipped_clean r = len (filter (content_is is_clean t) files)
  /\ FixMain.files_processed r
     = FixMain.out_skipped_utf8 r + FixMain.out_skipped_clean r
       + len (filter (content_is (fun d => negb (is_valid_utf8 d)) t) files)
  /\ FixMain.files_changed r = len (FixMain.out_changes r)
  /\ FixMain.out_dry_run r = dry.
Proof.
  intros Hnd a Hr. cbn zeta.
  destruct (glob_report dry inc globbed t r Hnd Hr) as [Hproc ->].
  cbn [FixMain.summary FixMain.files_processed FixMain.out_skipped_utf8
       FixMain.out_skipped_clean FixMain.files_changed FixMain.out_changes
       FixMain.out_dry_run FixMain.skipped_utf8 FixMain.skipped_clean
       FixMain.all_changes].
  assert (Hlen : forall f, len (filter f (sorted (FixMain.file_list a globbed)))
                           = len (filter f (FixMain.file_list a globbed))).
  { intros f. unfold len. f_equal. rewrite <- sorted_filter.
    apply sorted_length. }
  rewrite !Hlen. repeat split; auto.
  apply kinds_partition. intros p Hp.
  apply (processable_read dry), Hproc, Hp.
Qed.

Lemma report_counters_witness :
  let r := FixMain.mk_report_out false 3 0 1 2 2 1
             [("a.lisp"%string, [mk_change 1 6 "0xe9" [233]]);
              ("b.lisp"%string, [mk_change 2 3 "0xe9" [233]])]
             [("b.lisp"%string,
               [mk_warning 1 2 "0xe9" [233] [34; 233; 34] reason_in_code])] in
  let files :=
    FixMain.file_list (FixMain.mk_args false None false) sample_paths in
  FixMain.files_processed r = len files
  /\ FixMain.out_skipped_utf8 r
     = len (filter (content_is is_utf8 sample_tree) files)
  /\ FixMain.out_skipped_clean r
     = len (filter (content_is is_clean sample_tree) files)
  /\ FixMain.files_processed r
     = FixMain.out_skipped_utf8 r + FixMain.out_skipped_clean r
       + len (filter (content_is (fun d => negb (is_valid_utf8 d))
                        sample_tree) files)
  /\ FixMain.files_changed r = len (FixMain.out_changes r)
  /\ FixMain.out_dry_run r = false.
Proof.
  apply (report_counters false false sample_paths sample_tree).
  - nodup_paths.
  - reflexivity.
Defined.

(** X11.  A dry run predicts the real run.  Over the files [glob] finds, a
    run with [--dry-run] leaves the tree as it was.  When the real run
    prints a report, the dry run prints the same report but for the
    [dry_run] field.  When the dry run prints a report and every file it
    lists under [changes] can be opened for writing, the real run prints
    that report too; a dry run that stops (on a file that cannot be read)
    means that the real run stops. *)
Theorem dry_run_predicts (inc : bool) (globbed : list string) (t : fs) :
  NoDup globbed ->
  let dry := FixMain.main (FixMain.mk_args true None inc) globbed t in
  let real := FixMain.main (FixMain.mk_args false None inc) globbed t in
  let as_dry r :=
    FixMain.mk_report_out true (FixMain.files_processed r)
      (FixMain.out_skipped_utf8 r) (FixMain.out_skipped_clean r)
      (FixMain.files_changed r) (FixMain.total_replacements r)
      (FixMain.total_warnings r) (FixMain.out_changes r)
      (FixMain.out_warnings r) in
  fst dry = t
  /\ (forall r, snd real = Some r -> snd dry = Some (as_dry r))
  /\ (forall r',
        snd dry = Some r' ->
        (forall p, In p (map fst (FixMain.out_changes r')) ->
                   writable t p = true) ->
        exists r, snd real = Some r /\ r' = as_dry r)
  /\ (snd dry = None -> snd real = None).
Proof.
  intros Hnd. cbn zeta.
  set (ad := FixMain.mk_args true None inc).
  set (ar := FixMain.mk_args false None inc).
  set (files := FixMain.file_list ar globbed).
  assert (Hfiles : FixMain.file_list ad globbed = files) by reflexivity.
  pose proof (glob_list_NoDup false inc globbed Hnd) as Hndr.
  pose proof (glob_list_NoDup true inc globbed Hnd) as Hndd.
  fold ar in Hndr. fold ad in Hndd.
  assert (Hup : forall r, snd (FixMain.main ar globbed t) = Some r ->
                  snd (FixMain.main ad globbed t)
                  = Some (FixMain.mk_report_out true
                            (FixMain.files_processed r)
                            (FixMain.out_skipped_utf8 r)
                            (FixMain.out_skipped_clean r)
                            (FixMain.files_changed r)
                            (FixMain.total_replacements r)
                            (FixMain.total_warnings r)
                            (FixMain.out_changes r)
                            (FixMain.out_warnings r))).
  { intros r Hr.
    destruct (glob_report false inc globbed t r Hnd Hr) as [Hproc ->].
    rewrite (main_report ad globbed t Hndd); [reflexivity|].
    intros p Hp. apply processable_dry.
    apply (processable_read false), Hproc, Hp. }
  split; [|split; [exact Hup|split]].
  - rewrite main_fst.
    destruct (run_tree true (sorted (FixMain.file_list ad globbed)) t
                (FixMain.mk_tally [] [] 0 0)) as (_ & _ & H & _).
    now apply H.
  - intros r' Hr' Hw.
    destruct (glob_report true inc globbed t r' Hnd Hr') as [Hproc E].
    assert (Hreal : forall p, In p files -> processable false t p = true).
    { intros p Hp. apply processable_iff.
      pose proof (Hproc p Hp) as Hd. apply processable_dry in Hd.
      destruct (read t p) as [d|] eqn:Hrd; [|congruence].
      exists d. split; [reflexivity|]. right.
      destruct (res_changes (fst (process_file d false))) as [|c chs] eqn:Ec;
        [now left|right].
      apply Hw. rewrite E.
      cbn [FixMain.summary FixMain.out_changes FixMain.all_changes].
      apply in_map_iff. exists (p, c :: chs). split; [reflexivity|].
      apply change_entries_In. split; [now apply sorted_In|].
      split; [discriminate|]. exists d. auto. }
    eexists. split.
    + apply (main_report ar globbed t Hndr Hreal).
    + rewrite E. reflexivity.
  - intros Hd. destruct (snd (FixMain.main ar globbed t)) as [r|] eqn:Er;
      [|reflexivity].
    rewrite (Hup r eq_refl) in Hd. discriminate.
Qed.

Lemma dry_run_predicts_witness :
  fst (FixMain.main (FixMain.mk_args true None false) sample_paths
         locked_tree) = locked_tree.
Proof.
  apply (dry_run_predicts false sample_paths locked_tree).
  nodup_paths.
Defined.

(** X12.  The tree after a real run.  When a run without [--dry-run]
    finishes over the files [glob] finds, every file of its list holds the
    content [process_file] leaves for the content it had, and every other
    file of the tree holds what it held. *)
Theorem tree_after_run (inc : bool) (globbed : list string) (t : fs) :
  NoDup globbed ->
  let a := FixMain.mk_args false None inc in
  snd (FixMain.main a globbed t) <> None ->
  (forall p d, In p (FixMain.file_list a globbed) -> read t p = Some d ->
               read (fst (FixMain.main a globbed t)) p = Some (converted d))
  /\ (forall p, ~ In p (FixMain.file_list a globbed) ->
                read (fst (FixMain.main a globbed t)) p = read t p).
Proof.
  intros Hnd. cbn zeta. intros Hdone.
  pose proof (glob_list_NoDup false inc globbed Hnd) as Hnd'.
  rewrite main_snd in Hdone. rewrite main_fst.
  split.
  - intros p d Hp Hr. apply run_converted; auto.
    + now apply sorted_NoDup.
    + destruct (snd (FixMain.run _ _ _ _)); [discriminate|].
      now elim Hdone.
    + now apply sorted_In.
  - intros p Hp.
    destruct (run_tree false
                (sorted (FixMain.file_list (FixMain.mk_args false None inc)
                           globbed)) t (FixMain.mk_tally [] [] 0 0))
      as (_ & H & _).
    apply H. intros Hin. apply Hp. now apply sorted_In.
Qed.

Lemma tree_after_run_witness :
  read (fst (FixMain.main (FixMain.mk_args false None false) sample_paths
               sample_tree)) "a.lisp"
  = Some (converted cafe_comment).
Proof.
  destruct (tree_after_run false sample_paths sample_tree) as [H _].
  - nodup_paths.
  - vm_compute. discriminate.
  - apply (H "a.lisp"%string cafe_comment); [|reflexivity].
    vm_compute. auto.
Defined.

(* ================================================================== *)
(** * The Converter, then the Verifier *)
(* ================================================================== *)

Lemma no_warnings_valid (d : bytes) :
  bytes_ok d ->
  res_warnings (fst (process_file d false)) = [] ->
  is_valid_utf8 (converted d) = true.
Proof.
  intros Hok Hw.
  destruct (processed_or_unchanged d) as [[Hc Hu]|(Hs & Hc & Hw' & Hconv)].
  - rewrite Hu. destruct (is_valid_utf8 d) eqn:Ev; [reflexivity|exfalso].
    destruct (existsb (fun b => 127 <? b) d) eqn:Ex;
      [|rewrite (valid_all_ascii d Ex) in Ev; discriminate].
    assert (Hs : res_skipped (fst (process_file d false)) = None)
      by (unfold process_file; rewrite Ex, Ev; reflexivity).
    destruct (process_file_processed d false Hs) as (_ & _ & Hc' & Hw').
    rewrite Hc' in Hc. rewrite Hw' in Hw.
    destruct (non_ascii_place d Ex) as (n & c & l & b & Hn & Hcb & Hb).
    destruct (walk_record d n c l b Hn Hcb Hb) as [Hin|Hin].
    + rewrite Hc in Hin. contradiction.
    + rewrite Hw in Hin. contradiction.
  - rewrite Hconv. apply valid_join. intros l Hl.
    apply in_map_iff in Hl. destruct Hl as (cl & <- & Hcl).
    intros r. apply valid_rewritten. intros b v Hb. split.
    + eapply classified_bytes_ok; eauto.
    + intros Hgt. eapply no_warnings_all_comment; eauto.
      destruct (walk_eq d) as (_ & _ & E). cbn zeta in E.
      now rewrite E, <- Hw'.
Qed.

Lemma verify_main_zero (files : list (string * bytes)) :
  (forall f, In f files -> verify_file (snd f) = []) -> main files = 0.
Proof.
  intros H. unfold main. rewrite verify_main_fold. cbn [snd app].
  assert (E : flat_map (fun f => match verify_file (snd f) with
                                 | [] => []
                                 | ps => [(fst f, ps)]
                                 end) files = []).
  { induction files as [|f files IH]; [reflexivity|].
    cbn [flat_map]. rewrite (H f (or_introl eq_refl)).
    apply IH. intros g Hg. apply H. now right. }
  now rewrite E.
Qed.

Lemma read_all_some (t : fs) (paths : list string) :
  (forall p, In p paths -> read t p <> None) ->
  exists l, read_all t paths = Some l
            /\ forall f, In f l ->
                 In (fst f) paths /\ read t (fst f) = Some (snd f).
Proof.
  induction paths as [|p paths IH]; intros H.
  - exists []. split; [reflexivity|]. intros f [].
  - destruct IH as (l & Hl & Hin); [intros q Hq; apply H; now right|].
    destruct (read t p) as [d|] eqn:Hr;
      [|exfalso; apply (H p); [now left|exact Hr]].
    exists ((p, d) :: l). cbn [read_all]. rewrite Hr, Hl.
    split; [reflexivity|]. intros f [<-|Hf].
    + split; [now left|exact Hr].
    + destruct (Hin f Hf). split; [now right|assumption].
Qed.

Lemma total_len_app {V A : Type} (d1 d2 : list (V * list A)) :
  total_len (d1 ++ d2) = total_len d1 + total_len d2.
Proof.
  unfold total_len. induction d1 as [|kv d1 IH]; simpl; [reflexivity|].
  rewrite IH. lia.
Qed.

Lemma total_len_nonneg {V A : Type} (d : list (V * list A)) :
  0 <= total_len d.
Proof.
  unfold total_len, len. induction d as [|kv d IH]; simpl; lia.
Qed.

Lemma no_warning_entries (t : fs) (files : list string) :
  total_len (flat_map (warning_entry t) files) = 0 ->
  forall p d, In p files -> read t p = Some d ->
              res_warnings (fst (process_file d false)) = [].
Proof.
  induction files as [|q files IH]; intros H p d Hp Hr; [contradiction|].
  cbn [flat_map] in H. rewrite total_len_app in H.
  pose proof (total_len_nonneg (warning_entry t q)).
  pose proof (total_len_nonneg (flat_map (warning_entry t) files)).
  destruct Hp as [->|Hp].
  - unfold warning_entry at 1 in H. rewrite Hr in H.
    destruct (res_warnings (fst (process_file d false))) as [|w ws];
      [reflexivity|exfalso].
    change (total_len [(p, w :: ws)]) with (len (w :: ws) + 0) in H.
    unfold len in H. cbn [length] in H. rewrite Nat2Z.inj_succ in H. lia.
  - apply (IH ltac:(lia) p d Hp Hr).
Qed.

(** X13.  The Converter, then the Verifier.  When a real run of the
    Converter over all the files of a tree (distinct paths,
    [--include-excluded], no [--report]) finishes with [total_warnings]
    equal to 0, the Verifier run on the tree it leaves exits with 0. *)
Theorem converter_then_verifier (globbed : list string) (t : fs)
    (r : FixMain.report_out) :
  NoDup globbed ->
  (forall p d, In p globbed -> read t p = Some d -> bytes_ok d) ->
  snd (FixMain.main (FixMain.mk_args false None true) globbed t) = Some r ->
  FixMain.total_warnings r = 0 ->
  verify_tree globbed
    (fst (FixMain.main (FixMain.mk_args false None true) globbed t))
  = Some 0.
Proof.
  intros Hnd Hok Hr Hw.
  set (a := FixMain.mk_args false None true) in *.
  assert (Hfl : FixMain.file_list a globbed = sorted globbed) by reflexivity.
  assert (Hnd' : NoDup (FixMain.file_list a globbed))
    by (rewrite Hfl; now apply sorted_NoDup).
  assert (Hproc : forall p, In p (FixMain.file_list a globbed) ->
                            processable (FixMain.dry_run a) t p = true)
    by (apply (main_done a globbed t Hnd'); rewrite Hr; discriminate).
  assert (Hread : forall p, In p (FixMain.file_list a globbed) ->
                            read t p <> None)
    by (intros p Hp; eapply processable_read, Hproc, Hp).
  assert (Hdone : snd (FixMain.run false (sorted (FixMain.file_list a globbed))
                         t (FixMain.mk_tally [] [] 0 0)) <> None).
  { rewrite main_snd in Hr. intros E. change (FixMain.dry_run a) with false in Hr.
    rewrite E in Hr. discriminate. }
  rewrite (main_report a globbed t Hnd' Hproc) in Hr. injection Hr as <-.
  cbn [FixMain.summary FixMain.total_warnings FixMain.all_warnings] in Hw.
  pose proof (no_warning_entries t _ Hw) as Hnw.
  unfold verify_tree. rewrite main_fst. change (FixMain.dry_run a) with false.
  set (t' := fst (FixMain.run false (sorted (FixMain.file_list a globbed)) t
                    (FixMain.mk_tally [] [] 0 0))) in *.
  assert (Hconv : forall p d, In p (sorted globbed) -> read t p = Some d ->
                              read t' p = Some (converted d)).
  { intros p d Hp Hd. apply run_converted; auto.
    - now apply sorted_NoDup.
    - rewrite Hfl, sorted_idem. exact Hp. }
  destruct (read_all_some t' (sorted globbed)) as (l & Hl & Hin).
  { intros p Hp. destruct (read t p) as [d|] eqn:Hd.
    - rewrite (Hconv p d Hp Hd). discriminate.
    - exfalso. apply (Hread p); [rewrite Hfl; exact Hp|exact Hd]. }
  rewrite Hl. cbn [option_map]. f_equal. apply verify_main_zero.
  intros [p d'] Hf. destruct (Hin (p, d') Hf) as [Hp Hd']. cbn [fst snd] in *.
  destruct (read t p) as [d|] eqn:Hd;
    [|exfalso; apply (Hread p); [rewrite Hfl; exact Hp|exact Hd]].
  rewrite (Hconv p d Hp Hd) in Hd'. injection Hd' as <-.
  assert (Hv : is_valid_utf8 (converted d) = true).
  { apply no_warnings_valid.
    - apply (Hok p d); [now apply sorted_In|exact Hd].
    - apply (Hnw p d); [|exact Hd]. rewrite Hfl, sorted_idem. exact Hp. }
  unfold verify_file. unfold is_valid_utf8 in Hv.
  destruct (decode_utf8 (converted d)); [reflexivity|discriminate].
Qed.

Lemma converter_then_verifier_witness :
  verify_tree ["c.lisp"; "a.lisp"]%string
    (fst (FixMain.main (FixMain.mk_args false None true)
            ["c.lisp"; "a.lisp"]%string sample_tree))
  = Some 0.
Proof.
  apply (converter_then_verifier ["c.lisp"; "a.lisp"]%string sample_tree
           (FixMain.mk_report_out false 2 0 1 1 1 0
              [("a.lisp"%string, [mk_change 1 6 "0xe9" [233]])] [])).
  - nodup_paths.
  - intros p d [<-|[<-|[]]] E; vm_compute in E; injection E as <-;
      unfold bytes_ok; repeat constructor; lia.
  - reflexivity.
  - reflexivity.
Defined.

(* ================================================================== *)
(** * [main] of the Scanner *)
(* ================================================================== *)

Lemma scan_fold (t : fs) (files : list string) :
  forall (res : list (string * list hit)) (n : Z),
    NoDup files ->
    (forall p, In p files -> ~ In p (map fst res)) ->
    fold_left (ScanMain.file_body t) files (res, n)
    = (res ++ flat_map (hit_entry t) files,
       n + total_len (flat_map (hit_entry t) files)).
Proof.
  induction files as [|p files IH]; intros res n Hnd Hfresh.
  - simpl. now rewrite app_nil_r, Z.add_0_r.
  - inversion Hnd as [|? ? Hp Hnd']; subst.
    cbn [fold_left flat_map]. rewrite total_len_app.
    unfold ScanMain.file_body at 2. unfold hit_entry at 1 3.
    destruct (read t p) as [d|].
    + destruct (scan_file d) as [|h hs] eqn:E.
      * rewrite IH; [|exact Hnd'|intros q Hq; apply Hfresh; now right].
        cbn [app]. f_equal.
      * rewrite dict_set_fresh by (apply Hfresh; now left).
        rewrite IH; [|exact Hnd'|].
        -- rewrite <- app_assoc. f_equal.
           unfold total_len at 2. cbn [fold_right snd]. lia.
        -- intros q Hq. rewrite map_app, in_app_iff.
           intros [H|[H|[]]]; [apply (Hfresh q); [now right|exact H]|].
           simpl in H. subst q. contradiction.
    + rewrite IH; [|exact Hnd'|intros q Hq; apply Hfresh; now right].
      cbn [app]. f_equal.
Qed.

Lemma scan_main_eq (globbed : list string) (t : fs) :
  NoDup globbed ->
  ScanMain.main globbed t
  = ScanMain.mk_report (len (sorted globbed))
      (len (flat_map (hit_entry t) (sorted globbed)))
      (total_len (flat_map (hit_entry t) (sorted globbed)))
      (flat_map (hit_entry t) (sorted globbed)).
Proof.
  intros Hnd. unfold ScanMain.main.
  rewrite scan_fold; [reflexivity|now apply sorted_NoDup|auto].
Qed.

Lemma hit_entries_In (t : fs) (files : list string) (p : string)
    (hits : list hit) :
  In (p, hits) (flat_map (hit_entry t) files) <->
  In p files /\ hits <> []
  /\ exists d, read t p = Some d /\ scan_file d = hits.
Proof.
  rewrite in_flat_map. unfold hit_entry. split.
  - intros (q & Hq & H). destruct (read t q) as [d|] eqn:Hr; [|contradiction].
    destruct (scan_file d) eqn:E; [contradiction|].
    destruct H as [H|[]]. injection H as <- <-.
    split; [exact Hq|]. split; [discriminate|]. eauto.
  - intros (Hp & Hne & d & Hr & E). exists p. split; [exact Hp|].
    rewrite Hr, E. destruct hits; [congruence|now left].
Qed.

Lemma hit_entries_length (t : fs) (files : list string) :
  (length (flat_map (hit_entry t) files) <= length files)%nat.
Proof.
  induction files as [|p files IH]; [simpl; lia|].
  cbn [flat_map]. rewrite length_app. unfold hit_entry at 1.
  destruct (read t p) as [d|]; [destruct (scan_file d)|]; simpl; lia.
Qed.

(** X14.  The report of the Scanner.  Over distinct paths, [main] lists
    under [results] exactly the files it can read that hold a byte above
    127, each with the hits of [scan_file] on its content; a file that
    cannot be read is passed over.  [files_scanned] counts every path,
    [files_with_non_ascii] the entries of [results], and
    [total_non_ascii_bytes] is the number of hits in [results]. *)
Theorem scanner_report (globbed : list string) (t : fs) :
  NoDup globbed ->
  let r := ScanMain.main globbed t in
  ScanMain.files_scanned r = len globbed
  /\ ScanMain.files_with_non_ascii r = len (ScanMain.results r)
  /\ ScanMain.files_with_non_ascii r <= ScanMain.files_scanned r
  /\ ScanMain.total_non_ascii_bytes r = total_len (ScanMain.results r)
  /\ forall p hits,
       In (p, hits) (ScanMain.results r) <->
       In p globbed /\ hits <> []
       /\ exists d, read t p = Some d /\ scan_file d = hits.
Proof.
  intros Hnd. cbn zeta. rewrite (scan_main_eq globbed t Hnd).
  cbn [ScanMain.files_scanned ScanMain.files_with_non_ascii
       ScanMain.total_non_ascii_bytes ScanMain.results].
  split; [unfold len; now rewrite sorted_length|].
  split; [reflexivity|]. split.
  - unfold len. apply inj_le. apply hit_entries_length.
  - split; [reflexivity|]. intros p hits.
    rewrite hit_entries_In, sorted_In. reflexivity.
Qed.

Lemma scanner_report_witness :
  let r := ScanMain.main sample_paths sample_tree in
  ScanMain.files_scanned r = len sample_paths
  /\ ScanMain.files_with_non_ascii r = len (ScanMain.results r)
  /\ ScanMain.files_with_non_ascii r <= ScanMain.files_scanned r
  /\ ScanMain.total_non_ascii_bytes r = total_len (ScanMain.results r)
  /\ forall p hits,
       In (p, hits) (ScanMain.results r) <->
       In p sample_paths /\ hits <> []
       /\ exists d, read sample_tree p = Some d /\ scan_file d = hits.
Proof.
  apply (scanner_report sample_paths sample_tree). nodup_paths.
Defined.

(** X15.  Unreadable files and the Scanner.  The Scanner catches the error
    of a file it cannot read and goes on: over distinct paths its results
    and its totals are those of a scan of the readable files alone. *)
Theorem scanner_skips_unreadable (globbed : list string) (t : fs) :
  NoDup globbed ->
  let readable := filter (content_is (fun _ => true) t) globbed in
  ScanMain.results (ScanMain.main globbed t)
  = ScanMain.results (ScanMain.main readable t)
  /\ ScanMain.total_non_ascii_bytes (ScanMain.main globbed t)
     = ScanMain.total_non_ascii_bytes (ScanMain.main readable t)
  /\ ScanMain.files_with_non_ascii (ScanMain.main globbed t)
     = ScanMain.files_with_non_ascii (ScanMain.main readable t)
  /\ ScanMain.files_scanned (ScanMain.main readable t)
     = ScanMain.files_scanned (ScanMain.main globbed t)
       - len (filter (fun p => negb (content_is (fun _ => true) t p))
                globbed).
Proof.
  intros Hnd. cbn zeta.
  rewrite (scan_main_eq globbed t Hnd).
  rewrite (scan_main_eq _ t (NoDup_filter _ Hnd)).
  cbn [ScanMain.results ScanMain.total_non_ascii_bytes
       ScanMain.files_with_non_ascii ScanMain.files_scanned].
  rewrite sorted_filter.
  assert (E : flat_map (hit_entry t)
                (filter (content_is (fun _ => true) t) (sorted globbed))
              = flat_map (hit_entry t) (sorted globbed)).
  { induction (sorted globbed) as [|p l IH]; [reflexivity|].
    cbn [filter flat_map]. unfold content_is at 1, hit_entry at 2.
    destruct (read t p) as [d|] eqn:Hr.
    - cbn [flat_map]. unfold hit_entry at 1. rewrite Hr. now rewrite IH.
    - exact IH. }
  rewrite E. repeat split.
  unfold len. rewrite <- sorted_filter, !sorted_length.
  pose proof (filter_length (content_is (fun _ => true) t) globbed). lia.
Qed.

Lemma scanner_skips_unreadable_witness :
  let globbed := ("zz.lisp" :: sample_paths)%string in
  let readable := filter (content_is (fun _ => true) sample_tree) globbed in
  ScanMain.results (ScanMain.main globbed sample_tree)
  = ScanMain.results (ScanMain.main readable sample_tree)
  /\ ScanMain.total_non_ascii_bytes (ScanMain.main globbed sample_tree)
     = ScanMain.total_non_ascii_bytes (ScanMain.main readable sample_tree)
  /\ ScanMain.files_with_non_ascii (ScanMain.main globbed sample_tree)
     = ScanMain.files_with_non_ascii (ScanMain.main readable sample_tree)
  /\ ScanMain.files_scanned (ScanMain.main readable sample_tree)
     = ScanMain.files_scanned (ScanMain.main globbed sample_tree)
       - len (filter (fun p => negb (content_is (fun _ => true) sample_tree p))
                globbed).
Proof.
  apply (scanner_skips_unreadable ("zz.lisp" :: sample_paths)%string
           sample_tree).
  nodup_paths.
Defined.

(* ================================================================== *)
(** * The Scanner's report and the Converter *)
(* ================================================================== *)

Lemma scan_nil_iff (d : bytes) :
  scan_file d = [] <-> existsb (fun b => 127 <? b) d = false.
Proof.
  pose proof (scan_bytes_from d d 0) as H. fold (scan_file d) in H.
  split; intros E.
  - rewrite E in H. cbn [map] in H.
    destruct (existsb (fun b => 127 <? b) d) eqn:Ex; [exfalso|reflexivity].
    apply existsb_exists in Ex. destruct Ex as (b & Hin & Hb).
    assert (Hf : In b (filter (fun b => 127 <? b) d))
      by (apply filter_In; auto).
    rewrite <- H in Hf. contradiction.
  - destruct (scan_file d) as [|h hs]; [reflexivity|exfalso].
    assert (Hf : In (hit_byte h) (filter (fun b => 127 <? b) d))
      by (rewrite <- H; now left).
    apply filter_In in Hf. destruct Hf as [Hin Hb].
    assert (Ex : existsb (fun b => 127 <? b) d = true)
      by (apply existsb_exists; eauto).
    congruence.
Qed.

(** The keys of the Scanner's results: the files with a byte above 127. *)
Lemma hit_keys (t : fs) (l : list string) :
  map fst (flat_map (hit_entry t) l)
  = filter (content_is (fun d => negb (is_clean d)) t) l.
Proof.
  induction l as [|p l IH]; [reflexivity|].
  cbn [flat_map filter]. rewrite map_app, IH.
  unfold hit_entry at 1, content_is at 2, is_clean.
  destruct (read t p) as [d|]; [|reflexivity].
  rewrite negb_involutive.
  destruct (scan_file d) as [|h hs] eqn:E.
  - apply scan_nil_iff in E. now rewrite E.
  - destruct (existsb (fun b => 127 <? b) d) eqn:Ex; [reflexivity|].
    apply scan_nil_iff in Ex. congruence.
Qed.

Lemma clean_no_entries (t : fs) (p : string) :
  content_is (fun d => negb (is_clean d)) t p = false ->
  change_entry t p = [] /\ warning_entry t p = []
  /\ content_is is_utf8 t p = false.
Proof.
  unfold content_is, change_entry, warning_entry, is_utf8, is_clean.
  destruct (read t p) as [d|]; [|auto].
  rewrite negb_involutive. intros Ex.
  unfold process_file. rewrite Ex. auto.
Qed.

Lemma flat_map_filter_nil {A B : Type} (f : A -> list B) (keep : A -> bool)
    (l : list A) :
  (forall x, In x l -> keep x = false -> f x = []) ->
  flat_map f (filter keep l) = flat_map f l.
Proof.
  induction l as [|x l IH]; intros H; [reflexivity|].
  cbn [filter flat_map]. destruct (keep x) eqn:E.
  - cbn [flat_map]. rewrite IH; [reflexivity|].
    intros y Hy. apply H. now right.
  - rewrite (H x (or_introl eq_refl) E). cbn [app]. apply IH.
    intros y Hy. apply H. now right.
Qed.

Lemma filter_filter_sub {A : Type} (g keep : A -> bool) (l : list A) :
  (forall x, In x l -> keep x = false -> g x = false) ->
  filter g (filter keep l) = filter g l.
Proof.
  induction l as [|x l IH]; intros H; [reflexivity|].
  cbn [filter]. destruct (keep x) eqn:E.
  - cbn [filter]. rewrite IH; [reflexivity|].
    intros y Hy. apply H. now right.
  - rewrite (H x (or_introl eq_refl) E). apply IH.
    intros y Hy. apply H. now right.
Qed.

Lemma filter_filter_none {A : Type} (g keep : A -> bool) (l : list A) :
  (forall x, In x l -> keep x = true -> g x = false) ->
  filter g (filter keep l) = [].
Proof.
  induction l as [|x l IH]; intros H; [reflexivity|].
  cbn [filter]. destruct (keep x) eqn:E.
  - cbn [filter]. rewrite (H x (or_introl eq_refl) E). apply IH.
    intros y Hy. apply H. now right.
  - apply IH. intros y Hy. apply H. now right.
Qed.

Lemma filter_comm {A : Type} (f g : A -> bool) (l : list A) :
  filter f (filter g l) = filter g (filter f l).
Proof.
  induction l as [|x l IH]; [reflexivity|].
  cbn [filter]. destruct (g x) eqn:Eg, (f x) eqn:Ef; cbn [filter];
    rewrite ?Eg, ?Ef, IH; reflexivity.
Qed.

(** Leaving the files without a byte above 127 out of the walk does not
    change the tree the walk leaves. *)
Lemma run_filter (dry_run : bool) (keep : string -> bool)
    (files : list string) :
  forall (t : fs) (acc acc' : FixMain.tally),
    NoDup files ->
    (forall p, In p files -> keep p = false ->
               exists d, read t p = Some d /\ is_clean d = true) ->
    fst (FixMain.run dry_run (filter keep files) t acc)
    = fst (FixMain.run dry_run files t acc').
Proof.
  induction files as [|p files IH]; intros t acc acc' Hnd Hc; [reflexivity|].
  inversion Hnd as [|? ? Hp Hnd']; subst.
  cbn [filter]. destruct (keep p) eqn:Hk.
  - cbn [FixMain.run].
    pose proof (file_body_tree dry_run t acc p) as H1.
    pose proof (file_body_tree dry_run t acc' p) as H2.
    destruct (FixMain.file_body dry_run t acc p) as [[t1 a1]|],
             (FixMain.file_body dry_run t acc' p) as [[t2 a2]|].
    + destruct H1 as (_ & d1 & Hr1 & -> & _), H2 as (_ & d2 & Hr2 & -> & _).
      rewrite Hr1 in Hr2. injection Hr2 as <-.
      apply IH; [exact Hnd'|]. intros q Hq Hkq.
      destruct (Hc q (or_intror Hq) Hkq) as (d & Hd & Hcl).
      exists d. split; [|exact Hcl].
      rewrite write_back_read_other; [exact Hd|].
      intros ->. contradiction.
    + destruct H1 as (H1 & _). congruence.
    + destruct H2 as (H2 & _). congruence.
    + reflexivity.
  - cbn [FixMain.run].
    destruct (Hc p (or_introl eq_refl) Hk) as (d & Hd & Hcl).
    assert (Hm : res_modified (fst (process_file d false)) = false).
    { unfold process_file. unfold is_clean in Hcl.
      apply negb_true_iff in Hcl. now rewrite Hcl. }
    pose proof (file_body_tree dry_run t acc' p) as H2.
    destruct (FixMain.file_body dry_run t acc' p) as [[t2 a2]|].
    + destruct H2 as (_ & d2 & Hr2 & -> & _).
      rewrite Hd in Hr2. injection Hr2 as <-.
      assert (E : write_back dry_run t p d = t)
        by (unfold write_back; now rewrite Hm).
      rewrite E. apply IH; [exact Hnd'|].
      intros q Hq Hkq. apply Hc; [now right|exact Hkq].
    + exfalso. unfold processable in H2. rewrite Hd, Hm in H2.
      discriminate.
Qed.

(** X16.  The Converter on the Scanner's report.  Take a tree on which the
    Converter finishes over the globbed files.  Given with [--report] the
    keys of the [results] the Scanner found on that tree, the Converter
    leaves the same tree and reports the same changes, the same warnings
    and the same totals; only the files without a byte above 127 are not
    walked: [skipped_clean] is 0 and [files_processed] is smaller by their
    number. *)
Theorem report_mode_agrees (globbed : list string) (t : fs)
    (dry inc : bool) (r1 : FixMain.report_out) :
  NoDup globbed ->
  let keys := map fst (ScanMain.results (ScanMain.main globbed t)) in
  let glob_run := FixMain.main (FixMain.mk_args dry None inc) globbed t in
  let report_run :=
    FixMain.main (FixMain.mk_args dry (Some keys) inc) globbed t in
  snd glob_run = Some r1 ->
  fst report_run = fst glob_run
  /\ exists r2,
       snd report_run = Some r2
       /\ FixMain.out_changes r2 = FixMain.out_changes r1
       /\ FixMain.out_warnings r2 = FixMain.out_warnings r1
       /\ FixMain.files_changed r2 = FixMain.files_changed r1
       /\ FixMain.total_replacements r2 = FixMain.total_replacements r1
       /\ FixMain.total_warnings r2 = FixMain.total_warnings r1
       /\ FixMain.out_skipped_utf8 r2 = FixMain.out_skipped_utf8 r1
       /\ FixMain.out_skipped_clean r2 = 0
       /\ FixMain.files_processed r2
          = FixMain.files_processed r1 - FixMain.out_skipped_clean r1.
Proof.
  intros Hnd keys glob_run report_run Hr1. subst glob_run report_run.
  set (a1 := FixMain.mk_args dry None inc) in *.
  set (a2 := FixMain.mk_args dry (Some keys) inc).
  set (K := content_is (fun d => negb (is_clean d)) t).
  assert (Hkeys : keys = filter K (sorted globbed)).
  { unfold keys. rewrite (scan_main_eq globbed t Hnd).
    cbn [ScanMain.results]. apply hit_keys. }
  assert (HL2 : FixMain.file_list a2 globbed
                = filter K (FixMain.file_list a1 globbed)).
  { rewrite !file_list_eq. unfold a1, a2.
    cbn [FixMain.report FixMain.include_excluded]. cbn zeta. rewrite Hkeys.
    destruct inc; [reflexivity|apply filter_comm]. }
  assert (Hnd1 : NoDup (FixMain.file_list a1 globbed)).
  { rewrite file_list_eq. unfold a1.
    cbn [FixMain.report FixMain.include_excluded]. cbn zeta.
    destruct inc; [|apply NoDup_filter]; now apply sorted_NoDup. }
  assert (Hproc1 : forall p, In p (FixMain.file_list a1 globbed) ->
                             processable dry t p = true)
    by (apply (main_done a1 globbed t Hnd1); rewrite Hr1; discriminate).
  assert (Hread1 : forall p, In p (FixMain.file_list a1 globbed) ->
                             read t p <> None)
    by (intros p Hp; eapply processable_read, Hproc1, Hp).
  assert (Hnd2 : NoDup (FixMain.file_list a2 globbed))
    by (rewrite HL2; now apply NoDup_filter).
  assert (Hproc2 : forall p, In p (FixMain.file_list a2 globbed) ->
                             processable dry t p = true).
  { intros p Hp. rewrite HL2 in Hp. apply filter_In in Hp.
    apply Hproc1, Hp. }
  rewrite (main_report a1 globbed t Hnd1 Hproc1) in Hr1.
  injection Hr1 as <-.
  rewrite (main_report a2 globbed t Hnd2 Hproc2). cbn zeta.
  rewrite HL2, sorted_filter.
  set (S1 := sorted (FixMain.file_list a1 globbed)).
  assert (Hin : forall p, In p S1 -> read t p <> None)
    by (intros p Hp; apply Hread1; now apply sorted_In).
  assert (Hch : flat_map (change_entry t) (filter K S1)
                = flat_map (change_entry t) S1).
  { apply flat_map_filter_nil. intros p _ Hk.
    now destruct (clean_no_entries t p Hk). }
  assert (Hwa : flat_map (warning_entry t) (filter K S1)
                = flat_map (warning_entry t) S1).
  { apply flat_map_filter_nil. intros p _ Hk.
    now destruct (clean_no_entries t p Hk) as (_ & ? & _). }
  assert (Hut : filter (content_is is_utf8 t) (filter K S1)
                = filter (content_is is_utf8 t) S1).
  { apply filter_filter_sub. intros p _ Hk.
    now destruct (clean_no_entries t p Hk) as (_ & _ & ?). }
  assert (Hcl : filter (content_is is_clean t) (filter K S1) = []).
  { apply filter_filter_none. intros p _. unfold K, content_is.
    destruct (read t p) as [d|]; [|reflexivity].
    now intros ->%negb_true_iff. }
  split.
  - rewrite !main_fst, HL2, sorted_filter. fold S1.
    change (FixMain.dry_run a2) with (FixMain.dry_run a1).
    apply run_filter; [now apply sorted_NoDup|].
    intros p Hp Hk. specialize (Hin p Hp). unfold K, content_is in Hk.
    destruct (read t p) as [d|]; [|congruence].
    exists d. split; [reflexivity|]. now apply negb_false_iff in Hk.
  - eexists. split; [reflexivity|].
    cbn [FixMain.summary FixMain.out_changes FixMain.out_warnings
         FixMain.files_changed FixMain.total_replacements
         FixMain.total_warnings FixMain.out_skipped_utf8
         FixMain.out_skipped_clean FixMain.files_processed
         FixMain.all_changes FixMain.all_warnings FixMain.skipped_utf8
         FixMain.skipped_clean].
    rewrite Hch, Hwa, Hut, Hcl. repeat split.
    unfold S1. rewrite <- sorted_filter. unfold len.
    rewrite sorted_length.
    pose proof (filter_length K (FixMain.file_list a1 globbed)) as Hlen.
    assert (E : filter (fun x => negb (K x)) (FixMain.file_list a1 globbed)
                = filter (content_is is_clean t)
                    (FixMain.file_list a1 globbed)).
    { apply filter_ext_in. intros p Hp. specialize (Hread1 p Hp).
      unfold K, content_is. destruct (read t p) as [d|]; [|congruence].
      apply negb_involutive. }
    rewrite E in Hlen. lia.
Qed.

Lemma report_mode_agrees_witness :
  let keys :=
    map fst (ScanMain.results (ScanMain.main sample_paths sample_tree)) in
  let glob_run :=
    FixMain.main (FixMain.mk_args false None false) sample_paths
      sample_tree in
  let report_run :=
    FixMain.main (FixMain.mk_args false (Some keys) false) sample_paths
      sample_tree in
  exists r1,
    snd glob_run = Some r1
    /\ fst report_run = fst glob_run
    /\ exists r2,
         snd report_run = Some r2
         /\ FixMain.out_changes r2 = FixMain.out_changes r1
         /\ FixMain.out_warnings r2 = FixMain.out_warnings r1
         /\ FixMain.files_changed r2 = FixMain.files_changed r1
         /\ FixMain.total_replacements r2 = FixMain.total_replacements r1
         /\ FixMain.total_warnings r2 = FixMain.total_warnings r1
         /\ FixMain.out_skipped_utf8 r2 = FixMain.out_skipped_utf8 r1
         /\ FixMain.out_skipped_clean r2 = 0
         /\ FixMain.files_processed r2
            = FixMain.files_processed r1 - FixMain.out_skipped_clean r1.
Proof.
  cbn zeta. eexists. split; [vm_compute; reflexivity|].
  apply (report_mode_agrees sample_paths sample_tree false false).
  - nodup_paths.
  - vm_compute. reflexivity.
Defined.

Lemma entries_total (t : fs) (p : string) :
  content_is is_utf8 t p = false ->
  total_len (change_entry t p) + total_len (warning_entry t p)
  = total_len (hit_entry t p).
Proof.
  unfold content_is, change_entry, warning_entry, hit_entry.
  destruct (read t p) as [d|]; [|reflexivity]. intros Hu.
  destruct (existsb (fun b => 127 <? b) d) eqn:Ex.
  - unfold is_utf8 in Hu. rewrite Ex in Hu. cbn [andb] in Hu.
    assert (Hs : res_skipped (fst (process_file d false)) = None)
      by (unfold process_file; rewrite Ex, Hu; reflexivity).
    destruct (process_file_processed d false Hs) as (_ & _ & -> & ->).
    pose proof (walk_records_hits d) as H.
    destruct (changes (snd (walk d))), (warnings (snd (walk d))),
             (scan_file d);
      unfold total_len; cbn [fold_right snd];
      unfold len in *; cbn [length] in *; lia.
  - unfold process_file. rewrite Ex. cbn [fst res_changes res_warnings].
    apply scan_nil_iff in Ex. now rewrite Ex.
Qed.

Lemma entries_total_all (t : fs) (files : list string) :
  filter (content_is is_utf8 t) files = [] ->
  total_len (flat_map (change_entry t) files)
  + total_len (flat_map (warning_entry t) files)
  = total_len (flat_map (hit_entry t) files).
Proof.
  induction files as [|p files IH]; intros H; [reflexivity|].
  cbn [filter] in H. destruct (content_is is_utf8 t p) eqn:Hu;
    [discriminate|].
  cbn [flat_map]. rewrite !total_len_app.
  rewrite <- (entries_total t p Hu), <- (IH H). lia.
Qed.

(** X17.  Hits against replacements and warnings.  When the Converter
    walks all the globbed files and skips none of them as UTF-8, every
    byte the Scanner counts on the same tree is counted once by the
    Converter: [total_replacements] and [total_warnings] add up to the
    Scanner's [total_non_ascii_bytes]. *)
Theorem totals_match_scanner (globbed : list string) (t : fs) (dry : bool)
    (r : FixMain.report_out) :
  NoDup globbed ->
  snd (FixMain.main (FixMain.mk_args dry None true) globbed t) = Some r ->
  FixMain.out_skipped_utf8 r = 0 ->
  FixMain.total_replacements r + FixMain.total_warnings r
  = ScanMain.total_non_ascii_bytes (ScanMain.main globbed t).
Proof.
  intros Hnd Hr Hu.
  set (a := FixMain.mk_args dry None true) in *.
  assert (Hfl : FixMain.file_list a globbed = sorted globbed) by reflexivity.
  assert (Hnd' : NoDup (FixMain.file_list a globbed))
    by (rewrite Hfl; now apply sorted_NoDup).
  assert (Hproc : forall p, In p (FixMain.file_list a globbed) ->
                            processable (FixMain.dry_run a) t p = true)
    by (apply (main_done a globbed t Hnd'); rewrite Hr; discriminate).
  rewrite (main_report a globbed t Hnd' Hproc) in Hr. injection Hr as <-.
  cbn [FixMain.summary FixMain.out_skipped_utf8 FixMain.total_replacements
       FixMain.total_warnings FixMain.all_changes FixMain.all_warnings
       FixMain.skipped_utf8] in *.
  rewrite (scan_main_eq globbed t Hnd).
  cbn [ScanMain.total_non_ascii_bytes].
  rewrite Hfl, sorted_idem in *.
  apply entries_total_all.
  destruct (filter (content_is is_utf8 t) (sorted globbed)) as [|x l];
    [reflexivity|].
  unfold len in Hu. cbn [length] in Hu. lia.
Qed.

Lemma totals_match_scanner_witness :
  exists r,
    snd (FixMain.main (FixMain.mk_args false None true)
           ["b.lisp"; "c.lisp"; "a.lisp"]%string sample_tree) = Some r
    /\ FixMain.out_skipped_utf8 r = 0
    /\ FixMain.total_replacements r + FixMain.total_warnings r
       = ScanMain.total_non_ascii_bytes
           (ScanMain.main ["b.lisp"; "c.lisp"; "a.lisp"]%string sample_tree).
Proof.
  eexists. split; [vm_compute; reflexivity|]. split; [reflexivity|].
  apply (totals_match_scanner ["b.lisp"; "c.lisp"; "a.lisp"]%string
           sample_tree false).
  - nodup_paths.
  - vm_compute. reflexivity.
  - reflexivity.
Defined.

(* ================================================================== *)
(** * A file the Converter cannot get through *)
(* ================================================================== *)

Lemma run_app (dry_run : bool) (pre rest : list string) :
  forall (t : fs) (acc : FixMain.tally),
    FixMain.run dry_run (pre ++ rest) t acc
    = match FixMain.run dry_run pre t acc with
      | (t', Some acc') => FixMain.run dry_run rest t' acc'
      | (t', None) => (t', None)
      end.
Proof.
  induction pre as [|p pre IH]; intros t acc; [reflexivity|].
  cbn [app FixMain.run].
  destruct (FixMain.file_body dry_run t acc p) as [[t1 a1]|];
    [apply IH|reflexivity].
Qed.

(** X18.  A file the Converter cannot get through.  [process_file] does
    not catch the error of [open], and neither does [main]: over the files
    [glob] finds, at the first file of the sorted list that cannot be read,
    or that a real run has to change and cannot open for writing, the run
    ends without a report.  The files before it have been walked, and
    rewritten unless the run is a dry run; the file itself and the files
    after it are as they were. *)
Theorem failing_file_stops_run (dry inc : bool) (globbed : list string)
    (t : fs) (pre post : list string) (p : string) :
  NoDup globbed ->
  let a := FixMain.mk_args dry None inc in
  sorted (FixMain.file_list a globbed) = pre ++ p :: post ->
  (forall q, In q pre ->
     exists d, read t q = Some d
               /\ (dry = true
                   \/ res_changes (fst (process_file d false)) = []
                   \/ writable t q = true)) ->
  (read t p = None
   \/ exists d, read t p = Some d /\ dry = false
                /\ res_changes (fst (process_file d false)) <> []
                /\ writable t p = false) ->
  let t' := fst (FixMain.main a globbed t) in
  snd (FixMain.main a globbed t) = None
  /\ (forall q, ~ In q pre -> read t' q = read t q)
  /\ (forall q d, In q pre -> read t q = Some d ->
                  read t' q = Some (if dry then d else converted d)).
Proof.
  intros Hnd a Hsplit Hpre Hp. cbn zeta.
  rewrite main_fst, main_snd, Hsplit, run_app.
  change (FixMain.dry_run a) with dry.
  set (acc0 := FixMain.mk_tally [] [] 0 0).
  assert (Hnds : NoDup (pre ++ p :: post)).
  { rewrite <- Hsplit. apply sorted_NoDup.
    now apply glob_list_NoDup. }
  assert (Hnp : ~ In p pre).
  { intros H. apply NoDup_remove_2 in Hnds. apply Hnds.
    apply in_or_app. now left. }
  assert (Hndp : NoDup pre).
  { apply NoDup_remove_1 in Hnds. now apply NoDup_app_remove_r in Hnds. }
  assert (Hfail : processable dry t p = false).
  { destruct (processable dry t p) eqn:E; [exfalso|reflexivity].
    apply processable_iff in E. destruct E as (d & Hd & H).
    destruct Hp as [Hp|(d' & Hd' & -> & Hc & Hw)]; [congruence|].
    rewrite Hd in Hd'. injection Hd' as <-.
    destruct H as [H|[H|H]]; congruence. }
  assert (Hdone : snd (FixMain.run dry pre t acc0) <> None).
  { apply (run_completes dry pre t acc0 Hndp).
    intros q Hq. apply processable_iff, Hpre, Hq. }
  destruct (run_tree dry pre t acc0) as (_ & Hother & Hdry & _).
  pose proof (fun H => run_converted pre t acc0 Hndp H) as Hconv.
  destruct (FixMain.run dry pre t acc0) as [t1 [acc1|]] eqn:E;
    [|now elim Hdone].
  cbn [fst snd] in *. cbn [FixMain.run].
  assert (Hb : FixMain.file_body dry t1 acc1 p = None).
  { pose proof (file_body_tree dry t1 acc1 p) as H.
    destruct (FixMain.file_body dry t1 acc1 p) as [[t2 a2]|];
      [exfalso|reflexivity].
    destruct H as (H & _).
    destruct (run_tree dry pre t acc0) as ((_ & Hro) & _).
    rewrite E in Hro. cbn [fst] in Hro.
    unfold processable, writable in H, Hfail.
    rewrite (Hother p Hnp), Hro in H. congruence. }
  rewrite Hb. cbn [fst snd option_map]. split; [reflexivity|].
  split; [exact Hother|].
  intros q d Hq Hd. destruct dry.
  - now rewrite (Hdry eq_refl).
  - rewrite E in Hconv. cbn [fst snd] in Hconv.
    apply Hconv; [discriminate|exact Hq|exact Hd].
Qed.

Lemma failing_file_stops_run_witness :
  let a := FixMain.mk_args false None false in
  let t' := fst (FixMain.main a sample_paths locked_tree) in
  snd (FixMain.main a sample_paths locked_tree) = None
  /\ (forall q, ~ In q ["a.lisp"%string] -> read t' q = read locked_tree q)
  /\ (forall q d, In q ["a.lisp"%string] -> read locked_tree q = Some d ->
                  read t' q = Some (if false then d else converted d)).
Proof.
  apply (failing_file_stops_run false false sample_paths locked_tree
           ["a.lisp"%string] ["c.lisp"%string] "b.lisp"%string).
  - nodup_paths.
  - reflexivity.
  - intros q [<-|[]]. exists cafe_comment. split; [reflexivity|].
    right. right. reflexivity.
  - right. exists mixed_file. split; [reflexivity|].
    split; [reflexivity|]. split; [|reflexivity].
    vm_compute. discriminate.
Defined.
